(** * NeuroBlock: the training pipeline of the backend

    A shallow embedding of [backend/utils.py], [backend/validation.py],
    [backend/ml_pipeline.py] and the routes of [backend/app.py] (health,
    upload, training and prediction; the explanation route, which forwards to
    an external service, is left out), with the properties of the pipeline
    and of the service stated and proved over it.

    Conventions of the embedding.
    - A Python [float] is a rational ([Qc]); NaN is [None] in an
      [option Qc], infinities are left out.  The arithmetic that decides the
      sizes of the split (the test fraction of the route and the number of
      test rows) is rounded to binary64 as Python rounds it.  The statistics
      of the imputer, the scalers and the metrics are written as their exact
      formulas, without the rounding of float arithmetic.
    - A pandas column is a [series]: an [int64], a [float64] or an [object]
      column.  Only [float64] and [object] columns can hold a missing value.
    - A [DataFrame] is an ordered list of labelled columns, labels may repeat
      (pandas allows it, and so does the validator the service calls).
    - Frames are objects in a [heap]; methods that copy or assign columns
      allocate or update heap cells, so aliasing is visible.
    - A raised exception is a value [Raise e]; methods of [MLPipeline] run in
      a state-and-exception monad in which the state written before a
      [raise] stays written, as in Python.
    - What scikit-learn and numpy compute by numerical search or random
      draws (fitting, the shuffle, square roots, the averaged scores) is a
      field of the record [library]; what they compute by a closed rule
      (argument checks, imputation statistics, label encoding, the confusion
      matrix, R², MAE) is defined here after the library's documentation.
    - What pandas reads from an uploaded file, the order in which
      [value_counts] lists values of equal count, the mean pandas reports
      for a column and whether Flask serialises a response are fields of the
      record [Pandas.library]. *)

From Stdlib Require Import QArith Qcanon Qround.
From stdpp Require Import base numbers list sorting strings pretty gmap.

Local Open Scope Z_scope.
Local Open Scope string_scope.
Local Open Scope list_scope.
#[local] Set Warnings "-clear-no-such-hyp".

(* ===================================================================== *)
(** * Python values                                                        *)
(* ===================================================================== *)

(** Exceptions: the Python class and [str(e)].  The text of an exception
    that pandas, numpy or scikit-learn raises is abbreviated. *)
Inductive exn :=
| ValueError (msg : string)
| KeyError (msg : string)
| AttributeError (msg : string)
| TypeError (msg : string)
(** scikit-learn's error for a parameter out of its constraints, a subclass
    of [ValueError] and of [TypeError] *)
| InvalidParameterError (msg : string).

Definition exn_str (e : exn) : string :=
  match e with
  | ValueError m | KeyError m | AttributeError m | TypeError m
  | InvalidParameterError m => m
  end.

(** [type(e).__name__] *)
Definition exn_class (e : exn) : string :=
  match e with
  | ValueError _ => "ValueError"
  | KeyError _ => "KeyError"
  | AttributeError _ => "AttributeError"
  | TypeError _ => "TypeError"
  | InvalidParameterError _ => "InvalidParameterError"
  end.

Inductive result (A : Type) :=
| Ok (a : A)
| Raise (e : exn).
Arguments Ok {A} a.
Arguments Raise {A} e.

Definition is_ok {A} (r : result A) : bool :=
  match r with Ok _ => true | Raise _ => false end.

Definition result_bind {A B} (r : result A) (k : A → result B) : result B :=
  match r with Ok a => k a | Raise e => Raise e end.

Notation "'try' x ← r ; k" := (result_bind r (λ x, k))
  (at level 10, x binder, r at level 100, k at level 200,
   format "'[v' 'try'  x  ←  r ; '/' k ']'") : stdpp_scope.

Abbreviation float := Qc.

Definition Zf (z : Z) : float := Q2Qc (inject_Z z).
Definition natf (n : nat) : float := Zf (Z.of_nat n).

#[global] Instance float_inhabited : Inhabited float := populate (Zf 0).

(** [', '.join(l)] *)
Definition join (sep : string) (l : list string) : string := String.concat sep l.

(** [needle in hay] on strings. *)
Fixpoint contains (needle hay : string) : bool :=
  String.prefix needle hay
  || match hay with
     | EmptyString => false
     | String _ hay' => contains needle hay'
     end.

(** [s.endswith(suffix)] *)
Definition endswith (suffix s : string) : bool :=
  let n := String.length s in
  let k := String.length suffix in
  (k <=? n)%nat && bool_decide (String.substring (n - k) k s = suffix).

(** [f"{n}"] for an integer. *)
Definition str_nat (n : nat) : string := pretty n.

(** [f"{x:.1f}"] for a non-negative float: one decimal, ties to even. *)
Definition round_half_even (q : Q) : Z :=
  let f := Qfloor q in
  let r := (q - inject_Z f)%Q in
  match (r ?= 1 # 2)%Q with
  | Lt => f
  | Gt => f + 1
  | Eq => if Z.even f then f else f + 1
  end.

Definition format_1f (x : float) : string :=
  let t := round_half_even (this x * 10)%Q in
  pretty (t / 10) +:+ "." +:+ pretty (t mod 10).

(** ** Float arithmetic that decides sizes

    An operation on Python floats answers the binary64 number nearest to the
    exact result, ties to the even significand (IEEE 754).  [binary64 x] is
    that number for an [x] in the normal range; overflow and subnormal
    numbers are not modelled.  The significand is the integer [m] with
    [2^52 ≤ m ≤ 2^53] nearest to [|x| / 2^e]. *)
Definition binary64 (x : float) : float :=
  let q := this x in
  match Qnum q with
  | 0 => x
  | _ =>
      let a := (Z.abs (Qnum q) # Qden q)%Q in
      let e0 := Z.log2 (Qnum a) - Z.log2 (Zpos (Qden a)) - 52 in
      let e := if Qle_bool (2 ^ 52) (a / 2 ^ e0) then e0 else e0 - 1 in
      let m := round_half_even (a / 2 ^ e) in
      Q2Qc (inject_Z (Z.sgn (Qnum q) * m) * 2 ^ e)
  end.

(** [a - b], [a * b] and [a / b] on floats ([b] is not zero), and
    [float(n)]. *)
Definition float_sub (a b : float) : float := binary64 (a - b)%Qc.
Definition float_mul (a b : float) : float := binary64 (a * b)%Qc.
Definition float_div (a b : float) : float := binary64 (a / b)%Qc.
Definition float_of_nat (n : nat) : float := binary64 (natf n).

(* ===================================================================== *)
(** * pandas: series and frames                                            *)
(* ===================================================================== *)

Inductive series :=
| IntSeries (xs : list Z)
| FloatSeries (xs : list (option float))
| ObjectSeries (xs : list (option string)).

Definition series_len (s : series) : nat :=
  match s with
  | IntSeries xs => length xs
  | FloatSeries xs => length xs
  | ObjectSeries xs => length xs
  end.

(** [pd.api.types.is_numeric_dtype(s)] *)
Definition is_numeric_dtype (s : series) : bool :=
  match s with
  | IntSeries _ | FloatSeries _ => true
  | ObjectSeries _ => false
  end.

(** [s.dtype == 'object'] *)
Definition is_object_dtype (s : series) : bool := negb (is_numeric_dtype s).

Definition count_none {A} (xs : list (option A)) : nat :=
  length (filter (λ o, o = None) xs).

(** [s.isna().sum()] *)
Definition isna_sum (s : series) : nat :=
  match s with
  | IntSeries _ => 0%nat
  | FloatSeries xs => count_none xs
  | ObjectSeries xs => count_none xs
  end.

(** [s.isna().any()] *)
Definition isna_any (s : series) : bool := negb (isna_sum s =? 0)%nat.

(** [s.isna().all()], true of a column without rows. *)
Definition isna_all (s : series) : bool := (isna_sum s =? series_len s)%nat.

(** [s.nunique()]: the number of distinct values, missing ones left out. *)
Definition nunique (s : series) : nat :=
  match s with
  | IntSeries xs => length (remove_dups xs)
  | FloatSeries xs => length (remove_dups (omap id xs))
  | ObjectSeries xs => length (remove_dups (omap id xs))
  end.

Record DataFrame := {
  index_len : nat;                      (* len(df) *)
  columns : list (string * series)      (* label and data, in column order *)
}.

(** Every column has one value per row. *)
Definition frame_wf (df : DataFrame) : Prop :=
  ∀ c s, (c, s) ∈ columns df → series_len s = index_len df.

(** [df.columns] *)
Definition labels (df : DataFrame) : list string := (columns df).*1.

(** [df.empty]: an axis of length 0. *)
Definition df_empty (df : DataFrame) : bool :=
  (index_len df =? 0)%nat || (length (columns df) =? 0)%nat.

(** [df[c]]: the columns labelled [c]; pandas answers a Series for one, a
    DataFrame for several, and raises [KeyError] for none. *)
Definition getitem (df : DataFrame) (c : string) : list series :=
  (filter (λ p, p.1 = c) (columns df)).*2.

(** [c in df.columns] *)
Definition has_column (df : DataFrame) (c : string) : bool :=
  bool_decide (c ∈ labels df).

(** [df.columns.duplicated()]: every label but its first occurrence. *)
Fixpoint duplicated_labels (seen l : list string) : list string :=
  match l with
  | [] => []
  | c :: l' =>
      if decide (c ∈ seen) then c :: duplicated_labels seen l'
      else duplicated_labels (c :: seen) l'
  end.

(** [df.isna().sum() / len(df) * 100], per column. *)
Definition missing_pct (df : DataFrame) (s : series) : float :=
  (natf (isna_sum s) / natf (index_len df) * Zf 100)%Qc.

(** [.max()] and [.idxmax()] of a non-empty labelled vector: the largest
    value, and the first label that carries it. *)
Fixpoint max_labelled (best : string * float) (l : list (string * float))
  : string * float :=
  match l with
  | [] => best
  | (c, v) :: l' =>
      if decide (best.2 < v)%Qc then max_labelled (c, v) l'
      else max_labelled best l'
  end.

(* ===================================================================== *)
(** * backend/utils.py                                                     *)
(* ===================================================================== *)

Module Utils.

Definition validate_dataset (df : DataFrame) : bool * string :=
  if df_empty df then
    (false, "Dataset is empty")
  else if (index_len df <? 10)%nat then
    (false, "Dataset must have at least 10 rows")
  else if (length (columns df) <? 2)%nat then
    (false, "Dataset must have at least 2 columns (features + target)")
  else
    (true, "").

(** The loop over [input_features]: the first feature that is no column. *)
Definition first_missing (df : DataFrame) (input_features : list string)
  : option string :=
  head (filter (λ f, f ∉ labels df) input_features).

Definition validate_feature_target_selection
    (df : DataFrame) (input_features : list string) (target_variable : string)
  : bool * string :=
  if negb (has_column df target_variable) then
    (false, "Target variable '" +:+ target_variable +:+ "' not found in dataset")
  else match first_missing df input_features with
  | Some feature =>
      (false, "Feature '" +:+ feature +:+ "' not found in dataset")
  | None =>
      if bool_decide (target_variable ∈ input_features) then
        (false, "Target variable cannot be in input features")
      else if (length input_features <? 1)%nat then
        (false, "At least one input feature must be selected")
      else
        (true, "")
  end.

Definition detect_column_type (s : series) : string :=
  (* Check if numeric *)
  if is_numeric_dtype s then "numeric"
  else
    (* Check for categorical (low cardinality) *)
    let unique_count := nunique s in
    let total_count := series_len s in
    if bool_decide (natf unique_count < natf total_count * Q2Qc (1 # 2))%Qc
       && (unique_count <? 10)%nat
    then "categorical"
    else "text".

(** [a / b] on Python integers; [None] stands for [ZeroDivisionError]. *)
Definition truediv (a b : nat) : option float :=
  if (b =? 0)%nat then None else Some (natf a / natf b)%Qc.

(** The answer is [None] where the call ends in [ZeroDivisionError]. *)
Definition detect_problem_type (s : series) : option string :=
  (* If target is categorical/text, it's classification *)
  if negb (is_numeric_dtype s) then Some "classification"
  else
    (* If numeric, check number of unique values *)
    let unique_count := nunique s in
    let total_count := series_len s in
    (* If very few unique values (< 20) or less than 5% unique, likely classification *)
    if (unique_count <? 20)%nat then Some "classification"
    else
      match truediv unique_count total_count with
      | None => None
      | Some ratio =>
          if bool_decide (ratio < Q2Qc (5 # 100))%Qc then Some "classification"
          (* Otherwise, it's regression *)
          else Some "regression"
      end.

End Utils.

(* ===================================================================== *)
(** * backend/validation.py                                                *)
(* ===================================================================== *)

Module Validation.

Definition verdict : Type := bool * option string * option string.

Definition invalid (msg suggestion : string) : verdict :=
  (false, Some msg, Some suggestion).

Definition valid : verdict := (true, None, None).

(** [(df.isna().sum() / len(df) * 100)] as a labelled vector. *)
Definition missing_pcts (df : DataFrame) : list (string * float) :=
  map (λ p, (p.1, missing_pct df p.2)) (columns df).

(** Its [.idxmax()] and [.max()]; the frame is not empty where it is used. *)
Definition worst_column (df : DataFrame) : string * float :=
  match missing_pcts df with
  | [] => ("", Zf 0)
  | p :: l => max_labelled p l
  end.

Definition validate_dataset (df : DataFrame) : verdict :=
  if df_empty df then
    invalid "Dataset is empty" "Please upload a file with data rows"
  else if (index_len df <? 10)%nat then
    invalid ("Dataset has only " +:+ str_nat (index_len df) +:+ " rows")
            "ML models need at least 10 samples. Please upload a larger dataset"
  else if forallb (λ p, isna_all p.2) (columns df) then
    invalid "All columns contain only missing values"
            "Please check your data file for valid entries"
  else if bool_decide (Zf 90 < (worst_column df).2)%Qc then
    invalid ("Column '" +:+ (worst_column df).1 +:+ "' has "
               +:+ format_1f (worst_column df).2 +:+ "% missing values")
            "Consider removing columns with too many missing values or use imputation"
  else if (length (columns df) <? 2)%nat then
    invalid "Dataset must have at least 2 columns"
            "You need at least one input feature and one target variable"
  else match duplicated_labels [] (labels df) with
  | (_ :: _) as dup_cols =>
      invalid ("Duplicate column names found: " +:+ join ", " dup_cols)
              "Please rename duplicate columns in your CSV file"
  | [] =>
      match filter (λ col, contains "Unnamed" col = true) (labels df) with
      | (_ :: _) as unnamed_cols =>
          invalid ("Found unnamed columns: " +:+ join ", " unnamed_cols)
                  "Please add column headers to your CSV file"
      | [] => valid
      end
  end.

(** [if df[c].nunique() == k]: a frame with several columns labelled [c]
    answers a Series of booleans, whose truth value is ambiguous. *)
Definition ambiguous : exn :=
  ValueError "The truth value of a Series is ambiguous. Use a.empty, a.bool(), a.item(), a.any() or a.all().".

Definition column_nunique (df : DataFrame) (c : string) : result nat :=
  match getitem df c with
  | [] => Raise (KeyError c)
  | [s] => Ok (nunique s)
  | _ => Raise ambiguous
  end.

(** [pd.api.types.is_numeric_dtype(df[f])]: false of a frame. *)
Definition column_is_numeric (df : DataFrame) (f : string) : bool :=
  match getitem df f with
  | [s] => is_numeric_dtype s
  | _ => false
  end.

(** [df[c].dtype == 'object' or df[c].nunique() < 20], for one column [c]. *)
Definition looks_categorical (df : DataFrame) (c : string) : bool :=
  match getitem df c with
  | [s] => is_object_dtype s || (nunique s <? 20)%nat
  | _ => false
  end.

(** [[f for f in numeric_features if df[f].nunique() == 1]] *)
Fixpoint zero_variance (df : DataFrame) (fs : list string)
  : result (list string) :=
  match fs with
  | [] => Ok []
  | f :: fs' =>
      try n ← column_nunique df f;
      try rest ← zero_variance df fs';
      Ok (if (n =? 1)%nat then f :: rest else rest)
  end.

Definition validate_feature_selection
    (df : DataFrame) (input_features : list string) (target_variable : string)
  : result verdict :=
  match filter (λ f, f ∉ labels df) input_features with
  | (_ :: _) as missing_features =>
      Ok (invalid ("Features not found: " +:+ join ", " missing_features)
                  "Please select valid column names from your dataset")
  | [] =>
  if negb (has_column df target_variable) then
    Ok (invalid ("Target variable '" +:+ target_variable +:+ "' not found")
                "Please select a valid target column")
  else if bool_decide (target_variable ∈ input_features) then
    Ok (invalid "Target variable cannot be an input feature"
                "Remove the target variable from your feature selection")
  else if (length input_features =? 0)%nat then
    Ok (invalid "No input features selected"
                "Please select at least one feature column")
  else
    try n_classes ← column_nunique df target_variable;
    if (n_classes =? 1)%nat then
      Ok (invalid ("Target variable '" +:+ target_variable
                     +:+ "' has only one unique value")
                  "Target must have at least 2 different values for classification or range of values for regression")
    else if looks_categorical df target_variable && (100 <? n_classes)%nat then
      Ok (invalid ("Target has " +:+ str_nat n_classes +:+ " unique classes")
                  "Too many classes for classification. Consider grouping categories or using regression")
    else
      let numeric_features := filter (λ f, column_is_numeric df f = true) input_features in
      try zero_var_features ← zero_variance df numeric_features;
      match zero_var_features with
      | _ :: _ =>
          Ok (invalid ("Features with no variance: " +:+ join ", " zero_var_features)
                      "Remove constant features as they don't provide information")
      | [] => Ok valid
      end
  end.

End Validation.

(* ===================================================================== *)
(** * numpy                                                                *)
(* ===================================================================== *)

Section np_unique.
Context {A : Type} `{EqDecision A} (R : relation A) `{∀ x y, Decision (R x y)}.

(** [np.unique(xs)]: the distinct values, sorted. *)
Definition np_unique (xs : list A) : list A := merge_sort R (remove_dups xs).

Definition occurrences (v : A) (xs : list A) : nat :=
  length (filter (λ x, x = v) xs).

(** The counts of [np.unique(xs, return_counts=True)]. *)
Definition np_unique_counts (xs : list A) : list nat :=
  map (λ v, occurrences v xs) (np_unique xs).

(** The index of [v] in the sorted array [classes]. *)
Fixpoint index_of (v : A) (classes : list A) : nat :=
  match classes with
  | [] => 0
  | c :: classes' => if decide (c = v) then 0 else S (index_of v classes')
  end.

End np_unique.

(** numpy sorts NaN last and [np.unique] keeps a single NaN. *)
Definition nan_last (a b : option float) : Prop :=
  match a, b with
  | Some x, Some y => (x ≤ y)%Qc
  | _, None => True
  | None, Some _ => False
  end.

#[global] Instance nan_last_dec : RelDecision nan_last.
Proof. intros [x|] [y|]; simpl; apply _. Defined.

(** [a.min()] of an array of counts. *)
Definition np_min (counts : list nat) : result nat :=
  match counts with
  | [] => Raise (ValueError "zero-size array to reduction operation minimum which has no identity")
  | c :: counts' => Ok (foldr Nat.min c counts')
  end.

Definition sumf (xs : list float) : float := foldr Qcplus (Zf 0) xs.

(** [np.mean] of a non-empty array, as the exact quotient. *)
Definition mean (xs : list float) : float := (sumf xs / natf (length xs))%Qc.

(** [np.median]: the middle of the sorted array, or the mean of the two
    middle values. *)
Definition median (xs : list float) : float :=
  let sorted := merge_sort Qcle xs in
  let n := length xs in
  if Nat.even n then
    ((sorted !!! (n / 2 - 1)%nat + sorted !!! (n / 2)%nat) / Zf 2)%Qc
  else sorted !!! (n / 2)%nat.

(** The smallest of the most frequent values (scipy's [mode], and the
    tie-break scikit-learn applies to object arrays). *)
Definition most_frequent {A} `{EqDecision A} (R : relation A)
    `{∀ x y, Decision (R x y)} (xs : list A) : option A :=
  let counts := np_unique_counts R xs in
  match counts with
  | [] => None
  | c :: counts' =>
      let top := foldr Nat.max c counts' in
      head (filter (λ v, occurrences v xs = top) (np_unique R xs))
  end.

(** [np.abs] *)
Definition fabs (x : float) : float := if decide (x < Zf 0)%Qc then (- x)%Qc else x.

(** The population variance, [np.var]. *)
Definition variance (xs : list float) : float :=
  let m := mean xs in
  mean (map (λ x, (x - m) * (x - m))%Qc xs).

(* ===================================================================== *)
(** * scikit-learn                                                         *)
(* ===================================================================== *)

(** The target vector [y] as [preprocess_data] hands it on: the numeric
    column itself, or the integer codes of the label encoder. *)
Inductive target :=
| IntTarget (ys : list Z)
| FloatTarget (ys : list (option float)).

Definition target_len (y : target) : nat :=
  match y with
  | IntTarget ys => length ys
  | FloatTarget ys => length ys
  end.

(** [np.issubdtype(y.dtype, np.floating)] *)
Definition is_floating (y : target) : bool :=
  match y with
  | IntTarget _ => false
  | FloatTarget _ => true
  end.

(** [len(np.unique(y))] *)
Definition n_unique (y : target) : nat :=
  match y with
  | IntTarget ys => length (np_unique Z.le ys)
  | FloatTarget ys => length (np_unique nan_last ys)
  end.

(** The counts of [np.unique(y, return_counts=True)]. *)
Definition class_counts (y : target) : list nat :=
  match y with
  | IntTarget ys => np_unique_counts Z.le ys
  | FloatTarget ys => np_unique_counts nan_last ys
  end.

(** Rows [idx] of a vector, of a column, of a frame. *)
Definition take_rows {A} (idx : list nat) (xs : list A) : list A :=
  omap (λ i, xs !! i) idx.

Definition series_rows (idx : list nat) (s : series) : series :=
  match s with
  | IntSeries xs => IntSeries (take_rows idx xs)
  | FloatSeries xs => FloatSeries (take_rows idx xs)
  | ObjectSeries xs => ObjectSeries (take_rows idx xs)
  end.

Definition frame_rows (idx : list nat) (df : DataFrame) : DataFrame :=
  {| index_len := length idx;
     columns := map (λ p, (p.1, series_rows idx p.2)) (columns df) |}.

Definition target_rows (idx : list nat) (y : target) : target :=
  match y with
  | IntTarget ys => IntTarget (take_rows idx ys)
  | FloatTarget ys => FloatTarget (take_rows idx ys)
  end.

(** Hyperparameter values as the request carries them. *)
Inductive hpval :=
| HNone
| HInt (z : Z)
| HFloat (x : float)
| HStr (s : string)
| HTuple (zs : list Z).

Inductive estimator :=
| LogisticRegression (max_iter : hpval) (random_state : Z)
| LinearRegression
| DecisionTreeClassifier (max_depth min_samples_split : hpval) (random_state : Z)
| DecisionTreeRegressor (max_depth min_samples_split : hpval) (random_state : Z)
| RandomForestClassifier (n_estimators max_depth : hpval) (random_state : Z)
| RandomForestRegressor (n_estimators max_depth : hpval) (random_state : Z)
| SVC (C kernel : hpval) (random_state : Z)
| SVR (C kernel : hpval)
| KNeighborsClassifier (n_neighbors : hpval)
| KNeighborsRegressor (n_neighbors : hpval)
| MLPClassifier (hidden_layer_sizes max_iter : hpval) (random_state : Z)
| MLPRegressor (hidden_layer_sizes max_iter : hpval) (random_state : Z).

(** [coef_] of a linear model: one row, or one row per class. *)
Inductive coef :=
| Coef1D (row : list float)
| Coef2D (row0 : list float) (rows : list (list float)).

(** What [fit] leaves in an estimator: [predict], and the attributes that
    [hasattr] probes. *)
Record fitted (P : Type) := {
  predict : DataFrame → result (list P);
  feature_importances_ : option (list float);
  coef_ : option coef
}.
Arguments predict {P} f df.
Arguments feature_importances_ {P} f.
Arguments coef_ {P} f.

Inductive average := Binary | Weighted.

(** The part of numpy and scikit-learn that is taken as given. *)
Module Lib.

Record library := {
  (** [np.sqrt] on floats *)
  np_sqrt : float → float;
  (** [RandomState(seed).permutation(n)] *)
  rng_permutation : Z → nat → list nat;
  (** the first split of [StratifiedShuffleSplit(n_test, n_train, seed)]
      over the classes [y]: the train and the test rows *)
  stratified_shuffle : Z → target → nat → nat → list nat * list nat;
  (** [estimator.fit(X, y)] of a classifier and of a regressor *)
  fit_classifier : estimator → DataFrame → list Z → result (fitted Z);
  fit_regressor : estimator → DataFrame → target → result (fitted float);
  (** what [estimator.predict(X)] raises while [fit] has not completed:
      [NotFittedError] for an estimator without any fitted attribute, and
      after a [fit] that failed whatever the attributes it had set lead to,
      for most estimators an [AttributeError] *)
  predict_unfitted : estimator → DataFrame → exn;
  (** the averaged scores, with [zero_division=0] *)
  precision_score : list Z → list Z → average → result float;
  recall_score : list Z → list Z → average → result float;
  f1_score : list Z → list Z → average → result float
}.

End Lib.

Abbreviation library := Lib.library.

(** ** SimpleImputer *)

Definition length_mismatch (values index : nat) : exn :=
  ValueError ("Length of values (" +:+ str_nat values
              +:+ ") does not match length of index (" +:+ str_nat index +:+ ")").

Definition fill {A} (v : A) (xs : list (option A)) : list (option A) :=
  map (λ o, Some (default v o)) xs.

(** [SimpleImputer(strategy).fit(column).statistics_]: the fill value, or
    none when the column has no observed value. *)
Definition numeric_statistic (strategy : string) (observed : list float)
  : result (option float) :=
  if decide (strategy = "constant") then Ok (Some (Zf 0))
  else if decide (strategy ∈ ["mean"; "median"; "most_frequent"]) then
    match observed with
    | [] => Ok None
    | _ :: _ =>
        Ok (if decide (strategy = "mean") then Some (mean observed)
            else if decide (strategy = "median") then Some (median observed)
            else most_frequent Qcle observed)
    end
  else Raise (InvalidParameterError ("The 'strategy' parameter of SimpleImputer must be a str among {'mean', 'median', 'most_frequent', 'constant'}. Got '"
                                     +:+ strategy +:+ "' instead.")).

(** [SimpleImputer(strategy).fit_transform(X[[col]]).ravel()]: a column
    without any observed value is dropped from the output, which leaves an
    empty array. *)
Definition impute_numeric (strategy : string) (xs : list (option float))
  : result (list (option float)) :=
  try stat ← numeric_statistic strategy (omap id xs);
  Ok match stat with
     | Some v => fill v xs
     | None => []
     end.

Definition impute_object (xs : list (option string)) : list (option string) :=
  match most_frequent String.le (omap id xs) with
  | Some v => fill v xs
  | None => []
  end.

Definition invalid_strategy_for_text (strategy : string) : exn :=
  ValueError ("Cannot use " +:+ strategy +:+ " strategy with non-numeric data").

(** [SimpleImputer(strategy=strategy).fit_transform(X[[col]]).ravel()] as
    a column: numeric data comes back as floats. *)
Definition simple_imputer (strategy : string) (s : series) : result series :=
  match s with
  | IntSeries xs =>
      try out ← impute_numeric strategy (map (λ z, Some (Zf z)) xs);
      Ok (FloatSeries out)
  | FloatSeries xs =>
      try out ← impute_numeric strategy xs;
      Ok (FloatSeries out)
  | ObjectSeries xs =>
      if decide (strategy = "most_frequent") then Ok (ObjectSeries (impute_object xs))
      else if decide (strategy = "constant") then Ok (ObjectSeries (fill "missing_value" xs))
      else Raise (invalid_strategy_for_text strategy)
  end.

(** ** LabelEncoder *)

(** [s.astype(str)]: a missing value becomes the text [nan]. *)
Definition astype_str (xs : list (option string)) : list string :=
  map (default "nan") xs.

(** [LabelEncoder().fit(values).classes_] *)
Definition classes_ (values : list string) : list string := np_unique String.le values.

(** [LabelEncoder().fit_transform(values)] *)
Definition label_encode (values : list string) : list Z :=
  map (λ v, Z.of_nat (index_of v (classes_ values))) values.

Definition not_1d : exn :=
  ValueError "y should be a 1d array, got an array of shape (n, k) instead.".

(** ** StandardScaler and MinMaxScaler *)

(** The float matrix [check_array] makes of a frame, column by column;
    text in an object column does not convert. *)
Definition column_floats (s : series) : result (list (option float)) :=
  match s with
  | IntSeries xs => Ok (map (λ z, Some (Zf z)) xs)
  | FloatSeries xs => Ok xs
  | ObjectSeries xs =>
      match omap id xs with
      | [] => Ok (map (λ _, None) xs)
      | v :: _ => Raise (ValueError ("could not convert string to float: '" +:+ v +:+ "'"))
      end
  end.

Fixpoint frame_floats (cols : list (string * series))
  : result (list (list (option float))) :=
  match cols with
  | [] => Ok []
  | (_, s) :: cols' =>
      try xs ← column_floats s;
      try rest ← frame_floats cols';
      Ok (xs :: rest)
  end.

Definition check_array (df : DataFrame) : result (list (list (option float))) :=
  try m ← frame_floats (columns df);
  if (index_len df =? 0)%nat then
    Raise (ValueError "Found array with 0 sample(s) while a minimum of 1 is required.")
  else if (length (columns df) =? 0)%nat then
    Raise (ValueError "Found array with 0 feature(s) while a minimum of 1 is required.")
  else Ok m.

(** A scaler object: unfitted as constructed, or with the statistics of
    its columns ([mean_] and [scale_], [data_min_] and [data_max_]). *)
Inductive Scaler :=
| StandardScaler (fitted : option (list (option float) * list (option float)))
| MinMaxScaler (fitted : option (list (option float) * list (option float))).

(** A scale of zero is replaced by one. *)
Definition handle_zeros_in_scale (s : float) : float :=
  if decide (s = Zf 0) then Zf 1 else s.

Definition affine (center scale : option float) (xs : list (option float))
  : list (option float) :=
  match center, scale with
  | Some c, Some s => map (fmap (λ x, ((x - c) / handle_zeros_in_scale s)%Qc)) xs
  | _, _ => map (λ _, None) xs
  end.

(** Statistics over the observed values of a column; NaN when there is
    none. *)
Definition observed_stat (f : list float → float) (xs : list (option float))
  : option float :=
  match omap id xs with
  | [] => None
  | obs => Some (f obs)
  end.

Definition fmin (a b : float) : float := if decide (a ≤ b)%Qc then a else b.
Definition fmax (a b : float) : float := if decide (a ≤ b)%Qc then b else a.

Definition list_min (xs : list float) : float :=
  match xs with
  | [] => Zf 0
  | x :: xs' => foldr fmin x xs'
  end.

Definition list_max (xs : list float) : float :=
  match xs with
  | [] => Zf 0
  | x :: xs' => foldr fmax x xs'
  end.

Definition as_frame (labels : list string) (n : nat) (m : list (list (option float)))
  : DataFrame :=
  {| index_len := n; columns := zip labels (map FloatSeries m) |}.

Section scalers.
Context (lib : library).

(** [np.std]: the population standard deviation. *)
Definition np_std (xs : list float) : float := Lib.np_sqrt lib (variance xs).

(** The columns of the two scalers, as the exact values of their
    formulas: what rounding and overflow make of them is not modelled. *)
Definition standardize_column (xs : list (option float)) : list (option float) :=
  affine (observed_stat mean xs) (observed_stat np_std xs) xs.

Definition minmax_column (xs : list (option float)) : list (option float) :=
  affine (observed_stat list_min xs)
         (observed_stat (λ obs, list_max obs - list_min obs)%Qc xs) xs.

(** [StandardScaler().fit_transform(X)]: the fitted scaler and the array. *)
Definition standard_fit_transform (X : DataFrame)
  : result (Scaler * list (list (option float))) :=
  try m ← check_array X;
  Ok (StandardScaler (Some (map (observed_stat mean) m, map (observed_stat np_std) m)),
      map standardize_column m).

(** [MinMaxScaler().fit_transform(X)] *)
Definition minmax_fit_transform (X : DataFrame)
  : result (Scaler * list (list (option float))) :=
  try m ← check_array X;
  Ok (MinMaxScaler (Some (map (observed_stat list_min) m, map (observed_stat list_max) m)),
      map minmax_column m).

End scalers.

(** ** train_test_split *)

Definition invalid_test_size : exn :=
  InvalidParameterError "The 'test_size' parameter of train_test_split must be a float in the range (0.0, 1.0), an int in the range [1, inf) or None.".

Definition inconsistent_lengths : exn :=
  ValueError "Found input variables with inconsistent numbers of samples".

Definition empty_train_set : exn :=
  ValueError "With the given n_samples and test_size, the resulting train set will be empty. Adjust any of the aforementioned parameters.".

Definition least_populated_class : exn :=
  ValueError "The least populated class in y has only 1 member, which is too few. The minimum number of groups for any class cannot be less than 2.".

Definition too_few_for_classes (which : string) : exn :=
  ValueError ("The " +:+ which +:+ " should be greater or equal to the number of classes").

(** [math.ceil] *)
Definition ceil (x : float) : Z := Qceiling (this x).

(** The sizes [(n_train, n_test)] of the two partitions for a float
    [test_size] that lies in (0, 1): [n_test = ceil(test_size * n_samples)],
    the product taken in floats. *)
Definition validate_shuffle_split (n_samples : nat) (test_size : float)
  : result (nat * nat) :=
  let n_test := Z.to_nat (ceil (float_mul test_size (float_of_nat n_samples))) in
  let n_train := (n_samples - n_test)%nat in
  if (n_train =? 0)%nat then Raise empty_train_set
  else Ok (n_train, n_test).

Section train_test_split.
Context (lib : library).

(** [ShuffleSplit]: a permutation of the rows, its head the test rows. *)
Definition shuffle_split (random_state : Z) (n_samples n_train n_test : nat)
  : list nat * list nat :=
  let permutation := Lib.rng_permutation lib random_state n_samples in
  (take n_train (drop n_test permutation), take n_test permutation).

(** [StratifiedShuffleSplit]: refuses a class with one member and
    partitions smaller than the number of classes. *)
Definition stratified_shuffle_split
    (random_state : Z) (y : target) (n_train n_test : nat)
  : result (list nat * list nat) :=
  try least ← np_min (class_counts y);
  if (least <? 2)%nat then Raise least_populated_class
  else if (n_train <? n_unique y)%nat then Raise (too_few_for_classes "train_size")
  else if (n_test <? n_unique y)%nat then Raise (too_few_for_classes "test_size")
  else Ok (Lib.stratified_shuffle lib random_state y n_train n_test).

(** [train_test_split(X, y, test_size=, random_state=, stratify=)] for a
    float [test_size]. *)
Definition train_test_split
    (X : DataFrame) (y : target) (test_size : float) (random_state : Z)
    (stratify : option target)
  : result (DataFrame * DataFrame * target * target) :=
  if decide (test_size ≤ Zf 0 ∨ Zf 1 ≤ test_size)%Qc then Raise invalid_test_size
  else if negb (index_len X =? target_len y)%nat then Raise inconsistent_lengths
  else
    try sizes ← validate_shuffle_split (index_len X) test_size;
    try rows ← match stratify with
               | Some classes =>
                   stratified_shuffle_split random_state classes sizes.1 sizes.2
               | None =>
                   Ok (shuffle_split random_state (index_len X) sizes.1 sizes.2)
               end;
    Ok (frame_rows rows.1 X, frame_rows rows.2 X,
        target_rows rows.1 y, target_rows rows.2 y).

End train_test_split.

(** ** sklearn.metrics *)

(** A Python float that may be NaN. *)
Abbreviation pyfloat := (option float).

Module Metrics.

Definition no_samples : exn :=
  ValueError "Found array with 0 sample(s) while a minimum of 1 is required.".

Definition contains_nan : exn := ValueError "Input contains NaN.".

Definition mixed_targets : exn :=
  ValueError "Classification metrics can't handle a mix of multiclass and continuous targets".

(** [check_consistent_length] and the refusal of an empty sample. *)
Definition check_targets {A B} (y_true : list A) (y_pred : list B) : result unit :=
  if negb (length y_true =? length y_pred)%nat then Raise inconsistent_lengths
  else if (length y_true =? 0)%nat then Raise no_samples
  else Ok ().

Definition count_matches (y_true y_pred : list Z) : nat :=
  length (filter (λ p, p.1 = p.2) (zip y_true y_pred)).

(** [accuracy_score(y_true, y_pred)] *)
Definition accuracy_score (y_true y_pred : list Z) : result float :=
  try _ ← check_targets y_true y_pred;
  Ok (natf (count_matches y_true y_pred) / natf (length y_true))%Qc.

(** [unique_labels(y_true, y_pred)]: the labels of either vector, sorted. *)
Definition unique_labels (y_true y_pred : list Z) : list Z :=
  np_unique Z.le (y_true ++ y_pred).

(** [confusion_matrix(y_true, y_pred).tolist()]: entry [i][j] counts the
    samples of true label [i] predicted as label [j]. *)
Definition confusion_matrix (y_true y_pred : list Z) : list (list nat) :=
  let labels := unique_labels y_true y_pred in
  map (λ t, map (λ p, occurrences (t, p) (zip y_true y_pred)) labels) labels.

(** The float vector of a regression metric; NaN is refused. *)
Definition as_floats (y : target) : result (list float) :=
  match y with
  | IntTarget ys => Ok (map Zf ys)
  | FloatTarget ys =>
      if decide (None ∈ ys) then Raise contains_nan else Ok (omap id ys)
  end.

Definition squared_errors (y_true y_pred : list float) : list float :=
  zip_with (λ a b, (a - b) * (a - b))%Qc y_true y_pred.

(** [mean_squared_error] *)
Definition mean_squared_error (y_true y_pred : list float) : result float :=
  try _ ← check_targets y_true y_pred;
  Ok (mean (squared_errors y_true y_pred)).

(** [mean_absolute_error] *)
Definition mean_absolute_error (y_true y_pred : list float) : result float :=
  try _ ← check_targets y_true y_pred;
  Ok (mean (zip_with (λ a b, fabs (a - b)%Qc) y_true y_pred)).

(** [r2_score]: NaN for fewer than two samples; a constant [y_true] scores
    1 when predicted exactly and 0 otherwise. *)
Definition r2_score (y_true y_pred : list float) : result pyfloat :=
  try _ ← check_targets y_true y_pred;
  if (length y_true <? 2)%nat then Ok None
  else
    let numerator := sumf (squared_errors y_true y_pred) in
    let m := mean y_true in
    let denominator := sumf (map (λ a, (a - m) * (a - m))%Qc y_true) in
    Ok (Some (if decide (numerator = Zf 0) then Zf 1
              else if decide (denominator = Zf 0) then Zf 0
              else (Zf 1 - numerator / denominator)%Qc)).

End Metrics.

(** Python's [max(0, x)]: [x] when [x > 0] holds, else the first argument. *)
Definition max0 (x : pyfloat) : pyfloat :=
  match x with
  | Some v => if decide (Zf 0 < v)%Qc then Some v else Some (Zf 0)
  | None => Some (Zf 0)
  end.

(** [1e-10] *)
Definition epsilon : float := Q2Qc (1 # 10000000000).

(* ===================================================================== *)
(** * backend/ml_pipeline.py                                               *)
(* ===================================================================== *)

Module MLPipeline.

(** The preprocessing options of a request; an absent key reads as its
    [config.get] default. *)
Record config := {
  handle_missing : option bool;
  missing_strategy : option string;
  encode_categories : option bool;
  standardization : option bool;
  normalization : option bool
}.

(** [self.X_train, self.X_test, self.y_train, self.y_test]: all [None]
    until [split_data] assigns the four at once. *)
Record split := {
  X_train : DataFrame;
  X_test : DataFrame;
  y_train : target;
  y_test : target
}.

Inductive fitted_model :=
| Unfitted
| FittedClassifier (f : fitted Z)
| FittedRegressor (f : fitted float).

(** The vector [model.predict] answers: labels or values. *)
Inductive prediction :=
| Labels (ys : list Z)
| Values (ys : list float).

Abbreviation loc := nat.

(** The attributes of an [MLPipeline] object. *)
Record pipeline := {
  scaler : option Scaler;
  label_encoders : gmap string (list string);
  feature_names : list string;
  target_name : option string;
  model : option (estimator * fitted_model);
  train_test : option split;
  y_test_pred : option prediction;
  y_test_actual : option target;
  original_df : option loc
}.

(** [MLPipeline()] *)
Definition __init__ : pipeline :=
  {| scaler := None; label_encoders := ∅; feature_names := [];
     target_name := None; model := None; train_test := None;
     y_test_pred := None; y_test_actual := None; original_df := None |}.

Definition set_scaler (v : Scaler) (p : pipeline) : pipeline :=
  {| scaler := Some v; label_encoders := label_encoders p;
     feature_names := feature_names p; target_name := target_name p;
     model := model p; train_test := train_test p;
     y_test_pred := y_test_pred p; y_test_actual := y_test_actual p;
     original_df := original_df p |}.

Definition set_label_encoder (c : string) (le : list string) (p : pipeline) : pipeline :=
  {| scaler := scaler p; label_encoders := <[c := le]> (label_encoders p);
     feature_names := feature_names p; target_name := target_name p;
     model := model p; train_test := train_test p;
     y_test_pred := y_test_pred p; y_test_actual := y_test_actual p;
     original_df := original_df p |}.

Definition set_names (fs : list string) (t : string) (p : pipeline) : pipeline :=
  {| scaler := scaler p; label_encoders := label_encoders p;
     feature_names := fs; target_name := Some t;
     model := model p; train_test := train_test p;
     y_test_pred := y_test_pred p; y_test_actual := y_test_actual p;
     original_df := original_df p |}.

Definition set_model (m : estimator * fitted_model) (p : pipeline) : pipeline :=
  {| scaler := scaler p; label_encoders := label_encoders p;
     feature_names := feature_names p; target_name := target_name p;
     model := Some m; train_test := train_test p;
     y_test_pred := y_test_pred p; y_test_actual := y_test_actual p;
     original_df := original_df p |}.

Definition set_train_test (sp : split) (p : pipeline) : pipeline :=
  {| scaler := scaler p; label_encoders := label_encoders p;
     feature_names := feature_names p; target_name := target_name p;
     model := model p; train_test := Some sp;
     y_test_pred := y_test_pred p; y_test_actual := y_test_actual p;
     original_df := original_df p |}.

Definition set_test_predictions (pred : prediction) (actual : target) (p : pipeline)
  : pipeline :=
  {| scaler := scaler p; label_encoders := label_encoders p;
     feature_names := feature_names p; target_name := target_name p;
     model := model p; train_test := train_test p;
     y_test_pred := Some pred; y_test_actual := Some actual;
     original_df := original_df p |}.

Definition set_original_df (l : loc) (p : pipeline) : pipeline :=
  {| scaler := scaler p; label_encoders := label_encoders p;
     feature_names := feature_names p; target_name := target_name p;
     model := model p; train_test := train_test p;
     y_test_pred := y_test_pred p; y_test_actual := y_test_actual p;
     original_df := Some l |}.

(** ** The state of a method call: the frames and [self] *)

#[global] Instance DataFrame_inhabited : Inhabited DataFrame :=
  populate {| index_len := 0; columns := [] |}.

Record world := {
  heap : list DataFrame;
  self : pipeline
}.

Definition M (A : Type) : Type := world → result A * world.

Definition ret {A} (a : A) : M A := λ w, (Ok a, w).

Definition raise {A} (e : exn) : M A := λ w, (Raise e, w).

Definition bind {A B} (m : M A) (k : A → M B) : M B :=
  λ w, match m w with
       | (Ok a, w') => k a w'
       | (Raise e, w') => (Raise e, w')
       end.

Notation "'let!' x := m 'in' k" := (bind m (λ x, k))
  (at level 10, x binder, m at level 100, k at level 200,
   format "'[v' 'let!'  x  :=  m  'in' '/' k ']'") : stdpp_scope.

Definition lift {A} (r : result A) : M A := λ w, (r, w).

Definition get_self : M pipeline := λ w, (Ok (self w), w).

Definition update_self (f : pipeline → pipeline) : M unit :=
  λ w, (Ok (), {| heap := heap w; self := f (self w) |}).

Definition deref (l : loc) : M DataFrame := λ w, (Ok (heap w !!! l), w).

Definition alloc (df : DataFrame) : M loc :=
  λ w, (Ok (length (heap w)), {| heap := heap w ++ [df]; self := self w |}).

Definition store (l : loc) (df : DataFrame) : M unit :=
  λ w, (Ok (), {| heap := <[l := df]> (heap w); self := self w |}).

(** [df.copy()] *)
Definition copy (l : loc) : M loc :=
  let! df := deref l in
  alloc df.

(** [df[input_features]]: a new frame of the columns carrying each of the
    labels, in the order asked; [KeyError] for a label that is no column. *)
Definition select (df : DataFrame) (input_features : list string) : result DataFrame :=
  match filter (λ f, f ∉ labels df) input_features with
  | f :: _ => Raise (KeyError ("'" +:+ f +:+ "' not in index"))
  | [] =>
      Ok {| index_len := index_len df;
            columns := input_features ≫= (λ f, filter (λ p, p.1 = f) (columns df)) |}
  end.

(** [X[col] = values] for a label [col] that one column of [X] carries. *)
Definition setitem (X : loc) (col : string) (values : series) : M unit :=
  let! df := deref X in
  if negb (series_len values =? index_len df)%nat then
    raise (length_mismatch (series_len values) (index_len df))
  else
    store X {| index_len := index_len df;
               columns := map (λ p, if decide (p.1 = col) then (col, values) else p)
                              (columns df) |}.

Fixpoint for_each {A} (xs : list A) (body : A → M unit) : M unit :=
  match xs with
  | [] => ret ()
  | x :: xs' =>
      let! _ := body x in
      for_each xs' body
  end.

Section methods.
Context (lib : library).

(** One round of the imputation loop: [if X[col].isna().any(): ...].  With
    several columns labelled [col], [X[col]] is a frame and the condition
    has no truth value. *)
Definition impute_column (X : loc) (strategy : string) (col : string) : M unit :=
  let! df := deref X in
  match getitem df col with
  | [s] =>
      if isna_any s then
        if is_numeric_dtype s then
          let! values := lift (simple_imputer strategy s) in
          setitem X col values
        else
          (* For categorical, use most frequent *)
          let! values := lift (simple_imputer "most_frequent" s) in
          setitem X col values
      else ret ()
  | [] => raise (KeyError col)
  | _ => raise Validation.ambiguous
  end.

(** One round of the encoding loop.  A frame is not of numeric dtype, and
    the label encoder refuses it. *)
Definition encode_column (X : loc) (col : string) : M unit :=
  let! df := deref X in
  match getitem df col with
  | [s] =>
      match s with
      | ObjectSeries xs =>
          let values := astype_str xs in
          let! _ := setitem X col (IntSeries (label_encode values)) in
          update_self (set_label_encoder col (classes_ values))
      | _ => ret ()
      end
  | [] => raise (KeyError col)
  | _ => raise not_1d
  end.

(** [# Encode target if categorical] *)
Definition encode_target (y : list series) (target_variable : string) : M target :=
  match y with
  | [IntSeries ys] => ret (IntTarget ys)
  | [FloatSeries ys] => ret (FloatTarget ys)
  | [ObjectSeries ys] =>
      let values := astype_str ys in
      let! _ := update_self (set_label_encoder target_variable (classes_ values)) in
      ret (IntTarget (label_encode values))
  | _ => raise not_1d
  end.

(** [self.scaler = unfitted] and then
    [pd.DataFrame(self.scaler.fit_transform(X), columns=X.columns, index=X.index)];
    fitting writes the statistics into the scaler object. *)
Definition scale (X : loc) (unfitted : Scaler)
    (fit_transform : DataFrame → result (Scaler * list (list (option float))))
  : M loc :=
  let! _ := update_self (set_scaler unfitted) in
  let! df := deref X in
  let! out := lift (fit_transform df) in
  let! _ := update_self (set_scaler out.1) in
  alloc (as_frame (labels df) (index_len df) out.2).

Definition preprocess_data
    (df : loc) (input_features : list string) (target_variable : string)
    (config : config)
  : M (loc * target) :=
  let! df := copy df in
  (* Extract features and target *)
  let! frame := deref df in
  let! selected := lift (select frame input_features) in
  let! selected := alloc selected in
  let! X := copy selected in
  let! y := match getitem frame target_variable with
            | [] => raise (KeyError ("'" +:+ target_variable +:+ "'"))
            | y => ret y
            end in
  let! _ := update_self (set_names input_features target_variable) in
  let! X_columns := (let! df := deref X in ret (labels df)) in
  (* Handle missing values *)
  let! _ := (if default false (handle_missing config) then
               let strategy := default "mean" (missing_strategy config) in
               for_each X_columns (impute_column X strategy)
             else ret ()) in
  (* Encode categorical features *)
  let! _ := (if default false (encode_categories config) then
               for_each X_columns (encode_column X)
             else ret ()) in
  (* Encode target if categorical *)
  let! y := encode_target y target_variable in
  let! X := (if default false (standardization config) then
               scale X (StandardScaler None) (standard_fit_transform lib)
             else if default false (normalization config) then
               scale X (MinMaxScaler None) minmax_fit_transform
             else ret X) in
  ret (X, y).

(** [y if (len(unique_classes) > 1 and min_class_count >= 2) else None] *)
Definition stratify_param (y : target) : result (option target) :=
  let unique_classes := n_unique y in
  try min_class_count ← np_min (class_counts y);
  Ok (if (1 <? unique_classes)%nat && (2 <=? min_class_count)%nat
      then Some y else None).

Definition split_data (X : loc) (y : target) (test_size : float) (random_state : Z)
  : M unit :=
  let! X := deref X in
  (* Only stratify if all classes have at least 2 samples *)
  let! stratify := lift (stratify_param y) in
  let! parts := lift (train_test_split lib X y test_size random_state stratify) in
  let '(X_train, X_test, y_train, y_test) := parts in
  update_self (set_train_test {| X_train := X_train; X_test := X_test;
                                 y_train := y_train; y_test := y_test |}).

(** [hyperparameters.get(key, fallback)] *)
Definition get (hyperparameters : gmap string hpval) (key : string) (fallback : hpval)
  : hpval :=
  default fallback (hyperparameters !! key).

(** The chain of [if]/[elif] over [model_type]; [None] is its [else]. *)
Definition make_model (model_type : string) (is_classification : bool)
    (hyperparameters : gmap string hpval) : option estimator :=
  if decide (model_type = "logistic" ∨ model_type = "linear") then
    Some (if is_classification
          then LogisticRegression (get hyperparameters "max_iter" (HInt 1000)) 42
          else LinearRegression)
  else if decide (model_type = "decision_tree") then
    Some (if is_classification
          then DecisionTreeClassifier (get hyperparameters "max_depth" HNone)
                 (get hyperparameters "min_samples_split" (HInt 2)) 42
          else DecisionTreeRegressor (get hyperparameters "max_depth" HNone)
                 (get hyperparameters "min_samples_split" (HInt 2)) 42)
  else if decide (model_type = "random_forest") then
    Some (if is_classification
          then RandomForestClassifier (get hyperparameters "n_estimators" (HInt 100))
                 (get hyperparameters "max_depth" HNone) 42
          else RandomForestRegressor (get hyperparameters "n_estimators" (HInt 100))
                 (get hyperparameters "max_depth" HNone) 42)
  else if decide (model_type = "svm") then
    Some (if is_classification
          then SVC (get hyperparameters "C" (HFloat (Zf 1)))
                 (get hyperparameters "kernel" (HStr "rbf")) 42
          else SVR (get hyperparameters "C" (HFloat (Zf 1)))
                 (get hyperparameters "kernel" (HStr "rbf")))
  else if decide (model_type = "knn") then
    Some (if is_classification
          then KNeighborsClassifier (get hyperparameters "n_neighbors" (HInt 5))
          else KNeighborsRegressor (get hyperparameters "n_neighbors" (HInt 5)))
  else if decide (model_type = "neural_network") then
    Some (if is_classification
          then MLPClassifier (get hyperparameters "hidden_layer_sizes" (HTuple [100]))
                 (get hyperparameters "max_iter" (HInt 500)) 42
          else MLPRegressor (get hyperparameters "hidden_layer_sizes" (HTuple [100]))
                 (get hyperparameters "max_iter" (HInt 500)) 42)
  else None.

End methods.

(** The record [_calculate_metrics] answers. *)
Module Results.

Record test_metrics_t := {
  accuracy : pyfloat;
  precision : pyfloat;
  recall : pyfloat;
  f1_score : pyfloat
}.

Record regression_metrics_t := {
  mse : float;
  rmse : float;
  mae : float;
  r2_score : pyfloat
}.

Record t := {
  test_metrics : test_metrics_t;
  train_metrics : pyfloat;                 (* train_metrics['accuracy'] *)
  confusion_matrix : list (list nat);
  regression_metrics : option regression_metrics_t;
  feature_importance : option (gmap string float);
  n_train_samples : nat;
  n_test_samples : nat;
  n_features : nat;
  feature_names : list string;
  target_name : option string;
  predictions : option (target * prediction)   (* actual, predicted *)
}.

Definition set_predictions (actual : target) (predicted : prediction) (r : t) : t :=
  {| test_metrics := test_metrics r; train_metrics := train_metrics r;
     confusion_matrix := confusion_matrix r;
     regression_metrics := regression_metrics r;
     feature_importance := feature_importance r;
     n_train_samples := n_train_samples r; n_test_samples := n_test_samples r;
     n_features := n_features r; feature_names := feature_names r;
     target_name := target_name r;
     predictions := Some (actual, predicted) |}.

End Results.

(** [{name: float(v) for name, v in zip(names, values)}] *)
Definition to_dict (names : list string) (values : list float) : gmap string float :=
  foldl (λ m p, <[p.1 := p.2]> m) ∅ (zip names values).

(** The importance of the features, read off the fitted model. *)
Definition importance {P} (names : list string) (f : fitted P)
  : option (gmap string float) :=
  match feature_importances_ f with
  | Some values => Some (to_dict names values)
  | None =>
      match coef_ f with
      | Some (Coef2D row0 _) => Some (to_dict names (map fabs row0))
      | Some (Coef1D row) => Some (to_dict names (map fabs row))
      | None => None
      end
  end.

Definition model_importance (names : list string) (m : option (estimator * fitted_model))
  : option (gmap string float) :=
  match m with
  | Some (_, FittedClassifier f) => importance names f
  | Some (_, FittedRegressor f) => importance names f
  | _ => None
  end.

Definition prediction_floats (p : prediction) : list float :=
  match p with
  | Labels ys => map Zf ys
  | Values ys => ys
  end.

Section training.
Context (lib : library).

Definition classification_metrics (y_train y_test y_train_pred y_test_pred : list Z)
  : result (Results.test_metrics_t * pyfloat * list (list nat)) :=
  (* Determine if binary or multiclass *)
  let n_classes := length (np_unique Z.le y_test) in
  let average := if (n_classes =? 2)%nat then Binary else Weighted in
  (* Test metrics *)
  try test_accuracy ← Metrics.accuracy_score y_test y_test_pred;
  try test_precision ← Lib.precision_score lib y_test y_test_pred average;
  try test_recall ← Lib.recall_score lib y_test y_test_pred average;
  try test_f1 ← Lib.f1_score lib y_test y_test_pred average;
  (* Train metrics *)
  try train_accuracy ← Metrics.accuracy_score y_train y_train_pred;
  (* Confusion matrix *)
  let cm := Metrics.confusion_matrix y_test y_test_pred in
  Ok ({| Results.accuracy := Some test_accuracy;
         Results.precision := Some test_precision;
         Results.recall := Some test_recall;
         Results.f1_score := Some test_f1 |},
      Some train_accuracy, cm).

Definition regression_metrics (y_train y_test : target) (y_train_pred y_test_pred : list float)
  : result (Results.test_metrics_t * pyfloat * list (list nat)
            * Results.regression_metrics_t) :=
  try y_test ← Metrics.as_floats y_test;
  try test_mse ← Metrics.mean_squared_error y_test y_test_pred;
  let test_rmse := Lib.np_sqrt lib test_mse in
  try test_mae ← Metrics.mean_absolute_error y_test y_test_pred;
  try test_r2 ← Metrics.r2_score y_test y_test_pred;
  try y_train ← Metrics.as_floats y_train;
  try train_mse ← Metrics.mean_squared_error y_train y_train_pred;
  try train_r2 ← Metrics.r2_score y_train y_train_pred;
  (* For regression, use R² as "accuracy" for consistency with UI *)
  Ok ({| Results.accuracy := max0 test_r2;
         Results.precision := test_r2;
         Results.recall := Some (Zf 1 - test_mae / (np_std lib y_test + epsilon))%Qc;
         Results.f1_score := test_r2 |},
      max0 train_r2,
      [[0; 0]; [0; 0]]%nat,
      {| Results.mse := test_mse; Results.rmse := test_rmse;
         Results.mae := test_mae; Results.r2_score := test_r2 |}).

Definition _calculate_metrics
    (y_train_pred y_test_pred : prediction) (is_classification : bool)
  : M Results.t :=
  let! self := get_self in
  match train_test self with
  | None => raise (TypeError "Expected sequence or array-like, got <class 'NoneType'>")
  | Some sp =>
      let! scores :=
        (if is_classification then
           match y_train sp, y_test sp, y_train_pred, y_test_pred with
           | IntTarget y_train, IntTarget y_test, Labels y_train_pred, Labels y_test_pred =>
               let! m := lift (classification_metrics y_train y_test y_train_pred y_test_pred) in
               ret (m, None)
           | _, _, _, _ => raise Metrics.mixed_targets
           end
         else
           let! m := lift (regression_metrics (y_train sp) (y_test sp)
                             (prediction_floats y_train_pred)
                             (prediction_floats y_test_pred)) in
           ret (m.1, Some m.2)) in
      let '(test_metrics, train_accuracy, cm, regression) := scores in
      ret {| Results.test_metrics := test_metrics;
             Results.train_metrics := train_accuracy;
             Results.confusion_matrix := cm;
             Results.regression_metrics := regression;
             (* Feature importance (if available) *)
             Results.feature_importance := model_importance (feature_names self) (model self);
             Results.n_train_samples := target_len (y_train sp);
             Results.n_test_samples := target_len (y_test sp);
             Results.n_features := length (feature_names self);
             Results.feature_names := feature_names self;
             Results.target_name := target_name self;
             Results.predictions := None |}
  end.

(** [self.model.fit(self.X_train, self.y_train)] and the two calls of
    [self.model.predict]. *)
Definition fit_and_predict (est : estimator) (is_classification : bool) (sp : split)
  : M (prediction * prediction) :=
  if is_classification then
    match y_train sp with
    | IntTarget ys =>
        let! f := lift (Lib.fit_classifier lib est (X_train sp) ys) in
        let! _ := update_self (set_model (est, FittedClassifier f)) in
        let! y_train_pred := lift (predict f (X_train sp)) in
        let! y_test_pred := lift (predict f (X_test sp)) in
        ret (Labels y_train_pred, Labels y_test_pred)
    | FloatTarget _ => raise Metrics.mixed_targets
    end
  else
    let! f := lift (Lib.fit_regressor lib est (X_train sp) (y_train sp)) in
    let! _ := update_self (set_model (est, FittedRegressor f)) in
    let! y_train_pred := lift (predict f (X_train sp)) in
    let! y_test_pred := lift (predict f (X_test sp)) in
    ret (Values y_train_pred, Values y_test_pred).

Definition train_model
    (model_type : string) (hyperparameters : option (gmap string hpval))
  : M Results.t :=
  let hyperparameters := default ∅ hyperparameters in
  let! self := get_self in
  match train_test self with
  | None => raise (AttributeError "'NoneType' object has no attribute 'dtype'")
  | Some sp =>
      (* Detect if this is classification or regression *)
      let is_classification :=
        (n_unique (y_train sp) <? 50)%nat && negb (is_floating (y_train sp)) in
      (* Initialize model based on type and problem *)
      match make_model model_type is_classification hyperparameters with
      | None => raise (ValueError ("Unknown model type: " +:+ model_type))
      | Some est =>
          let! _ := update_self (set_model (est, Unfitted)) in
          (* Train the model, make predictions *)
          let! preds := fit_and_predict est is_classification sp in
          (* Store predictions for visualization *)
          let! _ := update_self (set_test_predictions preds.2 (y_test sp)) in
          (* Calculate metrics *)
          let! results := _calculate_metrics preds.1 preds.2 is_classification in
          (* Add predictions to results for export/visualization *)
          ret (Results.set_predictions (y_test sp) preds.2 results)
      end
  end.

End training.

End MLPipeline.

(* ===================================================================== *)
(** * backend/utils.py: the description of the columns                     *)
(* ===================================================================== *)

(** The part of pandas and of Flask that is taken as given: the parsers of
    an uploaded file, the order in which [value_counts] lists the values of a
    column, and whether the response made of a frame serialises. *)
Module Pandas.

Record library := {
  (** [pd.read_csv(io.StringIO(content.decode('utf-8')))] *)
  read_csv : string → result DataFrame;
  (** [pd.read_excel(io.BytesIO(content))] *)
  read_excel : string → result DataFrame;
  (** [s.value_counts()] over the observed values of a text column *)
  value_counts : list string → list (string * nat);
  (** [s.mean()] over the observed values of a numeric column: a sum of
      floats divided by their number, each step rounded, so that the result
      need not lie between the smallest and the largest value *)
  mean : list float → float;
  (** what [jsonify] raises on the response of an upload of this frame, if
      anything: it sorts the keys of every dictionary, and the headers and
      cells of a sheet may be of types that do not compare (a number beside a
      text), a distinction the frames of this model do not make *)
  jsonify_error : DataFrame → option exn
}.

End Pandas.

(** An entry of the dictionary [get_column_info] answers. *)
Module Info.

(** The keys that depend on the type of the column: [min], [max] and
    [mean] (each a float or [None]) for a numeric column, [unique_values]
    and [top_values] for a categorical one, none for text. *)
Inductive details :=
| Numeric (min max mean : option float)
| Categorical (unique_values : nat) (top_values : gmap string nat)
| Text.

Record t := {
  type : string;
  missing_count : nat;
  missing_percentage : pyfloat;
  more : details
}.

End Info.

(** The values a numeric column holds, as floats, missing ones left out. *)
Definition observed_values (s : series) : list float :=
  match s with
  | IntSeries xs => map (λ z, binary64 (Zf z)) xs
  | FloatSeries xs => omap id xs
  | ObjectSeries _ => []
  end.

(** The texts an object column holds, missing ones left out. *)
Definition observed_texts (s : series) : list string :=
  match s with
  | ObjectSeries xs => omap id xs
  | _ => []
  end.

(** [float(s.f()) if not s.isna().all() else None] *)
Definition statistic (f : list float → float) (s : series) : option float :=
  if isna_all s then None else Some (f (observed_values s)).

Section get_column_info.
Context (pd : Pandas.library).

(** The body of the loop, for a label that one column carries. *)
Definition column_entry (df : DataFrame) (s : series) : Info.t :=
  let col_type := Utils.detect_column_type s in
  {| Info.type := col_type;
     Info.missing_count := isna_sum s;
     (* a frame without rows divides zero by zero: NaN *)
     Info.missing_percentage :=
       if (index_len df =? 0)%nat then None else Some (missing_pct df s);
     Info.more :=
       if decide (col_type = "numeric") then
         Info.Numeric (statistic list_min s) (statistic list_max s)
                      (statistic (Pandas.mean pd) s)
       else if decide (col_type = "categorical") then
         Info.Categorical (nunique s)
           (list_to_map (take 5 (Pandas.value_counts pd (observed_texts s))))
       else Info.Text |}.

(** [get_column_info(df)].  Under a label that several columns carry,
    [df[col]] is a frame, and [detect_column_type] asks for the truth value
    of a Series. *)
Definition get_column_info (df : DataFrame) : result (gmap string Info.t) :=
  foldl (λ column_info col,
           try column_info ← column_info;
           match getitem df col with
           | [s] => Ok (<[col := column_entry df s]> column_info)
           | [] => Raise (KeyError col)
           | _ => Raise Validation.ambiguous
           end)
        (Ok ∅) (labels df).

End get_column_info.

(* ===================================================================== *)
(** * backend/utils.py: conversion for JSON                                *)
(* ===================================================================== *)

(** The values [safe_convert_to_serializable] is applied to, as far as
    their Python type goes: the scalars of Python and of numpy, arrays of
    scalars, Series, and the containers of Python.  The keys of a
    dictionary are strings. *)
Module Json.

#[local] Set Warnings "-register-all".

Inductive scalar :=
| SBool (b : bool)
| SInt (z : Z)
| SFloat (x : pyfloat)
| SStr (s : string).

(** A numpy array of scalars: a single item, or an axis of arrays. *)
Inductive ndarray :=
| Item (v : scalar)
| Axis (items : list ndarray).

Inductive pyobj :=
| PyNone
| Py (v : scalar)                         (* bool, int, float, str *)
| NpInteger (z : Z)                       (* np.int64, np.int32, ... *)
| NpFloating (x : pyfloat)                (* np.float64, np.float32, ... *)
| NpBool (b : bool)                       (* np.bool_ *)
| NdArray (a : ndarray)
| PdSeries (s : series)
| PyDict (items : list (string * pyobj))
| PyList (items : list pyobj)
| PyTuple (items : list pyobj).

(** [a.tolist()]: nested lists of Python scalars. *)
Fixpoint tolist (a : ndarray) : pyobj :=
  match a with
  | Item v => Py v
  | Axis items => PyList (map tolist items)
  end.

(** [s.tolist()]: a missing text is the float NaN. *)
Definition series_tolist (s : series) : pyobj :=
  PyList match s with
         | IntSeries xs => map (λ z, Py (SInt z)) xs
         | FloatSeries xs => map (λ x, Py (SFloat x)) xs
         | ObjectSeries xs =>
             map (λ o, match o with
                       | Some v => Py (SStr v)
                       | None => Py (SFloat None)
                       end) xs
         end.

Fixpoint safe_convert_to_serializable (obj : pyobj) : pyobj :=
  match obj with
  | NpInteger z => Py (SInt z)
  | NpFloating x => Py (SFloat x)
  | NdArray a => tolist a
  | PdSeries s => series_tolist s
  | PyDict items =>
      PyDict (map (λ kv, (kv.1, safe_convert_to_serializable kv.2)) items)
  | PyList items => PyList (map safe_convert_to_serializable items)
  | _ => obj
  end.

End Json.

(* ===================================================================== *)
(** * backend/app.py: the routes                                           *)
(* ===================================================================== *)

Module App.

(** The JSON body of [POST /api/train]; an absent key is [None]. *)
Record request := {
  session_id : option string;
  input_features : option (list string);
  target_variable : option string;
  model_type : option string;
  preprocessing : option MLPipeline.config;
  split_ratio : option float;
  hyperparameters : option (gmap string hpval)
}.

(** The frames in memory and the global [pipelines]. *)
Record server := {
  heap : list DataFrame;
  pipelines : gmap string MLPipeline.pipeline
}.

Inductive body :=
| Error (msg : string)
| Trained (results : MLPipeline.Results.t).

Definition response : Type := body * nat.

(** [for field in required_fields: if field not in data] *)
Definition missing_field (data : request) : option string :=
  if bool_decide (session_id data = None) then Some "session_id"
  else if bool_decide (input_features data = None) then Some "input_features"
  else if bool_decide (target_variable data = None) then Some "target_variable"
  else if bool_decide (model_type data = None) then Some "model_type"
  else None.

(** [data.get('preprocessing', {})] *)
Definition no_preprocessing : MLPipeline.config :=
  {| MLPipeline.handle_missing := None; MLPipeline.missing_strategy := None;
     MLPipeline.encode_categories := None; MLPipeline.standardization := None;
     MLPipeline.normalization := None |}.

(** The pipeline object keeps what the methods wrote, whatever the outcome. *)
Definition commit (sid : string) (w : MLPipeline.world) (srv : server) : server :=
  {| heap := MLPipeline.heap w;
     pipelines := <[sid := MLPipeline.self w]> (pipelines srv) |}.

Section routes.
Context (lib : library).

(** Preprocess, split and train, as the body of the [try] runs them. *)
Definition run_training
    (df : MLPipeline.loc) (input_features : list string) (target_variable : string)
    (data : request) (model_type : string)
  : MLPipeline.M MLPipeline.Results.t :=
  (* Get configuration *)
  let preprocessing_config := default no_preprocessing (preprocessing data) in
  let split_ratio := default (Zf 70) (split_ratio data) in
  let hyperparameters := default ∅ (hyperparameters data) in
  (* Preprocess data *)
  MLPipeline.bind
    (MLPipeline.preprocess_data lib df input_features target_variable preprocessing_config)
    (λ Xy,
  (* Split data *)
  let test_size := float_div (float_sub (Zf 100) split_ratio) (Zf 100) in
  MLPipeline.bind (MLPipeline.split_data lib Xy.1 Xy.2 test_size 42) (λ _,
  (* Train model *)
  MLPipeline.train_model lib model_type (Some hyperparameters))).

Definition train_model (data : request) (srv : server) : response * server :=
  match missing_field data with
  | Some field => ((Error ("Missing required field: " +:+ field), 400%nat), srv)
  | None =>
  match session_id data, input_features data, target_variable data, model_type data with
  | Some sid, Some input_features, Some target_variable, Some model_type =>
      match pipelines srv !! sid with
      | None => ((Error "Invalid session ID", 400%nat), srv)
      | Some pipeline =>
          match MLPipeline.original_df pipeline with
          | None =>
              ((Error "Training failed: 'MLPipeline' object has no attribute 'original_df'",
                500%nat), srv)
          | Some df =>
              (* Validate feature/target selection *)
              let '(is_valid, error_msg) :=
                Utils.validate_feature_target_selection
                  (heap srv !!! df) input_features target_variable in
              if negb is_valid then ((Error error_msg, 400%nat), srv)
              else
                match run_training df input_features target_variable data model_type
                        {| MLPipeline.heap := heap srv; MLPipeline.self := pipeline |} with
                | (Ok results, w) => ((Trained results, 200%nat), commit sid w srv)
                | (Raise e, w) =>
                    ((Error ("Training failed: " +:+ exn_str e), 500%nat), commit sid w srv)
                end
          end
      end
  | _, _, _, _ => ((Error "Missing required field", 400%nat), srv)
  end
  end.

End routes.

(** ** The state at start-up: [pipelines = {}] *)

Definition initial : server := {| heap := []; pipelines := ∅ |}.

(** ** [GET /api/health] *)

Definition health_check : string * string * nat :=
  ("healthy", "ML Backend is running", 200%nat).

(** ** [POST /api/upload] *)

(** A cell of a frame as Python sees it. *)
Inductive cell :=
| CInt (z : Z)
| CFloat (x : pyfloat)
| CStr (s : string).

Definition series_cells (s : series) : list cell :=
  match s with
  | IntSeries xs => map CInt xs
  | FloatSeries xs => map CFloat xs
  | ObjectSeries xs =>
      map (λ o, match o with Some v => CStr v | None => CFloat None end) xs
  end.

(** [df.head(n)] *)
Definition head (n : nat) (df : DataFrame) : DataFrame :=
  frame_rows (seq 0 (n `min` index_len df)) df.

(** [df.to_dict('records')]: one dictionary per row; under a repeated
    label the last column wins. *)
Definition to_records (df : DataFrame) : list (gmap string cell) :=
  map (λ i, foldl (λ record p,
                     match series_cells p.2 !! i with
                     | Some v => <[p.1 := v]> record
                     | None => record
                     end) ∅ (columns df))
      (seq 0 (index_len df)).

Module Upload.

(** The part of the form that is named [file]. *)
Record file := {
  filename : string;
  content : string
}.

Record accepted := {
  session_id : string;
  file_name : string;
  rows : nat;
  columns : list string;
  column_info : gmap string Info.t;
  preview : list (gmap string cell)
}.

Inductive body :=
| Error (msg : string)
| Uploaded (r : accepted).

End Upload.

Section upload.
Context (pd : Pandas.library).

(** [# Read the file]: [None] for a name that ends in neither suffix. *)
Definition read_file (file : Upload.file) : option (result DataFrame) :=
  if endswith ".csv" (Upload.filename file) then
    Some (Pandas.read_csv pd (Upload.content file))
  else if endswith ".xlsx" (Upload.filename file) then
    Some (Pandas.read_excel pd (Upload.content file))
  else None.

Definition upload_dataset (files : option Upload.file) (srv : server)
  : (Upload.body * nat) * server :=
  match files with
  | None => ((Upload.Error "No file provided", 400%nat), srv)
  | Some file =>
      if decide (Upload.filename file = "") then
        ((Upload.Error "No file selected", 400%nat), srv)
      else
        match read_file file with
        | None =>
            ((Upload.Error "Unsupported file format. Use CSV or Excel", 400%nat), srv)
        | Some (Raise e) =>
            ((Upload.Error ("Failed to process file: " +:+ exn_str e), 500%nat), srv)
        | Some (Ok df) =>
            (* Validate dataset *)
            let '(is_valid, error_msg) := Utils.validate_dataset df in
            if negb is_valid then ((Upload.Error error_msg, 400%nat), srv)
            else
              (* Get column information *)
              match get_column_info pd df with
              | Raise e =>
                  ((Upload.Error ("Failed to process file: " +:+ exn_str e), 500%nat), srv)
              | Ok column_info =>
                  (* Create preview (first 10 rows) *)
                  let preview := to_records (head 10 df) in
                  (* Generate session ID *)
                  let session_id := "session_" +:+ str_nat (size (pipelines srv)) in
                  (* Store dataframe for this session *)
                  let pipeline :=
                    MLPipeline.set_original_df (length (heap srv)) MLPipeline.__init__ in
                  let stored :=
                    {| heap := heap srv ++ [df];
                       pipelines := <[session_id := pipeline]> (pipelines srv) |} in
                  (* the session is stored before the response is serialised *)
                  match Pandas.jsonify_error pd df with
                  | Some e =>
                      ((Upload.Error ("Failed to process file: " +:+ exn_str e), 500%nat),
                       stored)
                  | None =>
                      ((Upload.Uploaded
                          {| Upload.session_id := session_id;
                             Upload.file_name := Upload.filename file;
                             Upload.rows := index_len df;
                             Upload.columns := labels df;
                             Upload.column_info := column_info;
                             Upload.preview := preview |}, 200%nat),
                       stored)
                  end
              end
        end
  end.

End upload.

(** ** [POST /api/predict] *)

Module Predict.

(** The JSON body; [data] is the frame [pd.DataFrame] makes of the
    records sent. *)
Record request := {
  session_id : option string;
  data : option DataFrame
}.

Inductive body :=
| Error (msg : string)
| Predictions (predictions : MLPipeline.prediction).

End Predict.

Section predict.
Context (lib : library).

(** [pipeline.model.predict(input_data)] *)
Definition model_predict (model : estimator * MLPipeline.fitted_model) (input_data : DataFrame)
  : result MLPipeline.prediction :=
  match model.2 with
  | MLPipeline.Unfitted => Raise (Lib.predict_unfitted lib model.1 input_data)
  | MLPipeline.FittedClassifier f =>
      try predictions ← predict f input_data;
      Ok (MLPipeline.Labels predictions)
  | MLPipeline.FittedRegressor f =>
      try predictions ← predict f input_data;
      Ok (MLPipeline.Values predictions)
  end.

Definition predict (data : Predict.request) (srv : server)
  : (Predict.body * nat) * server :=
  match Predict.session_id data with
  | None => ((Predict.Error "Invalid session ID", 400%nat), srv)
  | Some session_id =>
      if decide (session_id = "") then ((Predict.Error "Invalid session ID", 400%nat), srv)
      else
        match pipelines srv !! session_id with
        | None => ((Predict.Error "Invalid session ID", 400%nat), srv)
        | Some pipeline =>
            match MLPipeline.model pipeline with
            | None =>
                ((Predict.Error "No trained model found. Train a model first.", 400%nat), srv)
            | Some model =>
                (* Convert input data to DataFrame *)
                match Predict.data data with
                | None => ((Predict.Error "Prediction failed: 'data'", 500%nat), srv)
                | Some input_data =>
                    (* Make predictions *)
                    match model_predict model input_data with
                    | Ok predictions => ((Predict.Predictions predictions, 200%nat), srv)
                    | Raise e =>
                        ((Predict.Error ("Prediction failed: " +:+ exn_str e), 500%nat), srv)
                    end
                end
            end
        end
  end.

End predict.

End App.

(* ===================================================================== *)
(** * Sample data                                                          *)
(* ===================================================================== *)

(** Concrete frames, requests and a small executable [library] on which the
    definitions above are evaluated. *)
Module Sample.

(** A square root that is exact on the squares of rationals. *)
Definition sqrt (x : float) : float :=
  Q2Qc (Z.sqrt (Qnum (this x)) # Pos.sqrt (Qden (this x))).

(** A classifier that answers the smallest of the most frequent training
    labels, a regressor that answers the mean of the observed targets. *)
Definition constant_model {P} (v : P) : fitted P :=
  {| predict := λ X, Ok (replicate (index_len X) v);
     feature_importances_ := None;
     coef_ := None |}.

Definition observed (y : target) : list float :=
  match y with
  | IntTarget ys => map Zf ys
  | FloatTarget ys => omap id ys
  end.

Definition class_name (est : estimator) : string :=
  match est with
  | LogisticRegression _ _ => "LogisticRegression"
  | LinearRegression => "LinearRegression"
  | DecisionTreeClassifier _ _ _ => "DecisionTreeClassifier"
  | DecisionTreeRegressor _ _ _ => "DecisionTreeRegressor"
  | RandomForestClassifier _ _ _ => "RandomForestClassifier"
  | RandomForestRegressor _ _ _ => "RandomForestRegressor"
  | SVC _ _ _ => "SVC"
  | SVR _ _ => "SVR"
  | KNeighborsClassifier _ => "KNeighborsClassifier"
  | KNeighborsRegressor _ => "KNeighborsRegressor"
  | MLPClassifier _ _ _ => "MLPClassifier"
  | MLPRegressor _ _ _ => "MLPRegressor"
  end.

(** scikit-learn's [NotFittedError], a [ValueError]: the sample library
    raises it for every estimator that is not fitted. *)
Definition not_fitted (est : estimator) : exn :=
  ValueError ("This " +:+ class_name est
              +:+ " instance is not fitted yet. Call 'fit' with appropriate arguments before using this estimator.").

Definition lib : library :=
  {| Lib.np_sqrt := sqrt;
     Lib.rng_permutation := λ _ n, reverse (seq 0 n);
     Lib.stratified_shuffle := λ _ _ n_train n_test,
       (seq n_test n_train, seq 0 n_test);
     Lib.fit_classifier := λ _ _ ys,
       Ok (constant_model (default 0 (most_frequent Z.le ys)));
     Lib.fit_regressor := λ _ _ y, Ok (constant_model (mean (observed y)));
     Lib.predict_unfitted := λ est _, not_fitted est;
     Lib.precision_score := λ y_true y_pred _, Metrics.accuracy_score y_true y_pred;
     Lib.recall_score := λ y_true y_pred _, Metrics.accuracy_score y_true y_pred;
     Lib.f1_score := λ y_true y_pred _, Metrics.accuracy_score y_true y_pred |}.

Definition floats (zs : list Z) : series := FloatSeries (map (λ z, Some (Zf z)) zs).

Definition ten : list Z := [1; 2; 3; 4; 5; 6; 7; 8; 9; 10].

(** Ten rows, two well-named columns, nothing missing. *)
Definition well_formed : DataFrame :=
  {| index_len := 10;
     columns := [("x", floats ten); ("y", IntSeries [0; 1; 0; 1; 0; 1; 0; 1; 0; 1])] |}.

(** Ten rows under a repeated header. *)
Definition duplicate_header : DataFrame :=
  {| index_len := 10;
     columns := [("x", floats ten); ("x", IntSeries [0; 1; 0; 1; 0; 1; 0; 1; 0; 1])] |}.

(** Ten rows, the second column without a single value. *)
Definition empty_column : DataFrame :=
  {| index_len := 10;
     columns := [("x", floats ten); ("y", FloatSeries (replicate 10 None))] |}.

(** Ten rows, the second column under the header pandas invents. *)
Definition unnamed_header : DataFrame :=
  {| index_len := 10;
     columns := [("x", floats ten); ("Unnamed: 1", floats ten)] |}.

(** A frame without rows, and one with a single row. *)
Definition no_rows : DataFrame :=
  {| index_len := 0; columns := [("x", FloatSeries [])] |}.

Definition one_row : DataFrame :=
  {| index_len := 1; columns := [("x", FloatSeries [Some (Zf 1)])] |}.


(** Ten rows whose target [y] is the same everywhere. *)
Definition constant_target : DataFrame :=
  {| index_len := 10;
     columns := [("x", floats ten); ("y", IntSeries (replicate 10 0))] |}.

(** Ten rows with gaps in a numeric and in a text feature, and a text
    target. *)
Definition with_gaps : DataFrame :=
  {| index_len := 10;
     columns :=
       [("age", FloatSeries [Some (Zf 20); None; Some (Zf 40); Some (Zf 30); None;
                             Some (Zf 50); Some (Zf 20); Some (Zf 60); None; Some (Zf 30)]);
        ("city", ObjectSeries [Some "Rome"; Some "Oslo"; None; Some "Rome"; Some "Oslo";
                               Some "Rome"; None; Some "Lima"; Some "Rome"; Some "Oslo"]);
        ("label", ObjectSeries [Some "yes"; Some "no"; Some "yes"; Some "no"; Some "yes";
                                Some "no"; Some "yes"; Some "no"; Some "yes"; Some "no"])] |}.

Definition config_all : MLPipeline.config :=
  {| MLPipeline.handle_missing := Some true;
     MLPipeline.missing_strategy := Some "mean";
     MLPipeline.encode_categories := Some true;
     MLPipeline.standardization := Some false;
     MLPipeline.normalization := Some true |}.

Definition config_impute_only : MLPipeline.config :=
  {| MLPipeline.handle_missing := Some true;
     MLPipeline.missing_strategy := Some "median";
     MLPipeline.encode_categories := None;
     MLPipeline.standardization := None;
     MLPipeline.normalization := None |}.

(** Both scalers asked for at once. *)
Definition config_standardize : MLPipeline.config :=
  {| MLPipeline.handle_missing := Some true;
     MLPipeline.missing_strategy := Some "mean";
     MLPipeline.encode_categories := Some true;
     MLPipeline.standardization := Some true;
     MLPipeline.normalization := Some true |}.

(** A pipeline fresh from the upload route, its frame at address 0. *)
Definition uploaded (df : DataFrame) : MLPipeline.world :=
  {| MLPipeline.heap := [df];
     MLPipeline.self := MLPipeline.set_original_df 0 MLPipeline.__init__ |}.

Definition server_with (df : DataFrame) : App.server :=
  {| App.heap := [df];
     App.pipelines := {[ "session_0" := MLPipeline.set_original_df 0 MLPipeline.__init__ ]} |}.

Definition train_request (features : list string) (target : string) (kind : string)
  : App.request :=
  {| App.session_id := Some "session_0";
     App.input_features := Some features;
     App.target_variable := Some target;
     App.model_type := Some kind;
     App.preprocessing := Some config_all;
     App.split_ratio := Some (Zf 70);
     App.hyperparameters := None |}.

(** The sample library with a linear regressor: the constant model, with
    a coefficient of -2 for every feature. *)
Definition lib_linear : library :=
  {| Lib.np_sqrt := Lib.np_sqrt lib;
     Lib.rng_permutation := Lib.rng_permutation lib;
     Lib.stratified_shuffle := Lib.stratified_shuffle lib;
     Lib.fit_classifier := Lib.fit_classifier lib;
     Lib.fit_regressor := λ _ X y,
       Ok {| predict := λ X, Ok (replicate (index_len X) (mean (observed y)));
             feature_importances_ := None;
             coef_ := Some (Coef1D (map (λ _, Zf (-2)) (columns X))) |};
     Lib.predict_unfitted := Lib.predict_unfitted lib;
     Lib.precision_score := Lib.precision_score lib;
     Lib.recall_score := Lib.recall_score lib;
     Lib.f1_score := Lib.f1_score lib |}.


(** A pipeline whose data has been split. *)
Definition split_world (y_train y_test : target) : MLPipeline.world :=
  {| MLPipeline.heap := [];
     MLPipeline.self :=
       MLPipeline.set_train_test
         {| MLPipeline.X_train := {| index_len := target_len y_train;
                                     columns := [("x", floats (seqZ 0 (Z.of_nat (target_len y_train))))] |};
            MLPipeline.X_test := {| index_len := target_len y_test;
                                    columns := [("x", floats (seqZ 0 (Z.of_nat (target_len y_test))))] |};
            MLPipeline.y_train := y_train;
            MLPipeline.y_test := y_test |}
         MLPipeline.__init__ |}.

(** A pipeline with the names of a selection and a split float target. *)
Definition regression_world : MLPipeline.world :=
  {| MLPipeline.heap := [];
     MLPipeline.self :=
       MLPipeline.set_names ["x"] "y"
         (MLPipeline.self
            (split_world (FloatTarget [Some (Zf 1); Some (Zf 2); Some (Zf 3); Some (Zf 10)])
                         (FloatTarget [Some (Zf 2); Some (Zf 4)]))) |}.

(** A stand-in for pandas: an uploaded file holds the name of one of the
    frames above, any other content does not parse; [value_counts] lists the
    values by falling count. *)
Definition named (content : string) : result DataFrame :=
  if decide (content = "well_formed") then Ok well_formed
  else if decide (content = "with_gaps") then Ok with_gaps
  else if decide (content = "duplicate_header") then Ok duplicate_header
  else if decide (content = "one_row") then Ok one_row
  else Raise (ValueError "No columns to parse from file").

Definition falling_count (a b : string * nat) : Prop := (b.2 ≤ a.2)%nat.

#[global] Instance falling_count_dec : RelDecision falling_count.
Proof. intros a b. unfold falling_count. apply _. Defined.

Definition pd : Pandas.library :=
  {| Pandas.read_csv := named;
     Pandas.read_excel := named;
     Pandas.value_counts := λ xs,
       merge_sort falling_count
                  (map (λ v, (v, occurrences v xs)) (remove_dups xs));
     Pandas.mean := mean;
     Pandas.jsonify_error := λ _, None |}.

(** The same, with a [jsonify] that fails on every response, as on a sheet
    whose headers mix numbers and texts. *)
Definition pd_mixed_keys : Pandas.library :=
  {| Pandas.read_csv := named;
     Pandas.read_excel := named;
     Pandas.value_counts := Pandas.value_counts pd;
     Pandas.mean := Pandas.mean pd;
     Pandas.jsonify_error := λ _,
       Some (TypeError "'<' not supported between instances of 'int' and 'str'") |}.

End Sample.

(* ===================================================================== *)
(** * Vocabulary of the properties                                         *)
(* ===================================================================== *)

Section vocabulary.
Import MLPipeline.
Context (lib : library).

(** The verdict's first component. *)
Definition accepted (v : Validation.verdict) : bool := v.1.1.

(** [keeps n m]: the method [m] leaves the first [n] frames of the heap as
    they are, and [self.original_df] with them. *)
Definition keeps {A} (n : nat) (m : M A) : Prop :=
  ∀ w r w', (n ≤ length (heap w))%nat → m w = (r, w') →
    (n ≤ length (heap w'))%nat
    ∧ (∀ l, (l < n)%nat → heap w' !! l = heap w !! l)
    ∧ original_df (self w') = original_df (self w).

(** The stages of [preprocess_data] after its prologue. *)
Definition impute_stage (X : loc) (X_columns : list string) (config : config) : M unit :=
  if default false (handle_missing config) then
    for_each X_columns (impute_column X (default "mean" (missing_strategy config)))
  else ret ().

Definition encode_stage (X : loc) (X_columns : list string) (config : config) : M unit :=
  if default false (encode_categories config) then
    for_each X_columns (encode_column X)
  else ret ().

Definition scale_stage (X : loc) (config : config) : M loc :=
  if default false (standardization config) then
    scale X (StandardScaler None) (standard_fit_transform lib)
  else if default false (normalization config) then
    scale X (MinMaxScaler None) minmax_fit_transform
  else ret X.

(** The world after the prologue: the copy of the input, the selected
    columns and their copy [X] are the three newest frames. *)
Definition after_prologue (w : world) (df : loc) (selected : DataFrame)
    (input_features : list string) (target_variable : string) : world :=
  {| heap := heap w ++ [heap w !!! df; selected; selected];
     self := set_names input_features target_variable (self w) |}.

(** A frame without a missing value. *)
Definition no_missing (fr : DataFrame) : Prop :=
  ∀ c s, (c, s) ∈ columns fr → isna_sum s = 0%nat.

(** What the imputation loop makes of a column: a column with a missing
    value goes through the imputer, a numeric one with the configured
    strategy, any other with [most_frequent]. *)
Definition imputed (strategy : string) (s : series) : result series :=
  if isna_any s then
    if is_numeric_dtype s then simple_imputer strategy s
    else simple_imputer "most_frequent" s
  else Ok s.

(** [X[col] = values] on the frame [fr] at [X]. *)
Definition with_column (fr : DataFrame) (col : string) (values : series) : DataFrame :=
  {| index_len := index_len fr;
     columns := map (λ p, if decide (p.1 = col) then (col, values) else p) (columns fr) |}.

Definition with_frame (w : world) (X : loc) (fr : DataFrame) : world :=
  {| heap := <[X := fr]> (heap w); self := self w |}.

(** The model types the chain of [if]/[elif] in [train_model] knows. *)
Definition recognized : list string :=
  ["logistic"; "linear"; "decision_tree"; "random_forest"; "svm"; "knn";
   "neural_network"].

(** The problem type [train_model] derives from the train partition. *)
Definition is_classification (sp : split) : bool :=
  (n_unique (y_train sp) <? 50)%nat && negb (is_floating (y_train sp)).

(** The target has more than one distinct class. *)
Definition more_than_one_class (y : target) : Prop :=
  match y with
  | IntTarget ys => ∃ a b, a ∈ ys ∧ b ∈ ys ∧ a ≠ b
  | FloatTarget ys => ∃ a b, a ∈ ys ∧ b ∈ ys ∧ a ≠ b
  end.

(** Every class of the target has at least [k] samples. *)
Definition every_class_has (k : nat) (y : target) : Prop :=
  match y with
  | IntTarget ys => ∀ c, c ∈ ys → (k ≤ occurrences c ys)%nat
  | FloatTarget ys => ∀ c, c ∈ ys → (k ≤ occurrences c ys)%nat
  end.

(** The error of [class_counts.min()] on no counts. *)
Definition empty_minimum : exn :=
  ValueError "zero-size array to reduction operation minimum which has no identity".



End vocabulary.

(** What the encoding loop makes of a column: a column of texts becomes
    the codes of a label encoder fitted on it, any other column stays. *)
Definition encoded (s : series) : series :=
  match s with
  | ObjectSeries xs => IntSeries (label_encode (astype_str xs))
  | _ => s
  end.

(** A feature column as it reaches the encoding loop. *)
Definition prepared (config : MLPipeline.config) (s : series) : result series :=
  if default false (MLPipeline.handle_missing config) then
    imputed (default "mean" (MLPipeline.missing_strategy config)) s
  else Ok s.

(** The pipeline up to its label encoders. *)
Definition same_but_encoders (p p' : MLPipeline.pipeline) : Prop :=
  MLPipeline.scaler p' = MLPipeline.scaler p
  ∧ MLPipeline.feature_names p' = MLPipeline.feature_names p
  ∧ MLPipeline.target_name p' = MLPipeline.target_name p
  ∧ MLPipeline.model p' = MLPipeline.model p
  ∧ MLPipeline.train_test p' = MLPipeline.train_test p
  ∧ MLPipeline.y_test_pred p' = MLPipeline.y_test_pred p
  ∧ MLPipeline.y_test_actual p' = MLPipeline.y_test_actual p
  ∧ MLPipeline.original_df p' = MLPipeline.original_df p.

(** The keys of [hyperparameters] that [train_model] looks up for a model
    type. *)
Definition hyperparameters_read (model_type : string) : list string :=
  if decide (model_type = "logistic" ∨ model_type = "linear") then ["max_iter"]
  else if decide (model_type = "decision_tree") then ["max_depth"; "min_samples_split"]
  else if decide (model_type = "random_forest") then ["n_estimators"; "max_depth"]
  else if decide (model_type = "svm") then ["C"; "kernel"]
  else if decide (model_type = "knn") then ["n_neighbors"]
  else if decide (model_type = "neural_network") then ["hidden_layer_sizes"; "max_iter"]
  else [].

(** The sum of the diagonal of a matrix, and the sum of its entries. *)
Definition trace (m : list (list nat)) : nat :=
  sum_list (imap (λ i row, default 0%nat (row !! i)) m).

Definition total (m : list (list nat)) : nat := sum_list (map sum_list m).

(** [names_kept m]: the method [m] leaves [self.feature_names] and
    [self.target_name] as they are, however it ends. *)
Definition names_kept {A} (m : MLPipeline.M A) : Prop :=
  ∀ w r w', m w = (r, w') →
    MLPipeline.feature_names (MLPipeline.self w')
    = MLPipeline.feature_names (MLPipeline.self w)
    ∧ MLPipeline.target_name (MLPipeline.self w')
      = MLPipeline.target_name (MLPipeline.self w).

(** A request to the service, by route. *)
Inductive call :=
| Health
| Upload (files : option App.Upload.file)
| Train (data : App.request)
| Predict (data : App.Predict.request).

(** The status a call is answered with, and the state it leaves. *)
Definition handle (lib : library) (pd : Pandas.library) (c : call) (srv : App.server)
  : nat * App.server :=
  match c with
  | Health => (App.health_check.2, srv)
  | Upload files => ((App.upload_dataset pd files srv).1.2, (App.upload_dataset pd files srv).2)
  | Train data => ((App.train_model lib data srv).1.2, (App.train_model lib data srv).2)
  | Predict data => ((App.predict lib data srv).1.2, (App.predict lib data srv).2)
  end.

(** The state of the service after a sequence of calls, one at a time. *)
Definition serve (lib : library) (pd : Pandas.library) (calls : list call) : App.server :=
  foldl (λ srv c, (handle lib pd c srv).2) App.initial calls.

(** The identifiers of the sessions are [session_0], [session_1], ... up
    to the number of sessions. *)
Definition sessions_numbered (srv : App.server) : Prop :=
  ∀ sid, is_Some (App.pipelines srv !! sid)
         ↔ ∃ i, (i < size (App.pipelines srv))%nat ∧ sid = "session_" +:+ str_nat i.

(** Every session points to a frame in memory that passed the upload. *)
Definition sessions_valid (srv : App.server) : Prop :=
  ∀ sid p, App.pipelines srv !! sid = Some p →
    ∃ l df, MLPipeline.original_df p = Some l
            ∧ App.heap srv !! l = Some df
            ∧ (10 ≤ index_len df)%nat
            ∧ (2 ≤ length (columns df))%nat
            ∧ NoDup (labels df).

(** What [json] writes without help: [None], the scalars of Python, and
    lists, tuples and dictionaries of such values. *)
Fixpoint json_native (obj : Json.pyobj) : bool :=
  match obj with
  | Json.PyNone | Json.Py _ => true
  | Json.PyDict items => forallb (λ kv, json_native kv.2) items
  | Json.PyList items | Json.PyTuple items => forallb json_native items
  | _ => false
  end.

(** The values [safe_convert_to_serializable] reaches: numpy integers and
    floats, arrays and Series, at any depth of lists and of the values of
    dictionaries.  It does not look into a tuple, and it leaves a numpy
    boolean as it is. *)
Fixpoint convertible (obj : Json.pyobj) : bool :=
  match obj with
  | Json.PyNone | Json.Py _ | Json.NpInteger _ | Json.NpFloating _
  | Json.NdArray _ | Json.PdSeries _ => true
  | Json.NpBool _ => false
  | Json.PyDict items => forallb (λ kv, convertible kv.2) items
  | Json.PyList items => forallb convertible items
  | Json.PyTuple items => forallb json_native items
  end.

(** The loop of [get_column_info], from the dictionary [acc] on. *)
Definition info_loop (pd : Pandas.library) (df : DataFrame)
    (acc : result (gmap string Info.t)) (l : list string)
  : result (gmap string Info.t) :=
  foldl (λ column_info col,
           try column_info ← column_info;
           match getitem df col with
           | [s] => Ok (<[col := column_entry pd df s]> column_info)
           | [] => Raise (KeyError col)
           | _ => Raise Validation.ambiguous
           end) acc l.

(* ===================================================================== *)
(** * Properties of the validators                                         *)
(* ===================================================================== *)

Lemma max_labelled_in best l : max_labelled best l ∈ best :: l.
Proof.
  revert best. induction l as [|[c v] l IH]; intros best; simpl.
  - set_solver.
  - case_decide.
    + pose proof (IH (c, v)). set_solver.
    + pose proof (IH best). set_solver.
Qed.

Lemma max_labelled_ge_best best l : (best.2 ≤ (max_labelled best l).2)%Qc.
Proof.
  revert best. induction l as [|[c v] l IH]; intros best; simpl.
  - apply Qcle_refl.
  - case_decide as Hlt.
    + eapply Qcle_trans; [apply Qclt_le_weak, Hlt | apply (IH (c, v))].
    + apply IH.
Qed.

Lemma max_labelled_ge best l p : p ∈ l → (p.2 ≤ (max_labelled best l).2)%Qc.
Proof.
  revert best. induction l as [|[c v] l IH]; intros best Hin; simpl.
  - by apply elem_of_nil in Hin.
  - apply elem_of_cons in Hin as [->|Hin]; simpl.
    + case_decide as Hlt.
      * apply (max_labelled_ge_best (c, v)).
      * eapply Qcle_trans; [|apply max_labelled_ge_best].
        by apply Qcnot_lt_le.
    + case_decide; by apply IH.
Qed.

(** The worst column carries the largest share of missing values. *)
Lemma worst_column_ge df c s :
  (c, s) ∈ columns df → (missing_pct df s ≤ (Validation.worst_column df).2)%Qc.
Proof.
  intros Hin. unfold Validation.worst_column, Validation.missing_pcts.
  destruct (columns df) as [|p l] eqn:Hcols; [by apply elem_of_nil in Hin|].
  simpl. apply elem_of_cons in Hin as [<-|Hin].
  - apply (max_labelled_ge_best (c, missing_pct df s)).
  - apply (max_labelled_ge _ _ (c, missing_pct df s)).
    apply (list_elem_of_fmap_2 (λ p, (p.1, missing_pct df p.2)) _ (c, s)), Hin.
Qed.

Lemma worst_column_in df :
  columns df ≠ [] →
  ∃ s, ((Validation.worst_column df).1, s) ∈ columns df
       ∧ (Validation.worst_column df).2 = missing_pct df s.
Proof.
  intros Hne. unfold Validation.worst_column, Validation.missing_pcts.
  destruct (columns df) as [|p l]; [done|]. simpl.
  pose proof (max_labelled_in (p.1, missing_pct df p.2)
                (map (λ p, (p.1, missing_pct df p.2)) l)) as Hin.
  change ((p.1, missing_pct df p.2) :: map (λ p, (p.1, missing_pct df p.2)) l)
    with (map (λ p, (p.1, missing_pct df p.2)) (p :: l)) in Hin.
  apply list_elem_of_fmap in Hin as ([c s] & Heq & Hin).
  exists s. rewrite Heq. simpl. split; [exact Hin|done].
Qed.

Lemma duplicated_labels_nil seen l :
  duplicated_labels seen l = [] ↔ NoDup l ∧ ∀ c, c ∈ l → c ∉ seen.
Proof.
  revert seen. induction l as [|c l IH]; intros seen; simpl.
  - split; [intros _; split; [constructor|set_solver]|done].
  - case_decide as Hseen.
    + split; [done|]. intros [_ Hfresh]. exfalso. eapply Hfresh; [|done]. set_solver.
    + rewrite IH. split.
      * intros [Hnd Hfresh]. split.
        -- constructor; [|done]. intros Hin. apply (Hfresh c Hin). set_solver.
        -- intros c' [->|Hin]%elem_of_cons; [done|].
           intros Hc'. apply (Hfresh c' Hin). set_solver.
      * intros [Hnd Hfresh]. apply NoDup_cons in Hnd as [Hnotin Hnd]. split; [done|].
        intros c' Hin [->|Hc']%elem_of_cons; [done|].
        apply (Hfresh c'); [set_solver|done].
Qed.

(** What the validator of [utils.py] checks: the two sizes, nothing else. *)
Lemma utils_validate_dataset_accepts df :
  (Utils.validate_dataset df).1 = true
  ↔ (10 ≤ index_len df)%nat ∧ (2 ≤ length (columns df))%nat.
Proof.
  unfold Utils.validate_dataset, df_empty.
  destruct (index_len df =? 0)%nat eqn:H0; simpl.
  { apply Nat.eqb_eq in H0. split; [done|lia]. }
  destruct (length (columns df) =? 0)%nat eqn:H1; simpl.
  { apply Nat.eqb_eq in H1. split; [done|lia]. }
  destruct (index_len df <? 10)%nat eqn:H2; simpl.
  { apply Nat.ltb_lt in H2. split; [done|lia]. }
  apply Nat.ltb_ge in H2.
  destruct (length (columns df) <? 2)%nat eqn:H3; simpl.
  { apply Nat.ltb_lt in H3. split; [done|lia]. }
  apply Nat.ltb_ge in H3. done.
Qed.

Lemma natf_nonzero n : n ≠ 0%nat → natf n ≠ Zf 0.
Proof.
  intros Hn Heq. apply Q2Qc_eq_iff in Heq.
  unfold Qeq in Heq. simpl in Heq. lia.
Qed.

(** A column without a single value is missing to 100%. *)
Lemma missing_pct_all df s :
  index_len df ≠ 0%nat → isna_sum s = index_len df → missing_pct df s = Zf 100.
Proof.
  intros Hn Hs. unfold missing_pct. rewrite Hs.
  unfold Qcdiv. rewrite Qcmult_inv_r by by apply natf_nonzero.
  apply Qcmult_1_l.
Qed.

(** What the validator of [validation.py] checks on a frame whose columns
    have one value per row. *)
Lemma validation_validate_dataset_accepts df :
  frame_wf df →
  accepted (Validation.validate_dataset df) = true
  ↔ (10 ≤ index_len df)%nat
    ∧ (2 ≤ length (columns df))%nat
    ∧ (∀ c s, (c, s) ∈ columns df → (missing_pct df s ≤ Zf 90)%Qc)
    ∧ NoDup (labels df)
    ∧ (∀ c, c ∈ labels df → contains "Unnamed" c = false).
Proof.
  intros Hwf. unfold Validation.validate_dataset, df_empty, accepted.
  destruct (index_len df =? 0)%nat eqn:H0; simpl.
  { apply Nat.eqb_eq in H0. split; [done|lia]. }
  destruct (length (columns df) =? 0)%nat eqn:H1; simpl.
  { apply Nat.eqb_eq in H1. split; [done|lia]. }
  apply Nat.eqb_neq in H0, H1.
  destruct (index_len df <? 10)%nat eqn:H2; simpl.
  { apply Nat.ltb_lt in H2. split; [done|lia]. }
  apply Nat.ltb_ge in H2.
  assert (columns df ≠ []) as Hne by (by destruct (columns df)).
  destruct (forallb _ (columns df)) eqn:Hall; simpl.
  { split; [done|]. intros (_ & _ & Hpct & _). exfalso.
    destruct (columns df) as [|[c s] l] eqn:Hcols; [done|].
    simpl in Hall. apply andb_prop in Hall as [Hs _].
    specialize (Hpct c s ltac:(set_solver)).
    apply Nat.eqb_eq in Hs. rewrite (Hwf c s) in Hs by (rewrite Hcols; set_solver).
    rewrite missing_pct_all in Hpct by done. by vm_compute in Hpct. }
  case_bool_decide as Hworst; simpl.
  { split; [done|]. intros (_ & _ & Hpct & _). exfalso.
    destruct (worst_column_in df Hne) as (s & Hin & Heq).
    specialize (Hpct _ _ Hin). rewrite Heq in Hworst.
    by apply Qcle_not_lt in Hpct. }
  destruct (length (columns df) <? 2)%nat eqn:H3; simpl.
  { apply Nat.ltb_lt in H3. split; [done|lia]. }
  apply Nat.ltb_ge in H3.
  destruct (duplicated_labels [] (labels df)) as [|d ds] eqn:Hdup; simpl.
  2:{ split; [done|]. intros (_ & _ & _ & Hnd & _). exfalso.
      assert (duplicated_labels [] (labels df) = []) as Hnil
        by (apply duplicated_labels_nil; split; [done|set_solver]).
      by rewrite Hnil in Hdup. }
  apply duplicated_labels_nil in Hdup as [Hnd _].
  destruct (filter _ (labels df)) as [|u us] eqn:Hun; simpl.
  2:{ split; [done|]. intros (_ & _ & _ & _ & Hnone). exfalso.
      assert (u ∈ filter (λ col, contains "Unnamed" col = true) (labels df)) as Hu
        by (rewrite Hun; set_solver).
      apply list_elem_of_filter in Hu as [Hu Hin]. rewrite (Hnone u Hin) in Hu. done. }
  split; [|done]. intros _. repeat split; try done.
  - intros c s Hin. apply Qcnot_lt_le. intros Hlt. apply Hworst.
    eapply Qclt_le_trans; [exact Hlt|by eapply worst_column_ge].
  - intros c Hin. destruct (contains "Unnamed" c) eqn:Hc; [|done].
    assert (c ∈ filter (λ col, contains "Unnamed" col = true) (labels df)) as Hf
      by (by apply list_elem_of_filter).
    rewrite Hun in Hf. by apply elem_of_nil in Hf.
Qed.

(** The five defects of the claim, each refused by [validation.py]. *)
Lemma validation_validate_dataset_rejects df :
  frame_wf df →
  (index_len df < 10)%nat
  ∨ (length (columns df) < 2)%nat
  ∨ (∃ c s, (c, s) ∈ columns df ∧ (Zf 90 < missing_pct df s)%Qc)
  ∨ (¬ NoDup (labels df))
  ∨ (∃ c, c ∈ labels df ∧ contains "Unnamed" c = true) →
  accepted (Validation.validate_dataset df) = false.
Proof.
  intros Hwf Hbad. apply not_true_is_false. intros Hacc.
  apply validation_validate_dataset_accepts in Hacc as (Hrows & Hcols & Hpct & Hnd & Hun);
    [|done].
  destruct Hbad as [?|[?|[(c & s & Hin & Hlt)|[?|(c & Hin & Hc)]]]]; try lia; try done.
  - apply Qclt_not_le in Hlt. apply Hlt. by eapply Hpct.
  - rewrite (Hun c Hin) in Hc. done.
Qed.

(** What the selection check of [utils.py] looks at: the names, never the
    values of the target. *)
Lemma utils_validate_selection_accepts df input_features target_variable :
  (Utils.validate_feature_target_selection df input_features target_variable).1 = true
  ↔ target_variable ∈ labels df
    ∧ (∀ f, f ∈ input_features → f ∈ labels df)
    ∧ (target_variable ∉ input_features)
    ∧ input_features ≠ [].
Proof.
  unfold Utils.validate_feature_target_selection, has_column, Utils.first_missing.
  case_bool_decide as Htgt; simpl; [|split; [done|tauto]].
  destruct (filter _ input_features) as [|m ms] eqn:Hmiss; simpl.
  2:{ split; [done|]. intros (_ & Hall & _). exfalso.
      assert (m ∈ filter (λ f, f ∉ labels df) input_features) as Hm
        by (rewrite Hmiss; left).
      apply list_elem_of_filter in Hm as [Hm Hin]. by apply Hm, Hall. }
  assert (∀ f, f ∈ input_features → f ∈ labels df) as Hall.
  { intros f Hin. destruct (decide (f ∈ labels df)) as [|Hno]; [done|].
    assert (f ∈ filter (λ f, f ∉ labels df) input_features) as Hf
      by (by apply list_elem_of_filter).
    rewrite Hmiss in Hf. by apply elem_of_nil in Hf. }
  case_bool_decide as Hoverlap; simpl; [split; [done|tauto]|].
  destruct input_features as [|f fs]; simpl; [split; [done|tauto]|].
  split; [|done]. intros _. done.
Qed.

(** Every refusal of [validate_feature_selection] comes with advice, and a
    target with one distinct value is refused. *)
Lemma validation_rejects_constant_target df input_features target_variable s :
  getitem df target_variable = [s] →
  nunique s = 1%nat →
  ∃ msg suggestion,
    Validation.validate_feature_selection df input_features target_variable
      = Ok (false, Some msg, Some suggestion)
    ∧ suggestion ≠ "".
Proof.
  intros Hget Huniq. unfold Validation.validate_feature_selection, Validation.invalid.
  destruct (filter _ input_features); [|by eexists _, _].
  destruct (negb _); [by eexists _, _|].
  case_bool_decide; [by eexists _, _|].
  destruct (length input_features =? 0)%nat; [by eexists _, _|].
  unfold Validation.column_nunique. rewrite Hget, Huniq. simpl.
  by eexists _, _.
Qed.

(** C1 (the code departs from the claim).  The upload route calls
    [validate_dataset] of [utils.py]: it accepts ten rows under a repeated
    header, with a column that holds no value at all, and under a header
    pandas made up, which the validator of [validation.py] (written for the
    same purpose, imported by nothing) refuses one by one.  Both accept the
    well-formed frame of ten rows and two columns. *)
Theorem service_validator_misses_checks :
  Utils.validate_dataset Sample.duplicate_header = (true, "")
  ∧ Utils.validate_dataset Sample.empty_column = (true, "")
  ∧ Utils.validate_dataset Sample.unnamed_header = (true, "")
  ∧ Validation.validate_dataset Sample.duplicate_header
    = Validation.invalid "Duplicate column names found: x"
        "Please rename duplicate columns in your CSV file"
  ∧ Validation.validate_dataset Sample.empty_column
    = Validation.invalid "Column 'y' has 100.0% missing values"
        "Consider removing columns with too many missing values or use imputation"
  ∧ Validation.validate_dataset Sample.unnamed_header
    = Validation.invalid "Found unnamed columns: Unnamed: 1"
        "Please add column headers to your CSV file"
  ∧ Utils.validate_dataset Sample.well_formed = (true, "")
  ∧ Validation.validate_dataset Sample.well_formed = Validation.valid.
Proof. repeat split; by vm_compute. Qed.

(** C2 (the code departs from the claim).  The training route calls
    [validate_feature_target_selection] of [utils.py], which answers no
    suggestion and never looks at the values of the target: a target with
    one distinct value passes, and the route goes on to preprocess, split
    and fit (status 200 with the sample library).  The check the claim
    describes is [validate_feature_selection] of [validation.py], which the
    route does not call. *)
Theorem constant_target_reaches_training :
  Utils.validate_feature_target_selection Sample.constant_target ["x"] "y" = (true, "")
  ∧ Validation.validate_feature_selection Sample.constant_target ["x"] "y"
    = Ok (Validation.invalid "Target variable 'y' has only one unique value"
            "Target must have at least 2 different values for classification or range of values for regression")
  ∧ (App.train_model Sample.lib (Sample.train_request ["x"] "y" "decision_tree")
       (Sample.server_with Sample.constant_target)).1.2 = 200%nat.
Proof. repeat split; by vm_compute. Qed.
(* ===================================================================== *)
(** * Properties of the pipeline state                                     *)
(* ===================================================================== *)

Section state.
Import MLPipeline.

Lemma bind_inv {A B} (m : M A) (k : A → M B) w r w' :
  bind m k w = (r, w') →
  (∃ e, m w = (Raise e, w') ∧ r = Raise e)
  ∨ (∃ a w1, m w = (Ok a, w1) ∧ k a w1 = (r, w')).
Proof.
  unfold bind. destruct (m w) as [[a|e] w1]; intros H.
  - right. by exists a, w1.
  - left. exists e. by inversion H.
Qed.

Lemma bind_ok {A B} (m : M A) (k : A → M B) w b w' :
  bind m k w = (Ok b, w') → ∃ a w1, m w = (Ok a, w1) ∧ k a w1 = (Ok b, w').
Proof.
  intros [(e & _ & ?)|H]%bind_inv; [done|exact H].
Qed.

Lemma keeps_ret {A} n (a : A) : keeps n (ret a).
Proof. intros w r w' Hn [= <- <-]. done. Qed.

Lemma keeps_raise {A} n e : keeps n (raise (A:=A) e).
Proof. intros w r w' Hn [= <- <-]. done. Qed.

Lemma keeps_lift {A} n (x : result A) : keeps n (lift x).
Proof. intros w r w' Hn [= <- <-]. done. Qed.

Lemma keeps_get_self n : keeps n get_self.
Proof. intros w r w' Hn [= <- <-]. done. Qed.

Lemma keeps_deref n l : keeps n (deref l).
Proof. intros w r w' Hn [= <- <-]. done. Qed.

Lemma keeps_update_self n f :
  (∀ p, original_df (f p) = original_df p) → keeps n (update_self f).
Proof. intros Hf w r w' Hn [= <- <-]. simpl. done. Qed.

Lemma keeps_store n l df : (n ≤ l)%nat → keeps n (store l df).
Proof.
  intros Hl w r w' Hn [= <- <-]. simpl. rewrite length_insert.
  split; [done|]. split; [|done].
  intros l' Hl'. apply list_lookup_insert_ne. lia.
Qed.

Lemma keeps_bind {A B} n (m : M A) (k : A → M B) :
  keeps n m → (∀ a, keeps n (k a)) → keeps n (bind m k).
Proof.
  intros Hm Hk w r w' Hn [(e & Hrun & ->)|(a & w1 & Hrun & Hrest)]%bind_inv.
  - by eapply Hm.
  - destruct (Hm _ _ _ Hn Hrun) as (Hn1 & Hheap1 & Hdf1).
    destruct (Hk a _ _ _ Hn1 Hrest) as (Hn2 & Hheap2 & Hdf2).
    split; [done|]. split; [|congruence].
    intros l Hl. rewrite Hheap2, Hheap1 by done. done.
Qed.

(** A frame allocated during the call lies past the first [n]. *)
Lemma keeps_alloc {B} n df (k : loc → M B) :
  (∀ l, (n ≤ l)%nat → keeps n (k l)) → keeps n (bind (alloc df) k).
Proof.
  intros Hk w r w' Hn Hrun. unfold bind, alloc in Hrun.
  eapply (Hk (length (heap w)) Hn) in Hrun as (Hn2 & Hheap2 & Hdf2);
    [|simpl; rewrite length_app; lia].
  split; [done|]. split; [|done].
  intros l Hl. rewrite Hheap2 by done. simpl. apply lookup_app_l. lia.
Qed.

Lemma keeps_copy {B} n l (k : loc → M B) :
  (∀ l, (n ≤ l)%nat → keeps n (k l)) → keeps n (bind (copy l) k).
Proof.
  intros Hk w r w' Hn Hrun. unfold copy in Hrun.
  eapply (keeps_alloc n (heap w !!! l) k Hk w); [done|].
  unfold bind in *. simpl in *. exact Hrun.
Qed.

Lemma keeps_for_each {A} n (xs : list A) body :
  (∀ x, keeps n (body x)) → keeps n (for_each xs body).
Proof.
  intros Hbody. induction xs as [|x xs IH]; simpl.
  - apply keeps_ret.
  - apply keeps_bind; [apply Hbody|]. intros _. exact IH.
Qed.

Lemma keeps_setitem n X col values : (n ≤ X)%nat → keeps n (setitem X col values).
Proof.
  intros HX. unfold setitem. apply keeps_bind; [apply keeps_deref|]. intros df.
  destruct (negb _); [apply keeps_raise|by apply keeps_store].
Qed.

Ltac keeps_step :=
  first
    [ apply keeps_ret | apply keeps_raise | apply keeps_lift | apply keeps_get_self
    | apply keeps_deref
    | apply keeps_update_self; intros []; reflexivity
    | apply keeps_setitem; assumption
    | apply keeps_bind; [|intros ?] ].

Ltac keeps_auto :=
  repeat first
    [ keeps_step
    | match goal with
      | |- keeps _ (match ?x with _ => _ end) => destruct x
      end ].

Context (lib : library).

Lemma keeps_impute_column n X strategy col :
  (n ≤ X)%nat → keeps n (impute_column X strategy col).
Proof.
  intros HX. unfold impute_column. keeps_step; [keeps_step|].
  destruct (getitem _ col) as [|s [|? ?]]; [keeps_step| |keeps_step].
  destruct (isna_any s); [|keeps_step].
  destruct (is_numeric_dtype s); repeat keeps_step.
Qed.

Lemma keeps_encode_column n X col : (n ≤ X)%nat → keeps n (encode_column X col).
Proof.
  intros HX. unfold encode_column. keeps_step; [keeps_step|].
  destruct (getitem _ col) as [|s [|? ?]]; [keeps_step| |keeps_step].
  destruct s; repeat keeps_step.
Qed.

Lemma keeps_encode_target n y target_variable :
  keeps n (encode_target y target_variable).
Proof.
  unfold encode_target.
  destruct y as [|[ys|ys|ys] [|? ?]]; repeat keeps_step.
Qed.

Lemma keeps_scale n X unfitted fit_transform :
  keeps n (scale X unfitted fit_transform).
Proof.
  unfold scale. repeat keeps_step.
  intros w r w' Hn [= <- <-]. simpl. rewrite length_app.
  split; [lia|]. split; [|done]. intros l Hl. apply lookup_app_l. lia.
Qed.

(** [preprocess_data] writes to the copies it makes, and to nothing else. *)
Lemma keeps_preprocess_data n df input_features target_variable config :
  keeps n (preprocess_data lib df input_features target_variable config).
Proof.
  unfold preprocess_data.
  apply keeps_copy. intros df' Hdf'.
  keeps_step; [keeps_step|]. keeps_step; [keeps_step|].
  apply keeps_alloc. intros selected Hsel.
  apply keeps_copy. intros X HX.
  keeps_step. { destruct (getitem _ _); keeps_step. }
  keeps_step; [keeps_step|].
  keeps_step. { repeat keeps_step. }
  keeps_step.
  { destruct (default false _); [|keeps_step].
    apply keeps_for_each. intros col. by apply keeps_impute_column. }
  keeps_step.
  { destruct (default false _); [|keeps_step].
    apply keeps_for_each. intros col. by apply keeps_encode_column. }
  keeps_step; [apply keeps_encode_target|].
  keeps_step; [|keeps_step].
  destruct (default false _); [apply keeps_scale|].
  destruct (default false _); [apply keeps_scale|keeps_step].
Qed.

Lemma keeps_split_data n X y test_size random_state :
  keeps n (split_data lib X y test_size random_state).
Proof.
  unfold split_data. repeat keeps_step.
  match goal with a : (_ * _ * _ * _)%type |- _ => destruct a as [[[? ?] ?] ?] end.
  keeps_step.
Qed.

Lemma keeps_calculate_metrics n y_train_pred y_test_pred is_classification :
  keeps n (_calculate_metrics lib y_train_pred y_test_pred is_classification).
Proof.
  unfold _calculate_metrics. keeps_step; [keeps_step|].
  destruct (train_test _); [|keeps_step].
  keeps_step.
  - keeps_auto.
  - keeps_auto.
Qed.

Lemma keeps_fit_and_predict n est is_classification sp :
  keeps n (fit_and_predict lib est is_classification sp).
Proof.
  unfold fit_and_predict. destruct is_classification.
  - destruct (y_train sp); repeat keeps_step.
  - repeat keeps_step.
Qed.

Lemma keeps_train_model n model_type hyperparameters :
  keeps n (train_model lib model_type hyperparameters).
Proof.
  unfold train_model. keeps_step; [keeps_step|].
  destruct (train_test _); [|keeps_step].
  destruct (make_model _ _ _); [|keeps_step].
  keeps_step; [keeps_step|].
  keeps_step; [apply keeps_fit_and_predict|].
  keeps_step; [keeps_step|].
  keeps_step; [apply keeps_calculate_metrics|keeps_step].
Qed.

Lemma keeps_run_training n df input_features target_variable data model_type :
  keeps n (App.run_training lib df input_features target_variable data model_type).
Proof.
  unfold App.run_training.
  apply keeps_bind; [apply keeps_preprocess_data|]. intros [X y].
  apply keeps_bind; [apply keeps_split_data|]. intros _.
  apply keeps_train_model.
Qed.

(** C10.  Whatever [preprocess_data] is asked and however it ends, a frame
    that existed before the call is the same after it, and so is
    [self.original_df]: the method works on the copy it makes first.  The
    training route therefore leaves the uploaded frame of every session as it
    was, and each pipeline keeps pointing to it, so a session can be trained
    again from the same data. *)
Theorem original_dataset_unchanged (data : App.request) (srv : App.server)
    (l : loc) (frame : DataFrame) :
  App.heap srv !! l = Some frame →
  (∀ df input_features target_variable config p,
     let w := {| heap := App.heap srv; self := p |} in
     let w' := (preprocess_data lib df input_features target_variable config w).2 in
     heap w' !! l = Some frame ∧ original_df (self w') = original_df p)
  ∧ (let srv' := (App.train_model lib data srv).2 in
     App.heap srv' !! l = Some frame
     ∧ ∀ sid p, App.pipelines srv !! sid = Some p →
         ∃ p', App.pipelines srv' !! sid = Some p'
               ∧ original_df p' = original_df p).
Proof.
  intros Hl. pose proof (lookup_lt_Some _ _ _ Hl) as Hlt. split.
  - intros df input_features target_variable config p w w'. subst w'.
    destruct (preprocess_data _ _ _ _ _ w) as [r w'] eqn:Hrun.
    eapply (keeps_preprocess_data (length (App.heap srv))) in Hrun
        as (_ & Hheap & Hdf); [|done].
    simpl. split; [|done]. rewrite Hheap by done. done.
  - unfold App.train_model.
    assert (∀ r : App.response, let srv' := (r, srv).2 in
       App.heap srv' !! l = Some frame
       ∧ ∀ sid p, App.pipelines srv !! sid = Some p →
           ∃ p', App.pipelines srv' !! sid = Some p'
                 ∧ original_df p' = original_df p) as Hsame.
    { intros r. simpl. split; [done|]. intros sid p Hp. by exists p. }
    destruct (App.missing_field data); [apply Hsame|].
    destruct (App.session_id data) as [sid0|]; [|apply Hsame].
    destruct (App.input_features data) as [input_features|]; [|apply Hsame].
    destruct (App.target_variable data) as [target_variable|]; [|apply Hsame].
    destruct (App.model_type data) as [model_type|]; [|apply Hsame].
    destruct (App.pipelines srv !! sid0) as [p0|] eqn:Hp0; [|apply Hsame].
    destruct (original_df p0) as [df|] eqn:Hdf0; [|apply Hsame].
    destruct (Utils.validate_feature_target_selection _ _ _) as [is_valid error_msg].
    destruct (negb is_valid); [apply Hsame|].
    destruct (App.run_training _ _ _ _ _ _ _) as [r w'] eqn:Hrun.
    eapply (keeps_run_training (length (App.heap srv))) in Hrun
        as (_ & Hheap & Hdf); [|done].
    simpl in Hheap, Hdf.
    assert (let srv' := App.commit sid0 w' srv in
       App.heap srv' !! l = Some frame
       ∧ ∀ sid p, App.pipelines srv !! sid = Some p →
           ∃ p', App.pipelines srv' !! sid = Some p'
                 ∧ original_df p' = original_df p) as Hcommit.
    { simpl. split; [by rewrite Hheap|]. intros sid p Hp.
      destruct (decide (sid0 = sid)) as [->|Hne].
      - exists (self w'). rewrite lookup_insert_eq. split; [done|]. congruence.
      - exists p. by rewrite lookup_insert_ne. }
    destruct r; exact Hcommit.
Qed.

End state.

(** The uploaded frame of the sample session survives a training request. *)
Lemma original_dataset_unchanged_witness :
  (∀ df input_features target_variable config p,
     let w := {| MLPipeline.heap := App.heap (Sample.server_with Sample.with_gaps);
                 MLPipeline.self := p |} in
     let w' := (MLPipeline.preprocess_data Sample.lib df input_features
                  target_variable config w).2 in
     MLPipeline.heap w' !! 0%nat = Some Sample.with_gaps
     ∧ MLPipeline.original_df (MLPipeline.self w') = MLPipeline.original_df p)
  ∧ (let srv' := (App.train_model Sample.lib
                    (Sample.train_request ["age"; "city"] "label" "knn")
                    (Sample.server_with Sample.with_gaps)).2 in
     App.heap srv' !! 0%nat = Some Sample.with_gaps
     ∧ ∀ sid p, App.pipelines (Sample.server_with Sample.with_gaps) !! sid = Some p →
         ∃ p', App.pipelines srv' !! sid = Some p'
               ∧ MLPipeline.original_df p' = MLPipeline.original_df p).
Proof.
  exact (original_dataset_unchanged Sample.lib
           (Sample.train_request ["age"; "city"] "label" "knn")
           (Sample.server_with Sample.with_gaps) 0%nat Sample.with_gaps eq_refl).
Defined.
(* ===================================================================== *)
(** * Properties of preprocessing                                          *)
(* ===================================================================== *)

Section preprocessing.
Import MLPipeline.
Context (lib : library).

Lemma lookup_total_snoc {A} `{Inhabited A} (l : list A) x : (l ++ [x]) !!! length l = x.
Proof. apply list_lookup_total_correct. by rewrite lookup_app_r, Nat.sub_diag. Qed.

(** How the primitive steps run. *)
Lemma run_ret {A B} (a : A) (k : A → M B) w : bind (ret a) k w = k a w.
Proof. reflexivity. Qed.

Lemma run_raise {A B} e (k : A → M B) w : bind (raise e) k w = (Raise e, w).
Proof. reflexivity. Qed.

Lemma run_lift_ok {A B} (a : A) (k : A → M B) w : bind (lift (Ok a)) k w = k a w.
Proof. reflexivity. Qed.

Lemma run_lift_raise {A B} e (k : A → M B) w :
  bind (lift (Raise e)) k w = (Raise e, w).
Proof. reflexivity. Qed.

Lemma run_deref {B} l (k : DataFrame → M B) w : bind (deref l) k w = k (heap w !!! l) w.
Proof. reflexivity. Qed.

Lemma run_alloc {B} df (k : loc → M B) w :
  bind (alloc df) k w = k (length (heap w)) {| heap := heap w ++ [df]; self := self w |}.
Proof. reflexivity. Qed.

Lemma run_copy {B} l (k : loc → M B) w :
  bind (copy l) k w
  = k (length (heap w)) {| heap := heap w ++ [heap w !!! l]; self := self w |}.
Proof. reflexivity. Qed.

Lemma run_update_self {B} f (k : () → M B) w :
  bind (update_self f) k w = k () {| heap := heap w; self := f (self w) |}.
Proof. reflexivity. Qed.

Lemma run_get_self {B} (k : pipeline → M B) w : bind get_self k w = k (self w) w.
Proof. reflexivity. Qed.

Lemma bind_assoc {A B C} (m : M A) (k : A → M B) (h : B → M C) w :
  bind (bind m k) h w = bind m (λ a, bind (k a) h) w.
Proof. unfold bind. by destruct (m w) as [[a|e] w1]. Qed.

(** [preprocess_data] as its prologue followed by its four stages. *)
Lemma preprocess_data_unfold df input_features target_variable config w :
  preprocess_data lib df input_features target_variable config w
  = let frame := heap w !!! df in
    let X := S (S (length (heap w))) in
    match select frame input_features with
    | Raise e => (Raise e, {| heap := heap w ++ [frame]; self := self w |})
    | Ok selected =>
        match getitem frame target_variable with
        | [] => (Raise (KeyError ("'" +:+ target_variable +:+ "'")),
                 {| heap := heap w ++ [frame; selected; selected]; self := self w |})
        | y =>
            bind (impute_stage X (labels selected) config) (λ _,
            bind (encode_stage X (labels selected) config) (λ _,
            bind (encode_target y target_variable) (λ y,
            bind (scale_stage lib X config) (λ X, ret (X, y)))))
              (after_prologue w df selected input_features target_variable)
        end
    end.
Proof.
  unfold preprocess_data. cbv zeta.
  rewrite run_copy, run_deref. simpl heap. rewrite lookup_total_snoc.
  destruct (select _ input_features) as [selected|e]; [|by rewrite run_lift_raise].
  rewrite run_lift_ok, run_alloc, run_copy. simpl heap.
  rewrite lookup_total_snoc, <- !app_assoc. simpl app.
  replace (length (heap w ++ [heap w !!! df; selected]))
    with (S (S (length (heap w)))) by (rewrite length_app; simpl; lia).
  replace (length (heap w ++ [heap w !!! df])) with (S (length (heap w)))
    by (rewrite length_app; simpl; lia).
  destruct (getitem _ target_variable) as [|s y] eqn:Hy; [by rewrite run_raise|].
  rewrite run_ret, run_update_self. simpl heap. simpl self.
  rewrite bind_assoc, run_deref, run_ret. simpl heap.
  replace ((heap w ++ [heap w !!! df; selected; selected])
             !!! S (S (length (heap w)))) with selected.
  2:{ symmetry. apply list_lookup_total_correct.
      rewrite lookup_app_r by lia.
      by replace (S (S (length (heap w))) - length (heap w))%nat with 2%nat by lia. }
  reflexivity.
Qed.

Lemma preprocess_data_ok df input_features target_variable config w X y w' :
  preprocess_data lib df input_features target_variable config w = (Ok (X, y), w') →
  ∃ selected w2 w3 w4,
    let X0 := S (S (length (heap w))) in
    select (heap w !!! df) input_features = Ok selected
    ∧ getitem (heap w !!! df) target_variable ≠ []
    ∧ impute_stage X0 (labels selected) config
        (after_prologue w df selected input_features target_variable) = (Ok (), w2)
    ∧ encode_stage X0 (labels selected) config w2 = (Ok (), w3)
    ∧ encode_target (getitem (heap w !!! df) target_variable) target_variable w3
      = (Ok y, w4)
    ∧ scale_stage lib X0 config w4 = (Ok X, w').
Proof.
  rewrite preprocess_data_unfold. cbv zeta.
  destruct (select _ input_features) as [selected|e]; [|done].
  destruct (getitem _ target_variable) as [|s ys] eqn:Hy; [done|].
  intros H.
  apply bind_ok in H as ([] & w2 & Himpute & H).
  apply bind_ok in H as ([] & w3 & Hencode & H).
  apply bind_ok in H as (y' & w4 & Htarget & H).
  apply bind_ok in H as (X' & w5 & Hscale & H).
  injection H as -> -> ->.
  exists selected, w2, w3, w4. done.
Qed.

(** ** Imputation *)

Lemma count_none_fill {A} (v : A) xs : count_none (fill v xs) = 0%nat.
Proof. unfold count_none, fill. induction xs as [|x xs IH]; [done|]. simpl. by rewrite filter_cons_False. Qed.

Lemma impute_numeric_no_missing strategy xs out :
  impute_numeric strategy xs = Ok out → count_none out = 0%nat.
Proof.
  unfold impute_numeric. destruct (numeric_statistic _ _) as [[v|]|]; simpl; [| |done].
  - intros [= <-]. apply count_none_fill.
  - by intros [= <-].
Qed.

Lemma simple_imputer_no_missing strategy s s' :
  simple_imputer strategy s = Ok s' → isna_sum s' = 0%nat.
Proof.
  destruct s as [xs|xs|xs]; simpl.
  - destruct (impute_numeric _ _) as [out|] eqn:Hout; simpl; [|done].
    intros [= <-]. by eapply impute_numeric_no_missing.
  - destruct (impute_numeric _ _) as [out|] eqn:Hout; simpl; [|done].
    intros [= <-]. by eapply impute_numeric_no_missing.
  - repeat case_decide; [| |done].
    + intros [= <-]. simpl. unfold impute_object.
      destruct (most_frequent _ _); [apply count_none_fill|done].
    + intros [= <-]. apply count_none_fill.
Qed.

Lemma isna_any_false s : isna_any s = false ↔ isna_sum s = 0%nat.
Proof.
  unfold isna_any. rewrite negb_false_iff. apply Nat.eqb_eq.
Qed.

Lemma imputed_no_missing strategy s s' : imputed strategy s = Ok s' → isna_sum s' = 0%nat.
Proof.
  unfold imputed. destruct (isna_any s) eqn:Hany.
  - destruct (is_numeric_dtype s); apply simple_imputer_no_missing.
  - intros [= <-]. by apply isna_any_false.
Qed.

Lemma getitem_singleton fr col s p :
  getitem fr col = [s] → p ∈ columns fr → p.1 = col → p = (col, s).
Proof.
  unfold getitem. intros Hget Hin Hp.
  assert (p.2 ∈ (filter (λ p, p.1 = col) (columns fr)).*2) as H2.
  { apply list_elem_of_fmap. exists p. split; [done|]. by apply list_elem_of_filter. }
  rewrite Hget in H2. apply list_elem_of_singleton in H2.
  destruct p as [c s0]. simpl in *. by subst.
Qed.

Lemma with_column_same fr col s : getitem fr col = [s] → with_column fr col s = fr.
Proof.
  intros Hget. unfold with_column. destruct fr as [n cols]. simpl. f_equal.
  rewrite <- (map_id cols) at 2. apply map_ext_in. intros p Hin%list_elem_of_In.
  case_decide as Hp; [|done]. symmetry. by eapply (getitem_singleton _ _ _ _ Hget).
Qed.

Lemma with_frame_same w X fr : heap w !! X = Some fr → with_frame w X fr = w.
Proof.
  intros HX. unfold with_frame. rewrite list_insert_id by done. by destruct w.
Qed.

Lemma setitem_ok X col values w w' fr :
  heap w !! X = Some fr →
  setitem X col values w = (Ok (), w') →
  series_len values = index_len fr ∧ w' = with_frame w X (with_column fr col values).
Proof.
  intros HX. unfold setitem. rewrite run_deref.
  rewrite (list_lookup_total_correct _ _ _ HX).
  destruct (series_len values =? index_len fr)%nat eqn:Hlen; simpl; [|done].
  intros [= <-]. split; [by apply Nat.eqb_eq|done].
Qed.

Lemma impute_column_ok X strategy col w w' fr :
  heap w !! X = Some fr →
  impute_column X strategy col w = (Ok (), w') →
  ∃ s s', getitem fr col = [s]
    ∧ imputed strategy s = Ok s'
    ∧ w' = with_frame w X (with_column fr col s').
Proof.
  intros HX. unfold impute_column. rewrite run_deref.
  rewrite (list_lookup_total_correct _ _ _ HX).
  destruct (getitem fr col) as [|s [|? ?]] eqn:Hget; [done| |done].
  unfold imputed. intros H. exists s.
  destruct (isna_any s).
  - destruct (is_numeric_dtype s).
    + destruct (simple_imputer strategy s) as [s'|e]; [|done].
      rewrite run_lift_ok in H. exists s'. split; [done|]. split; [done|].
      by eapply setitem_ok.
    + destruct (simple_imputer "most_frequent" s) as [s'|e]; [|done].
      rewrite run_lift_ok in H. exists s'. split; [done|]. split; [done|].
      by eapply setitem_ok.
  - injection H as <-. exists s. split; [done|]. split; [done|].
    by rewrite with_column_same, with_frame_same.
Qed.

(** A loop that succeeds has gone through every element. *)
Lemma for_each_ok {A} (I : list A → world → Prop) (body : A → M unit) xs done w w' :
  (∀ x done w w', I done w → body x w = (Ok (), w') → I (done ++ [x]) w') →
  I done w → for_each xs body w = (Ok (), w') → I (done ++ xs) w'.
Proof.
  intros Hbody. revert done w. induction xs as [|x xs IH]; intros done w HI Hrun.
  - injection Hrun as <-. by rewrite app_nil_r.
  - simpl in Hrun. apply bind_ok in Hrun as ([] & w1 & Hx & Hrun).
    replace (done ++ x :: xs) with ((done ++ [x]) ++ xs) by by rewrite <- app_assoc.
    eapply IH; [|done]. by eapply Hbody.
Qed.

Lemma Forall2_impl_in {A B} (R R' : A → B → Prop) l k :
  Forall2 R l k → (∀ a b, a ∈ l → b ∈ k → R a b → R' a b) → Forall2 R' l k.
Proof.
  induction 1 as [|a b l k Hab Hlk IH]; intros Himpl; constructor.
  - apply Himpl; [left|left|done].
  - apply IH. intros a' b' Ha Hb. apply Himpl; by right.
Qed.

Lemma imputed_idempotent strategy s : isna_sum s = 0%nat → imputed strategy s = Ok s.
Proof. intros Hs. unfold imputed. by rewrite (proj2 (isna_any_false s) Hs). Qed.

Lemma heap_with_frame w X fr : (X < length (heap w))%nat → heap (with_frame w X fr) !! X = Some fr.
Proof. intros HX. simpl. by apply list_lookup_insert_eq. Qed.

(** The imputation loop, run to its end over the columns of [X]: every
    column is the imputed original. *)
Lemma impute_loop_ok X strategy w w' sel :
  heap w !! X = Some sel →
  for_each (labels sel) (impute_column X strategy) w = (Ok (), w') →
  ∃ fr, w' = with_frame w X fr
    ∧ index_len fr = index_len sel
    ∧ Forall2 (λ p q, q.1 = p.1 ∧ imputed strategy p.2 = Ok q.2)
              (columns sel) (columns fr).
Proof.
  intros HX Hrun.
  pose proof (lookup_lt_Some _ _ _ HX) as HXlt.
  set (R := λ (done : list string) (p q : string * series),
         q.1 = p.1 ∧ if decide (p.1 ∈ done) then imputed strategy p.2 = Ok q.2 else q = p).
  set (I := λ (done : list string) (w1 : world),
         ∃ fr, w1 = with_frame w X fr ∧ index_len fr = index_len sel
               ∧ Forall2 (R done) (columns sel) (columns fr)).
  assert (I ([] ++ labels sel) w') as (fr & -> & Hlen & Hcols).
  { eapply (for_each_ok I); [|  |exact Hrun].
    - clear Hrun w'. intros col done w1 w2 (fr & -> & Hlen & Hcols) Hstep.
      eapply impute_column_ok in Hstep as (s & s' & Hget & Himp & ->);
        [|by apply heap_with_frame].
      exists (with_column fr col s'). split; [|split; [done|]].
      { unfold with_frame. simpl. by rewrite list_insert_insert_eq. }
      simpl. apply Forall2_fmap_r. eapply Forall2_impl_in; [exact Hcols|].
      intros p q Hp Hqin [Hq1 Hq]. subst R. cbv beta in *.
      unfold compose. cbv beta.
      destruct (decide (q.1 = col)) as [Hcol|Hcol]; simpl.
      + split; [congruence|].
        rewrite decide_True by (apply elem_of_app; right; rewrite <- Hcol, Hq1; left).
        pose proof (getitem_singleton _ _ _ _ Hget Hqin Hcol) as Hqs.
        destruct (decide (p.1 ∈ done)) as [Hdone|Hdone].
        * rewrite Hqs in Hq. simpl in Hq.
          rewrite (imputed_idempotent _ s) in Himp by by eapply imputed_no_missing.
          congruence.
        * rewrite <- Hq, Hqs. exact Himp.
      + split; [done|]. destruct (decide (p.1 ∈ done)) as [Hdone|Hdone].
        * rewrite decide_True by (apply elem_of_app; by left). done.
        * rewrite decide_False; [done|].
          intros [?|Hin]%elem_of_app; [done|].
          apply list_elem_of_singleton in Hin. congruence.
    - exists sel. split; [by rewrite with_frame_same|]. split; [done|].
      apply Forall_Forall2_diag, Forall_forall. intros p _. subst R. cbv beta.
      split; [done|].
      destruct (decide (p.1 ∈ [])) as [Hin|]; [by apply elem_of_nil in Hin|done]. }
  exists fr. split; [done|]. split; [done|].
  eapply Forall2_impl_in; [exact Hcols|].
  intros p q Hp _ [Hq1 Hq]. split; [done|].
  rewrite decide_True in Hq; [done|].
  simpl. unfold labels. apply list_elem_of_fmap. by exists p.
Qed.

(** ** Encoding and scaling keep a frame free of missing values *)

Lemma count_none_0 {A} (xs : list (option A)) :
  count_none xs = 0%nat ↔ Forall (λ o, o ≠ None) xs.
Proof.
  unfold count_none. induction xs as [|[x|] xs IH].
  - split; [constructor|done].
  - rewrite filter_cons_False by done. rewrite IH. split.
    + by constructor.
    + by inversion 1.
  - rewrite filter_cons_True by done. split; [done|].
    inversion 1; subst. done.
Qed.

Lemma no_missing_with_column fr col zs :
  no_missing fr → no_missing (with_column fr col (IntSeries zs)).
Proof.
  intros Hfr c s Hin. unfold with_column in Hin. simpl in Hin.
  apply list_elem_of_fmap in Hin as (p & Heq & Hp).
  case_decide; [by injection Heq as -> ->|].
  subst p. by eapply Hfr.
Qed.

Lemma encode_column_ok X col w w' fr :
  heap w !! X = Some fr →
  encode_column X col w = (Ok (), w') →
  ∃ fr', heap w' = <[X := fr']> (heap w)
    ∧ index_len fr' = index_len fr
    ∧ (no_missing fr → no_missing fr').
Proof.
  intros HX. unfold encode_column. rewrite run_deref.
  rewrite (list_lookup_total_correct _ _ _ HX).
  destruct (getitem fr col) as [|s [|? ?]] eqn:Hget; [done| |done].
  assert (heap w = <[X := fr]> (heap w)) as Hsame by by rewrite list_insert_id.
  destruct s as [xs|xs|xs]; intros H.
  - injection H as <-. by exists fr.
  - injection H as <-. by exists fr.
  - apply bind_ok in H as ([] & w1 & Hset & H).
    eapply setitem_ok in Hset as [_ Hw1]; [|done]. subst w1.
    injection H as <-. eexists. split; [done|]. split; [done|].
    apply no_missing_with_column.
Qed.

Lemma encode_loop_ok X cols w w' fr :
  heap w !! X = Some fr →
  for_each cols (encode_column X) w = (Ok (), w') →
  ∃ fr', heap w' = <[X := fr']> (heap w)
    ∧ index_len fr' = index_len fr
    ∧ (no_missing fr → no_missing fr').
Proof.
  intros HX Hrun. pose proof (lookup_lt_Some _ _ _ HX) as HXlt.
  eapply (for_each_ok
            (λ _ w1, ∃ fr', heap w1 = <[X := fr']> (heap w)
                            ∧ index_len fr' = index_len fr
                            ∧ (no_missing fr → no_missing fr')) _ cols []);
    [| |exact Hrun].
  - clear Hrun w'. intros col _ w1 w2 (fr1 & Hheap & Hlen & Hfr1) Hstep.
    eapply (encode_column_ok _ _ _ _ fr1) in Hstep as (fr2 & Hheap2 & Hlen2 & Hfr2).
    + exists fr2. rewrite Hheap2, Hheap, list_insert_insert_eq.
      split; [done|]. split; [congruence|tauto].
    + rewrite Hheap. by apply list_lookup_insert_eq.
  - exists fr. by rewrite list_insert_id.
Qed.

Lemma scale_ok X unfitted fit_transform w X' w' :
  scale X unfitted fit_transform w = (Ok X', w') →
  ∃ out, fit_transform (heap w !!! X) = Ok out
    ∧ X' = length (heap w)
    ∧ heap w' = heap w ++ [as_frame (labels (heap w !!! X)) (index_len (heap w !!! X)) out.2]
    ∧ self w' = set_scaler out.1 (set_scaler unfitted (self w)).
Proof.
  unfold scale. rewrite run_update_self, run_deref. simpl heap.
  destruct (fit_transform _) as [out|e]; [|done].
  rewrite run_lift_ok, run_update_self. intros [= <- <-]. by exists out.
Qed.

Lemma encode_target_heap y target_variable w r w' :
  encode_target y target_variable w = (r, w') → heap w' = heap w.
Proof.
  unfold encode_target.
  destruct y as [|[ys|ys|ys] [|? ?]]; intros H; try by injection H as <- <-.
Qed.

Lemma after_prologue_X w df selected input_features target_variable :
  heap (after_prologue w df selected input_features target_variable)
    !! S (S (length (heap w))) = Some selected.
Proof.
  simpl. rewrite lookup_app_r by lia.
  by replace (S (S (length (heap w))) - length (heap w))%nat with 2%nat by lia.
Qed.

(** The statistics of the imputer come from the observed values alone. *)
Lemma impute_numeric_observed strategy xs v vs :
  omap id xs = v :: vs →
  impute_numeric strategy xs
  = if decide (strategy = "constant") then Ok (fill (Zf 0) xs)
    else if decide (strategy = "mean") then Ok (fill (mean (v :: vs)) xs)
    else if decide (strategy = "median") then Ok (fill (median (v :: vs)) xs)
    else if decide (strategy = "most_frequent") then
      Ok (match most_frequent Qcle (v :: vs) with Some m => fill m xs | None => [] end)
    else Raise (InvalidParameterError ("The 'strategy' parameter of SimpleImputer must be a str among {'mean', 'median', 'most_frequent', 'constant'}. Got '"
                                       +:+ strategy +:+ "' instead.")).
Proof.
  intros Hobs. unfold impute_numeric, numeric_statistic. rewrite Hobs.
  destruct (decide (strategy = "constant")) as [->|?]; [done|].
  destruct (decide (strategy = "mean")) as [->|?]; [done|].
  destruct (decide (strategy = "median")) as [->|?]; [done|].
  destruct (decide (strategy = "most_frequent")) as [->|?]; [done|].
  rewrite decide_False; [done|]. set_solver.
Qed.

(** The imputation, where it succeeds.  With [handle_missing] set and no
    scaler asked for, a feature matrix that [preprocess_data] returns holds
    no missing value: the imputation loop has replaced every column that had
    one by the output of the imputer (with the configured strategy for a
    numeric column, with [most_frequent] for any other), and the encoding
    brings none back.  Without encoding the returned columns are exactly the
    imputed ones. *)
Lemma preprocess_data_fills_missing
    df input_features target_variable config w X y w' :
  handle_missing config = Some true →
  default false (standardization config) = false →
  default false (normalization config) = false →
  preprocess_data lib df input_features target_variable config w = (Ok (X, y), w') →
  (∃ fr, heap w' !! X = Some fr ∧ ∀ c s, (c, s) ∈ columns fr → isna_sum s = 0%nat)
  ∧ (default false (encode_categories config) = false →
     ∃ selected fr,
       select (heap w !!! df) input_features = Ok selected
       ∧ heap w' !! X = Some fr
       ∧ index_len fr = index_len selected
       ∧ Forall2 (λ p q, q.1 = p.1
                         ∧ imputed (default "mean" (missing_strategy config)) p.2 = Ok q.2)
                 (columns selected) (columns fr)).
Proof.
  intros Hflag Hno_std Hno_norm
    (selected & w2 & w3 & w4 & Hsel & _ & Himp & Henc & Htgt & Hscale)%preprocess_data_ok.
  cbv zeta in *. set (X0 := S (S (length (heap w)))) in *.
  unfold impute_stage in Himp. rewrite Hflag in Himp. simpl in Himp.
  pose proof (after_prologue_X w df selected input_features target_variable) as HX0.
  fold X0 in HX0.
  eapply impute_loop_ok in Himp as (fr & -> & Hlen & Hcols); [|exact HX0].
  set (w1 := after_prologue w df selected input_features target_variable) in *.
  assert (heap (with_frame w1 X0 fr) !! X0 = Some fr) as Hfr
    by (apply heap_with_frame; by eapply lookup_lt_Some).
  assert (no_missing fr) as Hclean.
  { intros c s Hin.
    eapply (Forall2_Forall_r _ (λ q, isna_sum q.2 = 0%nat)) in Hcols.
    - rewrite Forall_forall in Hcols. by apply (Hcols (c, s)).
    - apply Forall_forall. intros p _ q [_ Hq]. by eapply imputed_no_missing. }
  unfold scale_stage in Hscale. rewrite Hno_std, Hno_norm in Hscale.
  injection Hscale as <- <-.
  apply encode_target_heap in Htgt.
  split.
  - unfold encode_stage in Henc. destruct (default false (encode_categories config)).
    + eapply encode_loop_ok in Henc as (fr3 & Hheap & _ & Hfr3); [|exact Hfr].
      exists fr3. rewrite Htgt, Hheap. split; [|by apply Hfr3].
      apply list_lookup_insert_eq. by eapply lookup_lt_Some.
    + injection Henc as <-. exists fr. by rewrite Htgt.
  - intros Hno_enc.
    unfold encode_stage in Henc. rewrite Hno_enc in Henc. injection Henc as <-.
    exists selected, fr. rewrite Htgt. done.
Qed.

End preprocessing.

(** The sample frame with gaps, imputed by the median and by the most
    frequent text. *)
Lemma sample_gaps_filled :
  ∃ fr, MLPipeline.heap
          (MLPipeline.preprocess_data Sample.lib 0 ["age"; "city"] "label"
             Sample.config_impute_only (Sample.uploaded Sample.with_gaps)).2
          !! 3%nat = Some fr
        ∧ ∀ c s, (c, s) ∈ columns fr → isna_sum s = 0%nat.
Proof.
  apply (preprocess_data_fills_missing Sample.lib 0 ["age"; "city"] "label"
           Sample.config_impute_only (Sample.uploaded Sample.with_gaps) 3
           (IntTarget [1; 0; 1; 0; 1; 0; 1; 0; 1; 0])); by vm_compute.
Qed.

(** C8.  A feature column without a single value defeats the imputation.
    The sample of ten rows whose column [y] is empty passes the validator of
    the upload route, and the selection of [y] as a feature passes the check
    of the training route; with [handle_missing] set the imputer drops the
    column, the assignment of its empty output raises, and [preprocess_data]
    returns no matrix: the training is answered with status 500.  The
    validator of [validation.py] refuses the sample. *)
Lemma all_missing_feature_breaks_training :
  Utils.validate_dataset Sample.empty_column = (true, "")
  ∧ Utils.validate_feature_target_selection Sample.empty_column ["y"] "x" = (true, "")
  ∧ (MLPipeline.preprocess_data Sample.lib 0 ["y"] "x" Sample.config_impute_only
       (Sample.uploaded Sample.empty_column)).1
    = Raise (length_mismatch 0 10)
  ∧ (App.train_model Sample.lib
       {| App.session_id := Some "session_0";
          App.input_features := Some ["y"];
          App.target_variable := Some "x";
          App.model_type := Some "linear";
          App.preprocessing := Some Sample.config_impute_only;
          App.split_ratio := None;
          App.hyperparameters := None |}
       (Sample.server_with Sample.empty_column)).1
    = (App.Error "Training failed: Length of values (0) does not match length of index (10)",
       500%nat)
  ∧ accepted (Validation.validate_dataset Sample.empty_column) = false.
Proof. repeat split; by vm_compute. Qed.

(* ===================================================================== *)
(** * Properties of [np.unique] and of the label encoder                   *)
(* ===================================================================== *)

Section unique.
Context {A : Type} `{EqDecision A} (R : relation A) `{∀ x y, Decision (R x y)}.

Lemma np_unique_perm xs : np_unique R xs ≡ₚ remove_dups xs.
Proof. apply merge_sort_Permutation. Qed.

Lemma elem_of_np_unique x xs : x ∈ np_unique R xs ↔ x ∈ xs.
Proof. rewrite np_unique_perm. apply elem_of_remove_dups. Qed.

Lemma NoDup_np_unique xs : NoDup (np_unique R xs).
Proof. rewrite np_unique_perm. apply NoDup_remove_dups. Qed.

Lemma np_unique_sorted `{!Transitive R, !Total R} xs : StronglySorted R (np_unique R xs).
Proof. apply StronglySorted_merge_sort; apply _. Qed.

Lemma np_unique_nil xs : np_unique R xs = [] ↔ xs = [].
Proof.
  split; [|by intros ->].
  intros Hnil. destruct xs as [|x xs]; [done|].
  assert (x ∈ np_unique R (x :: xs)) as Hin by (apply elem_of_np_unique; left).
  rewrite Hnil in Hin. by apply elem_of_nil in Hin.
Qed.

Lemma index_of_lookup (v : A) classes :
  v ∈ classes → classes !! index_of v classes = Some v.
Proof.
  induction classes as [|c classes IH]; [by intros ?%elem_of_nil|].
  intros Hin. simpl. case_decide as Hc; [by subst|].
  apply elem_of_cons in Hin as [->|Hin]; [done|]. by apply IH.
Qed.

Lemma occurrences_pos (v : A) xs : v ∈ xs ↔ (0 < occurrences v xs)%nat.
Proof.
  unfold occurrences. split.
  - intros Hin. assert (v ∈ filter (λ x, x = v) xs) as Hf by by apply list_elem_of_filter.
    destruct (filter _ xs); [by apply elem_of_nil in Hf|simpl; lia].
  - intros Hpos. destruct (filter (λ x, x = v) xs) as [|y ys] eqn:Hf; [simpl in Hpos; lia|].
    assert (y ∈ filter (λ x, x = v) xs) as Hy by (rewrite Hf; left).
    apply list_elem_of_filter in Hy as [-> Hy]. done.
Qed.

End unique.

Section encoder.
Import MLPipeline.
Context (lib : library).

(** The codes of the label encoder index the sorted classes: decoding a
    code gives the value back. *)
Lemma label_encode_decodes values i v :
  values !! i = Some v →
  ∃ k, label_encode values !! i = Some (Z.of_nat k) ∧ classes_ values !! k = Some v.
Proof.
  intros Hi. exists (index_of v (classes_ values)). split.
  - unfold label_encode. by rewrite list_lookup_fmap, Hi.
  - apply index_of_lookup. apply elem_of_np_unique. by eapply list_elem_of_lookup_2.
Qed.

Lemma scale_stage_label_encoders X config w X' w' :
  scale_stage lib X config w = (Ok X', w') →
  label_encoders (self w') = label_encoders (self w).
Proof.
  unfold scale_stage.
  destruct (default false (standardization config)).
  { intros (out & _ & _ & _ & ->)%scale_ok. done. }
  destruct (default false (normalization config)).
  { intros (out & _ & _ & _ & ->)%scale_ok. done. }
  by intros [= <- <-].
Qed.

(** C9.  When the target column is of object dtype, the target vector
    that [preprocess_data] returns is the vector of integer codes of a label
    encoder fitted on the column read as text, and that encoder is stored
    under the target's name, whatever the configuration says about
    [encode_categories]: the codes index the sorted distinct classes. *)
Theorem preprocess_data_encodes_target
    df input_features target_variable config w X y w' ys :
  getitem (heap w !!! df) target_variable = [ObjectSeries ys] →
  preprocess_data lib df input_features target_variable config w = (Ok (X, y), w') →
  y = IntTarget (label_encode (astype_str ys))
  ∧ label_encoders (self w') !! target_variable = Some (classes_ (astype_str ys))
  ∧ NoDup (classes_ (astype_str ys))
  ∧ ∀ i v, astype_str ys !! i = Some v →
      ∃ k, label_encode (astype_str ys) !! i = Some (Z.of_nat k)
           ∧ classes_ (astype_str ys) !! k = Some v.
Proof.
  intros Hget (selected & w2 & w3 & w4 & _ & _ & _ & _ & Htgt & Hscale)
    %preprocess_data_ok.
  cbv zeta in *. rewrite Hget in Htgt. simpl in Htgt.
  rewrite run_update_self in Htgt. injection Htgt as <- <-.
  apply scale_stage_label_encoders in Hscale. simpl in Hscale.
  split; [done|]. split.
  { rewrite Hscale. apply lookup_insert_eq. }
  split; [apply NoDup_np_unique|].
  intros i v. apply label_encode_decodes.
Qed.

End encoder.

(** The text target of the sample frame, with and without
    [encode_categories]. *)
Lemma preprocess_data_encodes_target_witness :
  IntTarget [1; 0; 1; 0; 1; 0; 1; 0; 1; 0]
  = IntTarget (label_encode (astype_str
      [Some "yes"; Some "no"; Some "yes"; Some "no"; Some "yes";
       Some "no"; Some "yes"; Some "no"; Some "yes"; Some "no"]))
  ∧ MLPipeline.label_encoders
      (MLPipeline.self
         (MLPipeline.preprocess_data Sample.lib 0 ["age"; "city"] "label"
            Sample.config_impute_only (Sample.uploaded Sample.with_gaps)).2)
      !! "label"
    = Some (classes_ (astype_str
        [Some "yes"; Some "no"; Some "yes"; Some "no"; Some "yes";
         Some "no"; Some "yes"; Some "no"; Some "yes"; Some "no"]))
  ∧ NoDup (classes_ (astype_str
        [Some "yes"; Some "no"; Some "yes"; Some "no"; Some "yes";
         Some "no"; Some "yes"; Some "no"; Some "yes"; Some "no"]))
  ∧ ∀ i v,
      astype_str
        [Some "yes"; Some "no"; Some "yes"; Some "no"; Some "yes";
         Some "no"; Some "yes"; Some "no"; Some "yes"; Some "no"] !! i = Some v →
      ∃ k, label_encode (astype_str
             [Some "yes"; Some "no"; Some "yes"; Some "no"; Some "yes";
              Some "no"; Some "yes"; Some "no"; Some "yes"; Some "no"]) !! i
           = Some (Z.of_nat k)
           ∧ classes_ (astype_str
               [Some "yes"; Some "no"; Some "yes"; Some "no"; Some "yes";
                Some "no"; Some "yes"; Some "no"; Some "yes"; Some "no"]) !! k
             = Some v.
Proof.
  apply (preprocess_data_encodes_target Sample.lib 0 ["age"; "city"] "label"
           Sample.config_impute_only (Sample.uploaded Sample.with_gaps) 3).
  - reflexivity.
  - vm_compute. reflexivity.
Defined.
(* ===================================================================== *)
(** * Properties of training and of the metrics                            *)
(* ===================================================================== *)

Lemma Forall_forall_sum_0 {A} (f : A → nat) l :
  sum_list (map f l) = 0%nat ↔ ∀ x, x ∈ l → f x = 0%nat.
Proof.
  induction l as [|y l IH]; simpl.
  - split; [by intros _ x ?%elem_of_nil|done].
  - split.
    + intros Hsum x [->|Hx]%elem_of_cons; [lia|]. apply IH; [lia|done].
    + intros Hall. rewrite (Hall y) by left. apply IH. intros x Hx. apply Hall. by right.
Qed.

Section training.
Import MLPipeline.
Context (lib : library).

Lemma make_model_none model_type is_classification hyperparameters :
  make_model model_type is_classification hyperparameters = None
  ↔ model_type ∉ recognized.
Proof.
  unfold make_model, recognized.
  repeat match goal with
  | |- context [decide ?P] =>
      destruct (decide P) as [Hmt|?];
      [split; [by destruct is_classification|];
       intros Hno; exfalso; apply Hno; set_solver|]
  end.
  split; [|done]. intros _. set_solver.
Qed.

(** C6.  On a pipeline whose data has been split, a model type outside
    [logistic], [linear], [decision_tree], [random_forest], [svm], [knn] and
    [neural_network] makes [train_model] raise
    [ValueError("Unknown model type: ...")] and leaves the pipeline, its
    stored model included, exactly as it was; no estimator is built or
    fitted. *)
Theorem train_model_unknown_type model_type hyperparameters w sp :
  train_test (self w) = Some sp →
  model_type ∉ recognized →
  train_model lib model_type hyperparameters w
  = (Raise (ValueError ("Unknown model type: " +:+ model_type)), w).
Proof.
  intros Hsp Hmt. unfold train_model. rewrite run_get_self, Hsp.
  by rewrite (proj2 (make_model_none _ _ _) Hmt).
Qed.

(** ** A successful call of [train_model] *)

Lemma fit_and_predict_ok est cls sp w preds w1 :
  fit_and_predict lib est cls sp w = (Ok preds, w1) →
  train_test (self w1) = train_test (self w)
  ∧ if cls then ∃ tr te, preds = (Labels tr, Labels te)
    else ∃ tr te, preds = (Values tr, Values te).
Proof.
  unfold fit_and_predict. destruct cls.
  - destruct (y_train sp) as [ys|ys]; [|done].
    intros H.
    apply bind_ok in H as (f & w2 & Hfit & H). injection Hfit as Hfit <-.
    rewrite run_update_self in H.
    apply bind_ok in H as (tr & w2 & Htr & H). injection Htr as Htr <-.
    apply bind_ok in H as (te & w2 & Hte & H). injection Hte as Hte <-.
    injection H as <- <-. split; [done|]. by exists tr, te.
  - intros H.
    apply bind_ok in H as (f & w2 & Hfit & H). injection Hfit as Hfit <-.
    rewrite run_update_self in H.
    apply bind_ok in H as (tr & w2 & Htr & H). injection Htr as Htr <-.
    apply bind_ok in H as (te & w2 & Hte & H). injection Hte as Hte <-.
    injection H as <- <-. split; [done|]. by exists tr, te.
Qed.

(** What a result of [train_model] is made of: the scores that
    [_calculate_metrics] computed from the test partition and from the
    predictions the result carries. *)
Lemma train_model_ok model_type hyperparameters w r w' :
  train_model lib model_type hyperparameters w = (Ok r, w') →
  ∃ sp, train_test (self w) = Some sp
    ∧ if is_classification sp then
        ∃ train test y_train_pred y_test_pred m,
          y_train sp = IntTarget train ∧ y_test sp = IntTarget test
          ∧ Results.predictions r = Some (IntTarget test, Labels y_test_pred)
          ∧ classification_metrics lib train test y_train_pred y_test_pred = Ok m
          ∧ Results.test_metrics r = m.1.1
          ∧ Results.confusion_matrix r = m.2
          ∧ Results.regression_metrics r = None
      else
        ∃ y_train_pred y_test_pred m,
          Results.predictions r = Some (y_test sp, Values y_test_pred)
          ∧ regression_metrics lib (y_train sp) (y_test sp) y_train_pred y_test_pred = Ok m
          ∧ Results.test_metrics r = m.1.1.1
          ∧ Results.confusion_matrix r = m.1.2
          ∧ Results.regression_metrics r = Some m.2.
Proof.
  unfold train_model. rewrite run_get_self.
  destruct (train_test (self w)) as [sp|] eqn:Hsp; [|done].
  fold (is_classification sp).
  destruct (make_model _ _ _) as [est|]; [|done].
  rewrite run_update_self. intros H.
  apply bind_ok in H as (preds & w1 & Hfit & H).
  apply fit_and_predict_ok in Hfit as [Htt Hpreds]. simpl in Htt.
  rewrite run_update_self in H.
  apply bind_ok in H as (r0 & w2 & Hcalc & H). injection H as <- <-.
  exists sp. split; [done|].
  unfold _calculate_metrics in Hcalc. rewrite run_get_self in Hcalc.
  simpl in Hcalc. rewrite Htt, Hsp in Hcalc.
  apply bind_ok in Hcalc as ([[[tm ta] cm] reg] & w3 & Hscores & Hcalc).
  injection Hcalc as <- <-. simpl.
  destruct (is_classification sp).
  - destruct Hpreds as (tr & te & ->). simpl in *.
    destruct (y_train sp) as [y_tr|]; [|done].
    destruct (y_test sp) as [y_te|]; [|done].
    apply bind_ok in Hscores as (m & w4 & Hm & Hscores).
    injection Hm as Hm <-. injection Hscores as -> <- <-.
    exists y_tr, y_te, tr, te, (tm, ta, cm). done.
  - destruct Hpreds as (tr & te & ->). simpl in *.
    apply bind_ok in Hscores as (m & w4 & Hm & Hscores).
    injection Hm as Hm <-. injection Hscores as Hm1 <- <-.
    exists tr, te, m. rewrite Hm1. done.
Qed.

Lemma max0_nonneg x : ∃ a, max0 x = Some a ∧ (Zf 0 ≤ a)%Qc.
Proof.
  destruct x as [v|]; simpl.
  - case_decide as Hv.
    + exists v. split; [done|]. by apply Qclt_le_weak.
    + by exists (Zf 0).
  - by exists (Zf 0).
Qed.

Lemma regression_metrics_ok y_train y_test y_train_pred y_test_pred m :
  regression_metrics lib y_train y_test y_train_pred y_test_pred = Ok m →
  ∃ test mae r2 train_r2,
    Metrics.as_floats y_test = Ok test
    ∧ Metrics.mean_absolute_error test y_test_pred = Ok mae
    ∧ Metrics.r2_score test y_test_pred = Ok r2
    ∧ m.1.1.1 = {| Results.accuracy := max0 r2;
                   Results.precision := r2;
                   Results.recall := Some (Zf 1 - mae / (np_std lib test + epsilon))%Qc;
                   Results.f1_score := r2 |}
    ∧ m.1.1.2 = max0 train_r2
    ∧ m.1.2 = [[0; 0]; [0; 0]]%nat
    ∧ Results.mae m.2 = mae
    ∧ Results.r2_score m.2 = r2.
Proof.
  unfold regression_metrics.
  destruct (Metrics.as_floats y_test) as [test|]; simpl; [|done].
  destruct (Metrics.mean_squared_error test _) as [mse|]; simpl; [|done].
  destruct (Metrics.mean_absolute_error test _) as [mae|] eqn:Hmae; simpl; [|done].
  destruct (Metrics.r2_score test _) as [r2|] eqn:Hr2; simpl; [|done].
  destruct (Metrics.as_floats y_train) as [train|]; simpl; [|done].
  destruct (Metrics.mean_squared_error train _) as [train_mse|]; simpl; [|done].
  destruct (Metrics.r2_score train _) as [train_r2|]; simpl; [|done].
  intros [= <-]. by exists test, mae, r2, train_r2.
Qed.

(** C5.  In a regression result the test metrics are aliases of the
    regression scores: accuracy is Python's [max(0, R²)] and so never
    negative, precision and f1 are the test R² itself, recall is
    [1 - MAE / (np.std(y_test) + 1e-10)], and the confusion matrix is the
    fixed 2×2 matrix of zeros.  R² and MAE are those of the test partition
    against the predictions the result carries. *)
Theorem regression_metrics_aliases model_type hyperparameters w r w' rm :
  train_model lib model_type hyperparameters w = (Ok r, w') →
  Results.regression_metrics r = Some rm →
  Results.accuracy (Results.test_metrics r) = max0 (Results.r2_score rm)
  ∧ (∃ a, Results.accuracy (Results.test_metrics r) = Some a ∧ (Zf 0 ≤ a)%Qc)
  ∧ Results.precision (Results.test_metrics r) = Results.r2_score rm
  ∧ Results.f1_score (Results.test_metrics r) = Results.r2_score rm
  ∧ Results.confusion_matrix r = [[0; 0]; [0; 0]]%nat
  ∧ ∃ sp test y_test_pred,
      train_test (self w) = Some sp
      ∧ Metrics.as_floats (y_test sp) = Ok test
      ∧ Results.predictions r = Some (y_test sp, Values y_test_pred)
      ∧ Metrics.r2_score test y_test_pred = Ok (Results.r2_score rm)
      ∧ Metrics.mean_absolute_error test y_test_pred = Ok (Results.mae rm)
      ∧ Results.recall (Results.test_metrics r)
        = Some (Zf 1 - Results.mae rm / (np_std lib test + epsilon))%Qc.
Proof.
  intros (sp & Hsp & H)%train_model_ok Hrm.
  destruct (is_classification sp).
  { destruct H as (? & ? & ? & ? & ? & _ & _ & _ & _ & _ & _ & Hnone). congruence. }
  destruct H as (tr & te & m & Hpred & Hm & Htm & Hcm & Hreg).
  apply regression_metrics_ok in Hm
    as (test & mae & r2 & train_r2 & Htest & Hmae & Hr2 & Hm1 & _ & Hm2 & Hmae' & Hr2').
  assert (rm = m.2) as -> by congruence.
  rewrite Htm, Hcm, Hm1, Hm2, Hmae', Hr2'. simpl.
  split; [done|]. split; [apply max0_nonneg|]. do 3 (split; [done|]).
  by exists sp, test, te.
Qed.

(** ** The confusion matrix *)

Lemma occurrences_cons {A} `{EqDecision A} (v x : A) xs :
  occurrences v (x :: xs) = ((if decide (x = v) then 1 else 0) + occurrences v xs)%nat.
Proof. unfold occurrences. rewrite filter_cons. by case_decide. Qed.

(** A label that occurs once in [labels] is hit once. *)
Lemma sum_indicator (b : Z) labels :
  NoDup labels → b ∈ labels →
  sum_list (map (λ p, if decide (b = p) then 1 else 0)%nat labels) = 1%nat.
Proof.
  induction 1 as [|c labels Hc Hnd IH]; [by intros ?%elem_of_nil|].
  intros Hin. simpl. case_decide as Hb.
  - subst c. rewrite (proj2 (Forall_forall_sum_0 _ _)); [lia|].
    intros p Hp. case_decide; [by subst|done].
  - apply elem_of_cons in Hin as [?|Hin]; [done|]. by rewrite IH.
Qed.

Lemma sum_list_map_plus {A} (f g : A → nat) l :
  sum_list (map (λ x, f x + g x)%nat l) = (sum_list (map f l) + sum_list (map g l))%nat.
Proof. induction l as [|x l IH]; simpl; lia. Qed.

(** A row of the matrix adds up to the number of samples of its label. *)
Lemma row_sum (t : Z) labels (pairs : list (Z * Z)) :
  NoDup labels →
  (∀ ab, ab ∈ pairs → ab.2 ∈ labels) →
  sum_list (map (λ p, occurrences (t, p) pairs) labels) = occurrences t pairs.*1.
Proof.
  intros Hnd. induction pairs as [|[a b] pairs IH]; intros Hin.
  - simpl. apply Forall_forall_sum_0. done.
  - rewrite fmap_cons, occurrences_cons. simpl fst.
    rewrite <- IH by (intros ab Hab; apply Hin; by right).
    transitivity
      (sum_list (map (λ p, (if decide ((a, b) = (t, p)) then 1 else 0)
                           + occurrences (t, p) pairs)%nat labels)).
    { f_equal. apply map_ext. intros p. apply occurrences_cons. }
    rewrite sum_list_map_plus. f_equal.
    destruct (decide (a = t)) as [->|Ha].
    + etransitivity; [|apply (sum_indicator b labels Hnd), (Hin (t, b)); left].
      f_equal. apply map_ext. intros p.
      destruct (decide ((t, b) = (t, p))) as [Heq|Hne], (decide (b = p)) as [Hb|Hb];
        try done; [by injection Heq|by subst].
    + apply Forall_forall_sum_0. intros p _.
      destruct (decide ((a, b) = (t, p))) as [Heq|Hne]; [by injection Heq|done].
Qed.

Lemma unique_labels_elem c y_true y_pred :
  c ∈ Metrics.unique_labels y_true y_pred ↔ c ∈ y_true ∨ c ∈ y_pred.
Proof. unfold Metrics.unique_labels. by rewrite elem_of_np_unique, elem_of_app. Qed.

Lemma confusion_matrix_entry y_true y_pred i j t p :
  Metrics.unique_labels y_true y_pred !! i = Some t →
  Metrics.unique_labels y_true y_pred !! j = Some p →
  ∃ row, Metrics.confusion_matrix y_true y_pred !! i = Some row
         ∧ row !! j = Some (occurrences (t, p) (zip y_true y_pred)).
Proof.
  intros Hi Hj. unfold Metrics.confusion_matrix.
  eexists. split.
  - rewrite list_lookup_fmap, Hi. done.
  - rewrite list_lookup_fmap, Hj. done.
Qed.

Lemma confusion_matrix_row_sum y_true y_pred i t :
  length y_true = length y_pred →
  Metrics.unique_labels y_true y_pred !! i = Some t →
  ∃ row, Metrics.confusion_matrix y_true y_pred !! i = Some row
         ∧ sum_list row = occurrences t y_true.
Proof.
  intros Hlen Hi. unfold Metrics.confusion_matrix.
  eexists. split; [rewrite list_lookup_fmap, Hi; done|].
  rewrite row_sum.
  - by rewrite fst_zip by lia.
  - apply NoDup_np_unique.
  - intros [a b] Hab. apply unique_labels_elem. right. by eapply elem_of_zip_r.
Qed.

Lemma classification_metrics_ok y_train y_test y_train_pred y_test_pred m :
  classification_metrics lib y_train y_test y_train_pred y_test_pred = Ok m →
  length y_test = length y_test_pred
  ∧ m.2 = Metrics.confusion_matrix y_test y_test_pred.
Proof.
  unfold classification_metrics.
  destruct (Metrics.accuracy_score y_test _) as [acc|] eqn:Hacc; simpl; [|done].
  repeat match goal with
         | |- context [result_bind ?x _] => destruct x; simpl; [|done]
         end.
  intros [= <-]. split; [|done].
  unfold Metrics.accuracy_score, Metrics.check_targets in Hacc.
  destruct (length y_test =? length y_test_pred)%nat eqn:Hlen; [|done].
  by apply Nat.eqb_eq.
Qed.

(** C4.  The confusion matrix of a classification result is
    [confusion_matrix(y_test, y_test_pred)]: square, with one row and one
    column for every label that occurs among the true test labels or among
    the test predictions, the labels in ascending order; row [i] and column
    [j] hold the number of test samples of true label [i] predicted as label
    [j], and a row adds up to the number of test samples of its label.  Its
    size is the number of distinct test classes when every predicted label
    occurs in the test set. *)
Theorem classification_confusion_matrix model_type hyperparameters w r w' :
  train_model lib model_type hyperparameters w = (Ok r, w') →
  Results.regression_metrics r = None →
  ∃ test y_test_pred,
    Results.predictions r = Some (IntTarget test, Labels y_test_pred)
    ∧ (∃ sp, train_test (self w) = Some sp ∧ y_test sp = IntTarget test)
    ∧ length test = length y_test_pred
    ∧ let labels := Metrics.unique_labels test y_test_pred in
      let cm := Results.confusion_matrix r in
      cm = Metrics.confusion_matrix test y_test_pred
      ∧ length cm = length labels
      ∧ Forall (λ row, length row = length labels) cm
      ∧ StronglySorted Z.le labels
      ∧ NoDup labels
      ∧ (∀ c, c ∈ labels ↔ c ∈ test ∨ c ∈ y_test_pred)
      ∧ (∀ i j t p, labels !! i = Some t → labels !! j = Some p →
           ∃ row, cm !! i = Some row
                  ∧ row !! j = Some (occurrences (t, p) (zip test y_test_pred)))
      ∧ (∀ i t, labels !! i = Some t →
           ∃ row, cm !! i = Some row ∧ sum_list row = occurrences t test)
      ∧ ((∀ c, c ∈ y_test_pred → c ∈ test) →
         length cm = length (np_unique Z.le test)).
Proof.
  intros (sp & Hsp & H)%train_model_ok Hreg.
  destruct (is_classification sp).
  2:{ destruct H as (? & ? & ? & _ & _ & _ & _ & Hsome). congruence. }
  destruct H as (train & test & tr & te & m & Htrain & Htest & Hpred & Hm & _ & Hcm & _).
  apply classification_metrics_ok in Hm as [Hlen Hm].
  exists test, te. split; [done|]. split; [by exists sp|]. split; [done|].
  cbv zeta. rewrite Hcm, Hm.
  split; [done|].
  split; [unfold Metrics.confusion_matrix; by rewrite length_map|].
  split.
  { unfold Metrics.confusion_matrix. apply Forall_fmap, Forall_forall.
    intros t _. simpl. by rewrite length_map. }
  split; [apply np_unique_sorted; apply _|].
  split; [apply NoDup_np_unique|].
  split; [intros c; apply unique_labels_elem|].
  split; [intros i j t p; apply confusion_matrix_entry|].
  split; [intros i t; by apply confusion_matrix_row_sum|].
  intros Hsub. unfold Metrics.confusion_matrix. rewrite length_map.
  apply Permutation_length, NoDup_Permutation; [apply NoDup_np_unique..|].
  intros c. rewrite unique_labels_elem, elem_of_np_unique. naive_solver.
Qed.

End training.

(** A regression on the sample split: the constant regressor scores a
    negative R², which the accuracy alias clamps to zero. *)
Lemma regression_metrics_aliases_witness :
  ∃ r rm w',
    MLPipeline.train_model Sample.lib "linear" None
      (Sample.split_world (FloatTarget [Some (Zf 1); Some (Zf 2); Some (Zf 3); Some (Zf 10)])
                          (FloatTarget [Some (Zf 2); Some (Zf 4)])) = (Ok r, w')
    ∧ MLPipeline.Results.regression_metrics r = Some rm
    ∧ MLPipeline.Results.accuracy (MLPipeline.Results.test_metrics r) = Some (Zf 0)
    ∧ MLPipeline.Results.accuracy (MLPipeline.Results.test_metrics r)
      = max0 (MLPipeline.Results.r2_score rm)
    ∧ MLPipeline.Results.precision (MLPipeline.Results.test_metrics r)
      = MLPipeline.Results.r2_score rm
    ∧ MLPipeline.Results.f1_score (MLPipeline.Results.test_metrics r)
      = MLPipeline.Results.r2_score rm
    ∧ MLPipeline.Results.confusion_matrix r = [[0; 0]; [0; 0]]%nat.
Proof.
  eexists _, _, _.
  split; [vm_compute; reflexivity|].
  split; [reflexivity|].
  split; [reflexivity|].
  match goal with
  | |- context [MLPipeline.Results.r2_score ?rm] =>
      pose proof (regression_metrics_aliases Sample.lib "linear" None
        (Sample.split_world (FloatTarget [Some (Zf 1); Some (Zf 2); Some (Zf 3); Some (Zf 10)])
                            (FloatTarget [Some (Zf 2); Some (Zf 4)]))
        _ _ rm ltac:(vm_compute; reflexivity) eq_refl) as (H1 & _ & H2 & H3 & H4 & _)
  end.
  exact (conj H1 (conj H2 (conj H3 H4))).
Defined.

(** A classification on the sample split. *)
Lemma classification_confusion_matrix_witness :
  ∃ r w',
    MLPipeline.train_model Sample.lib "knn" None
      (Sample.split_world (IntTarget [1; 0; 1; 1; 0]) (IntTarget [1; 0; 0])) = (Ok r, w')
    ∧ MLPipeline.Results.confusion_matrix r = [[0; 2]; [0; 1]]%nat
    ∧ ∃ test y_test_pred,
        MLPipeline.Results.predictions r
        = Some (IntTarget test, MLPipeline.Labels y_test_pred)
        ∧ MLPipeline.Results.confusion_matrix r
          = Metrics.confusion_matrix test y_test_pred.
Proof.
  eexists _, _.
  split; [vm_compute; reflexivity|].
  split; [reflexivity|].
  match goal with
  | |- context [MLPipeline.Results.predictions ?r] =>
      pose proof (classification_confusion_matrix Sample.lib "knn" None
        (Sample.split_world (IntTarget [1; 0; 1; 1; 0]) (IntTarget [1; 0; 0]))
        r _ ltac:(vm_compute; reflexivity) eq_refl)
        as (test & te & Hpred & _ & _ & Hcm & _)
  end.
  exists test, te. exact (conj Hpred Hcm).
Defined.

(** C4, as it was claimed: the classes are not in the order of their first
    appearance (label 1 comes first in the data, row 0 is label 0), and a
    label that only the model predicts adds a row and a column (one distinct
    test class, a 2×2 matrix). *)
Lemma confusion_matrix_sorted_union :
  Metrics.confusion_matrix [1; 0; 0] [1; 0; 0] = [[2; 0]; [0; 1]]%nat
  ∧ length (np_unique Z.le [0; 0]) = 1%nat
  ∧ Metrics.confusion_matrix [0; 0] [0; 1] = [[1; 1]; [0; 0]]%nat.
Proof. repeat split; by vm_compute. Qed.

(** An unknown model type on the sample split. *)
Lemma train_model_unknown_type_witness :
  MLPipeline.train_model Sample.lib "gradient_boosting" None
    (Sample.split_world (IntTarget [0; 1; 0; 1]) (IntTarget [0; 1]))
  = (Raise (ValueError ("Unknown model type: " +:+ "gradient_boosting")),
     Sample.split_world (IntTarget [0; 1; 0; 1]) (IntTarget [0; 1])).
Proof.
  apply (train_model_unknown_type Sample.lib "gradient_boosting" None
           (Sample.split_world (IntTarget [0; 1; 0; 1]) (IntTarget [0; 1])) _ eq_refl).
  vm_compute. intros H. repeat (apply elem_of_cons in H as [H|H]; [discriminate H|]).
  by apply elem_of_nil in H.
Defined.

(** C6, as it was claimed: [logistic] is not in the claim's list, yet it is
    a model type the code trains; and before any split a call fails on the
    missing [y_train], whatever the model type. *)
Lemma logistic_is_recognized :
  MLPipeline.make_model "logistic" true ∅ = Some (LogisticRegression (HInt 1000) 42)
  ∧ is_ok (MLPipeline.train_model Sample.lib "logistic" None
             (Sample.split_world (IntTarget [0; 1; 0; 1]) (IntTarget [0; 1]))).1 = true
  ∧ MLPipeline.train_model Sample.lib "gradient_boosting" None
      (Sample.uploaded Sample.well_formed)
    = (Raise (AttributeError "'NoneType' object has no attribute 'dtype'"),
       Sample.uploaded Sample.well_formed).
Proof. repeat split; by vm_compute. Qed.
(* ===================================================================== *)
(** * Properties of the split                                              *)
(* ===================================================================== *)

Section counts.
Context {A : Type} `{EqDecision A} (R : relation A) `{∀ x y, Decision (R x y)}.

Lemma np_unique_length (xs : list A) :
  length (np_unique R xs) = length (remove_dups xs).
Proof. apply Permutation_length, np_unique_perm. Qed.

(** [len(np.unique(xs)) > 1]: two values of [xs] differ. *)
Lemma more_than_one_unique (xs : list A) :
  (1 < length (np_unique R xs))%nat ↔ ∃ a b, a ∈ xs ∧ b ∈ xs ∧ a ≠ b.
Proof.
  rewrite np_unique_length.
  pose proof (NoDup_remove_dups xs) as Hnd.
  assert (∀ x, x ∈ remove_dups xs ↔ x ∈ xs) as Hel by (intros; apply elem_of_remove_dups).
  destruct (remove_dups xs) as [|a [|b l]]; simpl.
  - split; [lia|]. intros (a & _ & Ha & _). apply Hel in Ha. by apply elem_of_nil in Ha.
  - split; [lia|]. intros (x & y & Hx & Hy & Hxy).
    apply Hel, list_elem_of_singleton in Hx, Hy. congruence.
  - split; [|lia]. intros _. exists a, b.
    split; [apply Hel; left|]. split; [apply Hel; right; left|].
    apply NoDup_cons in Hnd as [Ha _]. intros ->. apply Ha. left.
Qed.

Lemma foldr_min_ge k c cs :
  (k ≤ foldr Nat.min c cs)%nat ↔ Forall (λ n, k ≤ n)%nat (c :: cs).
Proof.
  induction cs as [|d cs IH]; simpl.
  - split; [by repeat constructor|by inversion 1].
  - rewrite Nat.min_glb_iff, IH. split.
    + intros [Hd Hall]. inversion Hall; subst. by repeat constructor.
    + inversion 1 as [|? ? Hc Hrest]; subst. inversion Hrest; subst.
      split; [done|by constructor].
Qed.

(** [class_counts.min()] exists for a vector that is not empty, and it is
    at least [k] when every value occurs [k] times. *)
Lemma np_min_counts (xs : list A) k :
  xs ≠ [] →
  ∃ m, np_min (np_unique_counts R xs) = Ok m
       ∧ ((k ≤ m)%nat ↔ ∀ c, c ∈ xs → (k ≤ occurrences c xs)%nat).
Proof.
  intros Hne. unfold np_unique_counts.
  destruct (np_unique R xs) as [|c cs] eqn:Hu; [by apply np_unique_nil in Hu|].
  simpl. eexists. split; [done|].
  rewrite foldr_min_ge.
  change (occurrences c xs :: map (λ v, occurrences v xs) cs)
    with (map (λ v, occurrences v xs) (c :: cs)).
  rewrite Forall_fmap, Forall_forall, <- Hu.
  split; intros Hall x Hx; apply Hall.
  - by apply elem_of_np_unique.
  - by apply elem_of_np_unique in Hx.
Qed.

End counts.

Section split.
Import MLPipeline.
Context (lib : library).

Lemma n_unique_more_than_one y : (1 < n_unique y)%nat ↔ more_than_one_class y.
Proof. destruct y; apply more_than_one_unique. Qed.

Lemma class_counts_min y k :
  target_len y ≠ 0%nat →
  ∃ m, np_min (class_counts y) = Ok m ∧ ((k ≤ m)%nat ↔ every_class_has k y).
Proof.
  destruct y as [ys|ys]; simpl; intros Hlen; apply np_min_counts; by destruct ys.
Qed.

(** The decision of [split_data]: stratify exactly when the target has
    more than one class and every class has two samples. *)
Lemma stratify_param_spec y :
  target_len y ≠ 0%nat →
  ∃ stratify,
    stratify_param y = Ok stratify
    ∧ (stratify = Some y ↔ more_than_one_class y ∧ every_class_has 2 y)
    ∧ (stratify = None ↔ ¬ (more_than_one_class y ∧ every_class_has 2 y)).
Proof.
  intros Hlen. unfold stratify_param.
  destruct (class_counts_min y 2 Hlen) as (m & -> & Hm). unfold result_bind.
  pose proof (n_unique_more_than_one y) as Hn1.
  destruct (1 <? n_unique y)%nat eqn:Hn; cbn [andb].
  - apply Nat.ltb_lt in Hn. destruct (2 <=? m)%nat eqn:H2.
    + apply Nat.leb_le in H2. eexists. split; [done|].
      assert (more_than_one_class y ∧ every_class_has 2 y) as Hboth
        by (split; [by apply Hn1|by apply Hm]).
      split; [by split|]. split; [done|]. intros Hno. by destruct Hno.
    + apply Nat.leb_gt in H2. eexists. split; [done|].
      split; [split; [done|]|split; [|done]].
      * intros [_ Hall]. apply Hm in Hall. lia.
      * intros _ [_ Hall]. apply Hm in Hall. lia.
  - apply Nat.ltb_ge in Hn. eexists. split; [done|].
    split; [split; [done|]|split; [|done]].
    + intros [Hmore _]. apply Hn1 in Hmore. lia.
    + intros _ [Hmore _]. apply Hn1 in Hmore. lia.
Qed.


Lemma split_data_unfold X y test_size random_state w stratify :
  stratify_param y = Ok stratify →
  split_data lib X y test_size random_state w
  = match train_test_split lib (heap w !!! X) y test_size random_state stratify with
    | Ok (X_train, X_test, y_train, y_test) =>
        (Ok (), {| heap := heap w;
                   self := set_train_test
                             {| X_train := X_train; X_test := X_test;
                                y_train := y_train; y_test := y_test |} (self w) |})
    | Raise e => (Raise e, w)
    end.
Proof.
  intros Hs. unfold split_data. rewrite run_deref, Hs, run_lift_ok.
  destruct (train_test_split _ _ _ _ _ _) as [[[[? ?] ?] ?]|e]; [|done].
  by rewrite run_lift_ok.
Qed.

(** The two partitions of the unstratified split share no row and leave
    none out, when the library's permutation is one. *)
Lemma shuffle_split_partition random_state n n_train n_test :
  Lib.rng_permutation lib random_state n ≡ₚ seq 0 n →
  (n_train + n_test = n)%nat →
  (shuffle_split lib random_state n n_train n_test).2
    ++ (shuffle_split lib random_state n n_train n_test).1 ≡ₚ seq 0 n.
Proof.
  intros Hperm Hn. unfold shuffle_split. simpl.
  rewrite (take_ge (drop _ _)).
  - by rewrite take_drop.
  - rewrite length_drop, (Permutation_length Hperm), length_seq. lia.
Qed.

Lemma stratify_param_empty y :
  target_len y = 0%nat → stratify_param y = Raise empty_minimum.
Proof. by destruct y as [[|? ?]|[|? ?]]. Qed.

(** C3.  For a float test fraction (one minus the train fraction) that is
    not strictly between 0 and 1, [split_data] raises and assigns no
    partition: the pipeline is as it was.  On a target that is not empty the
    error is the [InvalidParameterError] of the library's check of
    [test_size]; on an empty target the minimum of no class counts has raised
    before the fraction is looked at. *)
Theorem split_data_invalid_fraction X y test_size random_state w :
  (test_size ≤ Zf 0 ∨ Zf 1 ≤ test_size)%Qc →
  split_data lib X y test_size random_state w
  = (Raise (if decide (target_len y = 0%nat) then empty_minimum else invalid_test_size),
     w).
Proof.
  intros Hts. case_decide as Hlen.
  - unfold split_data. by rewrite run_deref, (stratify_param_empty y Hlen), run_lift_raise.
  - destruct (stratify_param_spec y Hlen) as (stratify & Hs & _).
    rewrite (split_data_unfold _ _ _ _ _ _ Hs). unfold train_test_split.
    by rewrite decide_True.
Qed.




End split.

(** A hundred rows at a train share of 70%: 70 to train on, 30 to test.
    At a train share of 44% the test fraction is the float nearest to 0.56,
    its product with 100 is above 56, and 57 rows go to the test. *)
Lemma seventy_thirty :
  validate_shuffle_split 100 (float_div (float_sub (Zf 100) (Zf 70)) (Zf 100))
  = Ok (70, 30)%nat
  ∧ validate_shuffle_split 100 (float_div (float_sub (Zf 100) (Zf 44)) (Zf 100))
    = Ok (43, 57)%nat.
Proof. split; by vm_compute. Qed.

(** The split of a request for 100% training data. *)
Lemma split_data_invalid_fraction_witness :
  MLPipeline.split_data Sample.lib 0 (IntTarget [0; 1; 0; 1; 0; 1; 0; 1; 0; 1])
    (float_div (float_sub (Zf 100) (Zf 100)) (Zf 100)) 42
    (Sample.uploaded Sample.well_formed)
  = (Raise invalid_test_size, Sample.uploaded Sample.well_formed).
Proof.
  apply (split_data_invalid_fraction Sample.lib 0
           (IntTarget [0; 1; 0; 1; 0; 1; 0; 1; 0; 1])).
  left. by vm_compute.
Defined.

(** Through the route, a request for 100% training data ends in status 500
    with the text of that error. *)
Lemma route_reports_invalid_fraction :
  (App.train_model Sample.lib
     {| App.session_id := Some "session_0";
        App.input_features := Some ["x"];
        App.target_variable := Some "y";
        App.model_type := Some "knn";
        App.preprocessing := None;
        App.split_ratio := Some (Zf 100);
        App.hyperparameters := None |}
     (Sample.server_with Sample.well_formed)).1
  = (App.Error ("Training failed: " +:+ exn_str invalid_test_size), 500%nat).
Proof. by vm_compute. Qed.

(** C3, as it was claimed: on the uploaded sample, a request for 100%
    training data makes the split fail with scikit-learn's
    [InvalidParameterError], the error of any parameter out of its
    constraints (an unknown imputation strategy raises it as well), not with
    an error of the fraction alone; the route reports it like every other
    failure, with status 500. *)
Lemma invalid_fraction_error_is_the_librarys :
  (MLPipeline.split_data Sample.lib 0 (IntTarget [0; 1; 0; 1; 0; 1; 0; 1; 0; 1])
     (float_div (float_sub (Zf 100) (Zf 100)) (Zf 100)) 42
     (Sample.uploaded Sample.well_formed)).1
  = Raise invalid_test_size
  ∧ exn_class invalid_test_size = "InvalidParameterError"
  ∧ exn_class invalid_test_size ≠ "InvalidFractionError"
  ∧ (∃ e, (MLPipeline.preprocess_data Sample.lib 0 ["age"; "city"] "label"
             {| MLPipeline.handle_missing := Some true;
                MLPipeline.missing_strategy := Some "midpoint";
                MLPipeline.encode_categories := None;
                MLPipeline.standardization := None;
                MLPipeline.normalization := None |}
             (Sample.uploaded Sample.with_gaps)).1 = Raise e
          ∧ exn_class e = exn_class invalid_test_size)
  ∧ (App.train_model Sample.lib
       {| App.session_id := Some "session_0";
          App.input_features := Some ["x"];
          App.target_variable := Some "y";
          App.model_type := Some "knn";
          App.preprocessing := None;
          App.split_ratio := Some (Zf 100);
          App.hyperparameters := None |}
       (Sample.server_with Sample.well_formed)).1
    = (App.Error ("Training failed: " +:+ exn_str invalid_test_size), 500%nat).
Proof.
  split; [by vm_compute|]. split; [reflexivity|]. split; [discriminate|].
  split; [|by vm_compute]. eexists. split; [vm_compute; reflexivity|reflexivity].
Qed.



(* ===================================================================== *)
(** * Further properties of the validators                                 *)
(* ===================================================================== *)

Lemma getitem_nil df c : getitem df c = [] ↔ c ∉ labels df.
Proof.
  unfold getitem, labels. split.
  - intros Hnil Hin. apply list_elem_of_fmap in Hin as ([c' s] & -> & Hin).
    simpl in Hnil.
    assert (s ∈ (filter (λ p, p.1 = c') (columns df)).*2) as Hs.
    { apply list_elem_of_fmap. exists (c', s). split; [done|]. by apply list_elem_of_filter. }
    rewrite Hnil in Hs. by apply elem_of_nil in Hs.
  - intros Hno. destruct (filter _ _) as [|[c' s] l] eqn:Hf; [done|]. exfalso.
    assert ((c', s) ∈ filter (λ p, p.1 = c) (columns df)) as Hin by (rewrite Hf; left).
    apply list_elem_of_filter in Hin as [Hc Hin]. simpl in Hc. subst c'.
    apply Hno. apply list_elem_of_fmap. by exists (c, s).
Qed.

(** Under distinct labels, [df[c]] is a Series for every label [c]. *)
Lemma getitem_NoDup df c :
  NoDup (labels df) → c ∈ labels df → ∃ s, getitem df c = [s].
Proof.
  unfold getitem, labels. induction (columns df) as [|[c' s] l IH]; simpl.
  - by intros _ ?%elem_of_nil.
  - intros [Hc' Hnd]%NoDup_cons Hin. rewrite filter_cons. simpl.
    case_decide as Hc.
    + subst c'. exists s. simpl. f_equal.
      destruct (filter _ l) as [|[c'' s''] l'] eqn:Hf; [done|]. exfalso.
      assert ((c'', s'') ∈ filter (λ p, p.1 = c) l) as Hin' by (rewrite Hf; left).
      apply list_elem_of_filter in Hin' as [Heq Hin']. simpl in Heq. subst c''.
      apply Hc'. apply list_elem_of_fmap. by exists (c, s'').
    + apply elem_of_cons in Hin as [?|Hin]; [done|]. by apply IH.
Qed.

Lemma zero_variance_ok df fs :
  (∀ f, f ∈ fs → Validation.column_is_numeric df f = true) →
  ∃ zs, Validation.zero_variance df fs = Ok zs
        ∧ ∀ f, f ∈ zs ↔ f ∈ fs ∧ ∃ s, getitem df f = [s] ∧ nunique s = 1%nat.
Proof.
  induction fs as [|f fs IH]; intros Hnum; simpl.
  - exists []. split; [done|]. intros f. split; [by intros ?%elem_of_nil|].
    by intros [?%elem_of_nil _].
  - destruct IH as (zs & -> & Hzs); [intros f' Hf'; apply Hnum; by right|].
    pose proof (Hnum f ltac:(left)) as Hf.
    unfold Validation.column_is_numeric in Hf. unfold Validation.column_nunique.
    destruct (getitem df f) as [|s [|? ?]] eqn:Hget; try done. simpl.
    eexists. split; [done|]. intros f'.
    destruct (nunique s =? 1)%nat eqn:H1.
    + apply Nat.eqb_eq in H1. rewrite !elem_of_cons, Hzs. split.
      * intros [->|[Hin Hs]]; [|tauto]. split; [by left|]. by exists s.
      * intros [[->|Hin] Hs]; [by left|right; tauto].
    + apply Nat.eqb_neq in H1. rewrite Hzs, elem_of_cons. split; [tauto|].
      intros [[->|Hin] (s' & Hs' & Hu)]; [|by eauto].
      rewrite Hget in Hs'. injection Hs' as <-. done.
Qed.

Lemma missing_features_nil df (fs : list string) :
  filter (λ f, f ∉ labels df) fs = [] ↔ ∀ f, f ∈ fs → f ∈ labels df.
Proof.
  split.
  - intros Hnil f Hin. destruct (decide (f ∈ labels df)) as [|Hno]; [done|].
    assert (f ∈ filter (λ f, f ∉ labels df) fs) as Hf by (by apply list_elem_of_filter).
    rewrite Hnil in Hf. by apply elem_of_nil in Hf.
  - intros Hall. destruct (filter _ fs) as [|m ms] eqn:Hf; [done|]. exfalso.
    assert (m ∈ filter (λ f, f ∉ labels df) fs) as Hm by (rewrite Hf; left).
    apply list_elem_of_filter in Hm as [Hm Hin]. by apply Hm, Hall.
Qed.

(** The run of [validate_feature_selection] past its four checks of the
    names. *)
Lemma validate_feature_selection_names df fs t :
  (∀ f, f ∈ fs → f ∈ labels df) → t ∈ labels df → t ∉ fs → fs ≠ [] →
  Validation.validate_feature_selection df fs t
  = match getitem df t with
    | [s] =>
        if (nunique s =? 1)%nat then
          Ok (Validation.invalid
                ("Target variable '" +:+ t +:+ "' has only one unique value")
                "Target must have at least 2 different values for classification or range of values for regression")
        else if is_object_dtype s && (100 <? nunique s)%nat then
          Ok (Validation.invalid
                ("Target has " +:+ str_nat (nunique s) +:+ " unique classes")
                "Too many classes for classification. Consider grouping categories or using regression")
        else
          match Validation.zero_variance df
                  (filter (λ f, Validation.column_is_numeric df f = true) fs) with
          | Ok (z :: zs) =>
              Ok (Validation.invalid
                    ("Features with no variance: " +:+ join ", " (z :: zs))
                    "Remove constant features as they don't provide information")
          | Ok [] => Ok Validation.valid
          | Raise e => Raise e
          end
    | _ => Raise Validation.ambiguous
    end.
Proof.
  intros Hfs Ht Hover Hne. unfold Validation.validate_feature_selection.
  rewrite (proj2 (missing_features_nil df fs) Hfs).
  unfold has_column. rewrite bool_decide_eq_true_2 by done. simpl.
  rewrite bool_decide_eq_false_2 by done.
  destruct fs as [|f fs]; [done|]. simpl length. simpl Nat.eqb. cbv iota.
  unfold Validation.column_nunique, Validation.looks_categorical.
  destruct (getitem df t) as [|s [|? ?]] eqn:Hget; [|simpl|done].
  { by apply getitem_nil in Hget. }
  destruct (nunique s =? 1)%nat; [done|].
  destruct (is_object_dtype s) eqn:Hobj; simpl.
  - destruct (100 <? nunique s)%nat; [done|].
    by destruct (Validation.zero_variance _ _) as [[|? ?]|].
  - destruct (nunique s <? 20)%nat eqn:H20; simpl.
    + destruct (100 <? nunique s)%nat eqn:H100.
      { apply Nat.ltb_lt in H20, H100. lia. }
      by destruct (Validation.zero_variance _ _) as [[|? ?]|].
    + by destruct (Validation.zero_variance _ _) as [[|? ?]|].
Qed.

(** When [validate_feature_selection] answers without looking at a value. *)
Lemma validate_feature_selection_early df fs t :
  ¬ ((∀ f, f ∈ fs → f ∈ labels df) ∧ t ∈ labels df ∧ (t ∉ fs) ∧ fs ≠ []) →
  ∃ msg suggestion,
    Validation.validate_feature_selection df fs t = Ok (Validation.invalid msg suggestion).
Proof.
  intros Hno. unfold Validation.validate_feature_selection.
  destruct (filter _ fs) as [|m ms] eqn:Hmiss; [|by eexists _, _].
  unfold has_column. case_bool_decide as Ht; simpl; [|by eexists _, _].
  case_bool_decide as Hover; [by eexists _, _|].
  destruct fs as [|f fs]; [by eexists _, _|].
  exfalso. apply Hno. split; [by apply missing_features_nil|done].
Qed.

Lemma numeric_features_numeric df (fs : list string) f :
  f ∈ filter (λ f, Validation.column_is_numeric df f = true) fs →
  Validation.column_is_numeric df f = true.
Proof. by intros [? _]%list_elem_of_filter. Qed.

Lemma validate_feature_selection_raise_inv df fs t e :
  Validation.validate_feature_selection df fs t = Raise e →
  e = Validation.ambiguous
  ∧ (∀ f, f ∈ fs → f ∈ labels df) ∧ (t ∉ fs) ∧ fs ≠ []
  ∧ (1 < length (getitem df t))%nat.
Proof.
  intros Hrun.
  destruct (decide (Forall (λ f, f ∈ labels df) fs ∧ t ∈ labels df ∧ (t ∉ fs) ∧ fs ≠ []))
    as [(Hfs & Ht & Hover & Hne)|Hno].
  2:{ destruct (validate_feature_selection_early df fs t) as (? & ? & Heq); [|congruence].
      intros (Hfs & ?). apply Hno. split; [by apply Forall_forall|done]. }
  rewrite Forall_forall in Hfs.
  rewrite validate_feature_selection_names in Hrun by done.
  destruct (getitem df t) as [|s [|s' l]] eqn:Hget.
  - by apply getitem_nil in Hget.
  - exfalso. destruct (nunique s =? 1)%nat; [done|].
    destruct (_ && _); [done|].
    destruct (zero_variance_ok df _ (numeric_features_numeric df fs)) as (zs & Hzs & _).
    rewrite Hzs in Hrun. by destruct zs.
  - injection Hrun as <-. repeat split; try done. simpl. lia.
Qed.

(** X1.  [validate_feature_selection] raises, instead of answering a
    verdict, exactly when the four checks of the names pass and the label of
    the target is carried by several columns: [df[target]] is then a frame
    and the comparison of its [nunique()] has no truth value.  The error is
    the [ValueError] of pandas. *)
Theorem validate_feature_selection_raises df fs t e :
  Validation.validate_feature_selection df fs t = Raise e
  ↔ e = Validation.ambiguous
    ∧ (∀ f, f ∈ fs → f ∈ labels df) ∧ (t ∉ fs) ∧ fs ≠ []
    ∧ (1 < length (getitem df t))%nat.
Proof.
  split; [apply validate_feature_selection_raise_inv|].
  intros (-> & Hfs & Hover & Hne & Hlen).
  assert (t ∈ labels df) as Ht.
  { destruct (decide (t ∈ labels df)) as [|Hno]; [done|].
    apply getitem_nil in Hno. rewrite Hno in Hlen. simpl in Hlen. lia. }
  rewrite validate_feature_selection_names by done.
  destruct (getitem df t) as [|s [|s' l]]; simpl in Hlen; try lia. done.
Qed.

Lemma validation_accepted_inv df :
  accepted (Validation.validate_dataset df) = true →
  (10 ≤ index_len df)%nat ∧ (2 ≤ length (columns df))%nat ∧ NoDup (labels df)
  ∧ ∀ c, c ∈ labels df → contains "Unnamed" c = false.
Proof.
  unfold Validation.validate_dataset, df_empty, accepted.
  destruct (index_len df =? 0)%nat eqn:H0; simpl; [done|].
  destruct (length (columns df) =? 0)%nat eqn:H1; simpl; [done|].
  destruct (index_len df <? 10)%nat eqn:H2; simpl; [done|].
  destruct (forallb _ _); simpl; [done|].
  case_bool_decide; simpl; [done|].
  destruct (length (columns df) <? 2)%nat eqn:H3; simpl; [done|].
  destruct (duplicated_labels [] (labels df)) as [|d ds] eqn:Hdup; simpl; [|done].
  destruct (filter _ (labels df)) as [|u us] eqn:Hun; simpl; [|done].
  intros _. apply Nat.ltb_ge in H2, H3.
  apply duplicated_labels_nil in Hdup as [Hnd _].
  repeat split; try done.
  intros c Hin. destruct (contains "Unnamed" c) eqn:Hc; [|done].
  assert (c ∈ filter (λ col, contains "Unnamed" col = true) (labels df)) as Hf
    by (by apply list_elem_of_filter).
  rewrite Hun in Hf. by apply elem_of_nil in Hf.
Qed.

(** X2.  The validator of [validation.py] is the stricter of the two: a
    frame it accepts is accepted by the validator of [utils.py] that the
    upload route calls. *)
Theorem validation_accepts_less_datasets df :
  accepted (Validation.validate_dataset df) = true →
  Utils.validate_dataset df = (true, "").
Proof.
  intros (Hrows & Hcols & _)%validation_accepted_inv.
  unfold Utils.validate_dataset, df_empty.
  rewrite (proj2 (Nat.eqb_neq _ 0)) by lia.
  rewrite (proj2 (Nat.eqb_neq _ 0)) by lia. simpl.
  rewrite (proj2 (Nat.ltb_ge _ _)) by lia.
  by rewrite (proj2 (Nat.ltb_ge _ _)) by lia.
Qed.

Lemma validation_accepts_less_datasets_witness :
  Utils.validate_dataset Sample.well_formed = (true, "").
Proof.
  apply validation_accepts_less_datasets. by vm_compute.
Defined.

Lemma validate_feature_selection_accepted_inv df fs t v :
  Validation.validate_feature_selection df fs t = Ok v →
  accepted v = true →
  v = Validation.valid
  ∧ (∀ f, f ∈ fs → f ∈ labels df) ∧ t ∈ labels df ∧ (t ∉ fs) ∧ fs ≠ [].
Proof.
  intros Hrun Hacc.
  destruct (decide (Forall (λ f, f ∈ labels df) fs ∧ t ∈ labels df ∧ (t ∉ fs) ∧ fs ≠ []))
    as [(Hfs & Ht & Hover & Hne)|Hno].
  2:{ destruct (validate_feature_selection_early df fs t) as (? & ? & Heq).
      - intros (Hfs & ?). apply Hno. split; [by apply Forall_forall|done].
      - rewrite Heq in Hrun. injection Hrun as <-. done. }
  rewrite Forall_forall in Hfs. split; [|done].
  rewrite validate_feature_selection_names in Hrun by done.
  destruct (getitem df t) as [|s [|? ?]]; try done.
  destruct (nunique s =? 1)%nat; [by injection Hrun as <-|].
  destruct (_ && _); [by injection Hrun as <-|].
  destruct (Validation.zero_variance _ _) as [[|? ?]|]; [|by injection Hrun as <-|done].
  by injection Hrun as <-.
Qed.

(** X3.  And so is its check of the selection: whatever
    [validate_feature_selection] accepts, [validate_feature_target_selection]
    of [utils.py], the check the training route calls, accepts as well. *)
Theorem validation_accepts_less_selections df fs t v :
  Validation.validate_feature_selection df fs t = Ok v →
  accepted v = true →
  Utils.validate_feature_target_selection df fs t = (true, "").
Proof.
  intros Hrun Hacc.
  destruct (validate_feature_selection_accepted_inv _ _ _ _ Hrun Hacc)
    as (_ & Hfs & Ht & Hover & Hne).
  unfold Utils.validate_feature_target_selection, has_column, Utils.first_missing.
  rewrite bool_decide_eq_true_2 by done. simpl.
  rewrite (proj2 (missing_features_nil df fs) Hfs). simpl.
  rewrite bool_decide_eq_false_2 by done.
  by destruct fs.
Qed.

Lemma validation_accepts_less_selections_witness :
  Utils.validate_feature_target_selection Sample.well_formed ["x"] "y" = (true, "").
Proof.
  apply (validation_accepts_less_selections _ _ _ Validation.valid); by vm_compute.
Defined.

(** X4.  On a frame that [validate_dataset] of [validation.py] accepts,
    [validate_feature_selection] answers a verdict for every selection: the
    labels are distinct, so no comparison is made on a frame. *)
Theorem validate_feature_selection_answers df fs t :
  accepted (Validation.validate_dataset df) = true →
  ∃ v, Validation.validate_feature_selection df fs t = Ok v.
Proof.
  intros (_ & _ & Hnd & _)%validation_accepted_inv.
  destruct (Validation.validate_feature_selection df fs t) as [v|e] eqn:Hrun; [by exists v|].
  apply validate_feature_selection_raise_inv in Hrun as (_ & _ & _ & _ & Hlen).
  exfalso. destruct (decide (t ∈ labels df)) as [Ht|Ht].
  - destruct (getitem_NoDup df t Hnd Ht) as (s & Hs). rewrite Hs in Hlen. simpl in Hlen. lia.
  - apply getitem_nil in Ht. rewrite Ht in Hlen. simpl in Hlen. lia.
Qed.

Lemma validate_feature_selection_answers_witness :
  ∃ v, Validation.validate_feature_selection Sample.well_formed ["x"] "y" = Ok v.
Proof.
  apply validate_feature_selection_answers. by vm_compute.
Defined.

(** X5.  What [validate_feature_selection] accepts.  The verdict is
    [(True, None, None)] exactly when every feature and the target are labels
    of the frame, the target is no feature, a feature is selected, the target
    is a single column whose number of distinct values is not 1 (and not above
    100 for a column of texts), and no selected numeric column has exactly one
    distinct value.  A target without any value, zero distinct values, passes. *)
Theorem validate_feature_selection_accepts df fs t :
  Validation.validate_feature_selection df fs t = Ok Validation.valid
  ↔ (∀ f, f ∈ fs → f ∈ labels df) ∧ (t ∉ fs) ∧ fs ≠ []
    ∧ ∃ s, getitem df t = [s]
           ∧ nunique s ≠ 1%nat
           ∧ ¬ (is_object_dtype s = true ∧ (100 < nunique s)%nat)
           ∧ ∀ f s', f ∈ fs → getitem df f = [s'] →
                     is_numeric_dtype s' = true → nunique s' ≠ 1%nat.
Proof.
  split.
  - intros Hrun.
    destruct (validate_feature_selection_accepted_inv _ _ _ _ Hrun eq_refl)
      as (_ & Hfs & Ht & Hover & Hne).
    do 3 (split; [done|]).
    rewrite validate_feature_selection_names in Hrun by done.
    destruct (getitem df t) as [|s [|? ?]]; try done.
    exists s. split; [done|].
    destruct (nunique s =? 1)%nat eqn:H1; [done|]. apply Nat.eqb_neq in H1.
    split; [done|].
    destruct (is_object_dtype s && _) eqn:Hobj; [done|].
    split.
    { intros [Ho H100]. rewrite Ho in Hobj. simpl in Hobj.
      apply Nat.ltb_ge in Hobj. lia. }
    destruct (zero_variance_ok df _ (numeric_features_numeric df fs)) as (zs & Hzs & Hel).
    rewrite Hzs in Hrun. destruct zs as [|z zs]; [|done].
    intros f s' Hf Hget Hnum Hone.
    assert (f ∈ []) as Hin; [|by apply elem_of_nil in Hin].
    apply Hel. split; [|by exists s'].
    apply list_elem_of_filter. split; [|done].
    unfold Validation.column_is_numeric. by rewrite Hget.
  - intros (Hfs & Hover & Hne & s & Hget & H1 & Hobj & Hvar).
    assert (t ∈ labels df) as Ht.
    { destruct (decide (t ∈ labels df)) as [|Hno]; [done|].
      apply getitem_nil in Hno. congruence. }
    rewrite validate_feature_selection_names by done. rewrite Hget.
    rewrite (proj2 (Nat.eqb_neq _ _) H1).
    destruct (is_object_dtype s && _) eqn:Hobj'.
    { exfalso. apply andb_prop in Hobj' as [Ho H100]. apply Nat.ltb_lt in H100. tauto. }
    destruct (zero_variance_ok df _ (numeric_features_numeric df fs)) as (zs & Hzs & Hel).
    rewrite Hzs. destruct zs as [|z zs]; [done|]. exfalso.
    destruct (proj1 (Hel z) ltac:(left)) as [Hz (s' & Hs' & Hone)].
    apply list_elem_of_filter in Hz as [Hnum Hz].
    unfold Validation.column_is_numeric in Hnum. rewrite Hs' in Hnum.
    by apply (Hvar z s').
Qed.

(* ===================================================================== *)
(** * Arithmetic of floats                                                 *)
(* ===================================================================== *)

Lemma natf_lt a b : (natf a < natf b)%Qc ↔ (a < b)%nat.
Proof.
  unfold natf, Zf, Qclt. simpl. rewrite !Qred_correct.
  unfold Qlt. simpl. lia.
Qed.

Lemma natf_le a b : (natf a ≤ natf b)%Qc ↔ (a ≤ b)%nat.
Proof.
  unfold natf, Zf, Qcle. simpl. rewrite !Qred_correct.
  unfold Qle. simpl. lia.
Qed.

Lemma natf_mult a b : (natf a * natf b)%Qc = natf (a * b).
Proof.
  unfold natf, Zf. apply Qc_is_canon. simpl. rewrite !Qred_correct.
  unfold Qeq. simpl. lia.
Qed.

Lemma natf_plus a b : (natf a + natf b)%Qc = natf (a + b).
Proof.
  unfold natf, Zf. apply Qc_is_canon. simpl. rewrite !Qred_correct.
  unfold Qeq. simpl. lia.
Qed.

Lemma natf_pos n : (0 < n)%nat → (Zf 0 < natf n)%Qc.
Proof. intros Hn. by apply (natf_lt 0 n). Qed.

Lemma Qc_pos_nonzero (x : Qc) : (Zf 0 < x)%Qc → x ≠ Zf 0.
Proof. intros Hlt Heq. by apply Qclt_not_eq in Hlt. Qed.

Lemma Qcdiv_lt_l x y z : (Zf 0 < y)%Qc → (x / y < z)%Qc ↔ (x < z * y)%Qc.
Proof.
  intros Hy. rewrite (Qcmult_lt_mono_pos_r (x / y) z y Hy).
  by rewrite test_field by by apply Qc_pos_nonzero.
Qed.

Lemma Qcdiv_le_l x y z : (Zf 0 < y)%Qc → (x / y ≤ z)%Qc ↔ (x ≤ z * y)%Qc.
Proof.
  intros Hy. rewrite (Qcmult_le_mono_pos_r (x / y) z y Hy).
  by rewrite test_field by by apply Qc_pos_nonzero.
Qed.

Lemma Qcdiv_le_r x y z : (Zf 0 < y)%Qc → (z ≤ x / y)%Qc ↔ (z * y ≤ x)%Qc.
Proof.
  intros Hy. rewrite (Qcmult_le_mono_pos_r z (x / y) y Hy).
  by rewrite test_field by by apply Qc_pos_nonzero.
Qed.

Lemma a_twentieth : Q2Qc (5 # 100) = (natf 1 / natf 20)%Qc.
Proof. apply Qc_is_canon. reflexivity. Qed.

Lemma a_half : Q2Qc (1 # 2) = (natf 1 / natf 2)%Qc.
Proof. apply Qc_is_canon. reflexivity. Qed.

(* ===================================================================== *)
(** * Properties of the description of the columns                         *)
(* ===================================================================== *)

Lemma length_remove_dups_le {A} `{EqDecision A} (l : list A) :
  (length (remove_dups l) ≤ length l)%nat.
Proof.
  induction l as [|x l IH]; simpl; [done|].
  destruct (decide_rel elem_of x l); simpl; lia.
Qed.

Lemma length_omap_le {A B} (f : A → option B) l : (length (omap f l) ≤ length l)%nat.
Proof.
  induction l as [|x l IH]; csimpl; [done|]. destruct (f x); csimpl; lia.
Qed.

(** A column has no more distinct values than rows. *)
Lemma nunique_le_len s : (nunique s ≤ series_len s)%nat.
Proof.
  destruct s as [xs|xs|xs]; simpl.
  - apply length_remove_dups_le.
  - etransitivity; [apply length_remove_dups_le|apply length_omap_le].
  - etransitivity; [apply length_remove_dups_le|apply length_omap_le].
Qed.

(** X6.  [detect_problem_type] answers for every column: the division by
    the number of rows is reached only with twenty distinct values or more,
    hence with rows, and never ends in [ZeroDivisionError].  The answer is
    [regression] exactly for a numeric column with at least twenty distinct
    values that make up at least 5% of the rows, and [classification] for any
    other column. *)
Theorem detect_problem_type_answers s :
  ∃ kind, Utils.detect_problem_type s = Some kind
    ∧ (kind = "regression"
       ↔ is_numeric_dtype s = true
         ∧ (20 ≤ nunique s)%nat ∧ (series_len s ≤ 20 * nunique s)%nat)
    ∧ (kind ≠ "regression" → kind = "classification").
Proof.
  unfold Utils.detect_problem_type.
  destruct (is_numeric_dtype s) eqn:Hnum; cbn [negb].
  2:{ exists "classification". split; [done|]. split; [|by intros _].
      split; [by intros ?|by intros [? _]]. }
  destruct (nunique s <? 20)%nat eqn:H20.
  { apply Nat.ltb_lt in H20. exists "classification". split; [done|].
    split; [|by intros _]. split; [by intros ?|]. intros (_ & ? & _). lia. }
  apply Nat.ltb_ge in H20. pose proof (nunique_le_len s) as Hle.
  unfold Utils.truediv. rewrite (proj2 (Nat.eqb_neq _ 0)) by lia.
  assert ((natf (nunique s) / natf (series_len s) < Q2Qc (5 # 100))%Qc
          ↔ (20 * nunique s < series_len s)%nat) as Hratio.
  { rewrite a_twentieth, Qcdiv_lt_l by (apply natf_pos; lia).
    rewrite (Qcmult_lt_mono_pos_r _ _ (natf 20)) by (apply natf_pos; lia).
    rewrite (Qcmult_comm (_ / _)), <- Qcmult_assoc, test_field
      by (apply Qc_pos_nonzero, natf_pos; lia).
    rewrite !natf_mult, natf_lt. lia. }
  case_bool_decide as Hlt.
  - apply Hratio in Hlt. exists "classification". split; [done|].
    split; [|by intros _]. split; [by intros ?|]. intros (_ & _ & ?). lia.
  - exists "regression". split; [done|]. split; [|by intros ?].
    split; [|done]. intros _. split; [done|]. split; [done|].
    apply Nat.nlt_ge. intros ?. by apply Hlt, Hratio.
Qed.

Lemma getitem_cons p l n c :
  getitem {| index_len := n; columns := p :: l |} c
  = if decide (p.1 = c) then p.2 :: getitem {| index_len := n; columns := l |} c
    else getitem {| index_len := n; columns := l |} c.
Proof. unfold getitem. simpl. rewrite filter_cons. by case_decide. Qed.

(** A repeated label is one under which [df[c]] is a frame. *)
Lemma repeated_label df :
  ¬ NoDup (labels df) → ∃ c, c ∈ labels df ∧ (1 < length (getitem df c))%nat.
Proof.
  destruct df as [n cols]. unfold labels. simpl.
  induction cols as [|[c s] l IH]; simpl; intros Hdup.
  - exfalso. apply Hdup. constructor.
  - destruct (decide (c ∈ l.*1)) as [Hin|Hnotin].
    + exists c. split; [left|]. rewrite getitem_cons. simpl. rewrite decide_True by done.
      simpl. destruct (getitem _ c) eqn:Hget; [|simpl; lia].
      exfalso. by apply getitem_nil in Hget.
    + destruct IH as (c' & Hc' & Hlen).
      { intros Hnd. apply Hdup. by constructor. }
      exists c'. split; [by right|]. rewrite getitem_cons. simpl.
      case_decide; simpl; lia.
Qed.

Section column_info.
Context (pd : Pandas.library).

Lemma info_loop_raise df e l : info_loop pd df (Raise e) l = Raise e.
Proof. unfold info_loop. induction l as [|c l IH]; simpl; [done|]. exact IH. Qed.

Lemma info_loop_ok df m l :
  (∀ c, c ∈ l → ∃ s, getitem df c = [s]) →
  ∃ info, info_loop pd df (Ok m) l = Ok info
    ∧ ∀ c, info !! c = if decide (c ∈ l)
                       then column_entry pd df <$> head (getitem df c)
                       else m !! c.
Proof.
  unfold info_loop. revert m. induction l as [|c l IH]; intros m Hl; simpl.
  - exists m. split; [done|]. intros c.
    destruct (decide (c ∈ [])) as [Hin|]; [by apply elem_of_nil in Hin|done].
  - destruct (Hl c ltac:(left)) as (s & Hs). rewrite Hs.
    destruct (IH (<[c := column_entry pd df s]> m)) as (info & Hinfo & Hlook).
    { intros c' Hc'. apply Hl. by right. }
    exists info. split; [exact Hinfo|]. intros c'. rewrite Hlook.
    destruct (decide (c' ∈ l)) as [Hin|Hnotin].
    + rewrite decide_True by by right. done.
    + destruct (decide (c' = c)) as [->|Hne].
      * rewrite decide_True by left. by rewrite lookup_insert_eq, Hs.
      * rewrite decide_False by (intros [?|?]%elem_of_cons; done).
        by rewrite lookup_insert_ne.
Qed.

Lemma info_loop_ambiguous df m l c :
  c ∈ l → (1 < length (getitem df c))%nat →
  (∀ c, c ∈ l → getitem df c ≠ []) →
  info_loop pd df (Ok m) l = Raise Validation.ambiguous.
Proof.
  unfold info_loop. revert m. induction l as [|c' l IH]; intros m Hin Hlen Hne; simpl.
  - by apply elem_of_nil in Hin.
  - destruct (getitem df c') as [|s [|s' rest]] eqn:Hget.
    + exfalso. by apply (Hne c'); [left|].
    + apply elem_of_cons in Hin as [->|Hin].
      { rewrite Hget in Hlen. simpl in Hlen. lia. }
      apply IH; [done|done|]. intros c'' Hc''. apply Hne. by right.
    + apply (info_loop_raise df).
Qed.

Lemma get_column_info_NoDup df :
  NoDup (labels df) →
  ∃ info, get_column_info pd df = Ok info
    ∧ (∀ c s, (c, s) ∈ columns df → info !! c = Some (column_entry pd df s))
    ∧ (∀ c, c ∉ labels df → info !! c = None).
Proof.
  intros Hnd.
  destruct (info_loop_ok df ∅ (labels df)) as (info & Hinfo & Hlook).
  { intros c Hc. by apply getitem_NoDup. }
  exists info. split; [exact Hinfo|]. split.
  - intros c s Hin. rewrite Hlook.
    assert (c ∈ labels df) as Hc by (apply list_elem_of_fmap; by exists (c, s)).
    rewrite decide_True by done.
    destruct (getitem_NoDup df c Hnd Hc) as (s' & Hs').
    rewrite Hs'. simpl. do 2 f_equal.
    symmetry. by injection (getitem_singleton df c s' (c, s) Hs' Hin eq_refl).
  - intros c Hc. rewrite Hlook, decide_False by done. done.
Qed.

Lemma get_column_info_dup df :
  ¬ NoDup (labels df) → get_column_info pd df = Raise Validation.ambiguous.
Proof.
  intros (c & Hc & Hlen)%repeated_label.
  apply (info_loop_ambiguous df ∅ (labels df) c Hc Hlen).
  intros c' Hc' Hnil. by apply getitem_nil in Hnil.
Qed.

End column_info.

Lemma fmin_le_l a b : (fmin a b ≤ a)%Qc.
Proof.
  unfold fmin. case_decide as H; [apply Qcle_refl|].
  by apply Qclt_le_weak, Qcnot_le_lt.
Qed.

Lemma fmin_le_r a b : (fmin a b ≤ b)%Qc.
Proof. unfold fmin. case_decide as H; [done|apply Qcle_refl]. Qed.

Lemma fmax_ge_l a b : (a ≤ fmax a b)%Qc.
Proof. unfold fmax. case_decide as H; [done|apply Qcle_refl]. Qed.

Lemma fmax_ge_r a b : (b ≤ fmax a b)%Qc.
Proof.
  unfold fmax. case_decide as H; [apply Qcle_refl|].
  by apply Qclt_le_weak, Qcnot_le_lt.
Qed.

(** The smallest and the largest value of a list that is not empty. *)
Lemma list_min_spec x xs :
  list_min (x :: xs) ∈ x :: xs ∧ ∀ y, y ∈ x :: xs → (list_min (x :: xs) ≤ y)%Qc.
Proof.
  simpl. induction xs as [|z xs [IHin IHle]]; simpl.
  - split; [left|]. intros y ->%list_elem_of_singleton. apply Qcle_refl.
  - split.
    + unfold fmin at 1. case_decide; [right; left|].
      apply elem_of_cons in IHin as [->|?]; [left|by do 2 right].
    + intros y Hy. apply elem_of_cons in Hy as [->|[->|Hy]%elem_of_cons].
      * eapply Qcle_trans; [apply fmin_le_r|]. apply IHle. left.
      * apply fmin_le_l.
      * eapply Qcle_trans; [apply fmin_le_r|]. apply IHle. by right.
Qed.

Lemma list_max_spec x xs :
  list_max (x :: xs) ∈ x :: xs ∧ ∀ y, y ∈ x :: xs → (y ≤ list_max (x :: xs))%Qc.
Proof.
  simpl. induction xs as [|z xs [IHin IHle]]; simpl.
  - split; [left|]. intros y ->%list_elem_of_singleton. apply Qcle_refl.
  - split.
    + unfold fmax at 1. case_decide; [|right; left].
      apply elem_of_cons in IHin as [->|?]; [left|by do 2 right].
    + intros y Hy. apply elem_of_cons in Hy as [->|[->|Hy]%elem_of_cons].
      * eapply Qcle_trans; [|apply fmax_ge_r]. apply IHle. left.
      * apply fmax_ge_l.
      * eapply Qcle_trans; [|apply fmax_ge_r]. apply IHle. by right.
Qed.

(** A numeric column that is not all missing has an observed value. *)
Lemma observed_values_nonempty s :
  is_numeric_dtype s = true → isna_all s = false → observed_values s ≠ [].
Proof.
  destruct s as [xs|xs|xs]; simpl; [| |done]; intros _; unfold isna_all; simpl.
  - intros Hne. destruct xs; [done|]. done.
  - intros Hne Hobs. apply Nat.eqb_neq in Hne. apply Hne. clear Hne.
    unfold count_none. induction xs as [|[x|] xs IH]; [done|done|].
    rewrite filter_cons_True by done. simpl. f_equal. apply IH. done.
Qed.

Lemma count_none_le {A} (xs : list (option A)) : (count_none xs ≤ length xs)%nat.
Proof. unfold count_none. apply length_filter. Qed.

Lemma isna_sum_le s : (isna_sum s ≤ series_len s)%nat.
Proof. destruct s; simpl; [lia|apply count_none_le..]. Qed.

Section column_info_properties.
Context (pd : Pandas.library).

Lemma get_column_info_ok df info :
  get_column_info pd df = Ok info →
  NoDup (labels df)
  ∧ (∀ c s, (c, s) ∈ columns df → info !! c = Some (column_entry pd df s))
  ∧ (∀ c, c ∉ labels df → info !! c = None).
Proof.
  intros Hinfo. destruct (decide (NoDup (labels df))) as [Hnd|Hdup].
  - destruct (get_column_info_NoDup pd df Hnd) as (info' & Hinfo' & Hin & Hout).
    assert (info' = info) as -> by congruence. done.
  - rewrite (get_column_info_dup pd df Hdup) in Hinfo. done.
Qed.

(** X7.  [get_column_info] describes a frame exactly when its labels are
    distinct: the dictionary then has one entry per column, the description of
    that column, and no other key.  Under a repeated label [df[col]] is a
    frame, [detect_column_type] asks for the truth value of a Series, and the
    call ends in the [ValueError] of pandas. *)
Theorem get_column_info_answers df :
  match get_column_info pd df with
  | Ok info =>
      NoDup (labels df)
      ∧ (∀ c s, (c, s) ∈ columns df → info !! c = Some (column_entry pd df s))
      ∧ (∀ c, c ∉ labels df → info !! c = None)
  | Raise e => (¬ NoDup (labels df)) ∧ e = Validation.ambiguous
  end.
Proof.
  destruct (decide (NoDup (labels df))) as [Hnd|Hdup].
  - destruct (get_column_info_NoDup pd df Hnd) as (info & -> & Hin & Hout). done.
  - by rewrite (get_column_info_dup pd df Hdup).
Qed.

(** X8.  The statistics of a numeric column.  Its entry is typed
    [numeric]; when the column holds a value, [min] and [max] are values of
    the column that bound every value; when it holds none, [min], [max] and
    [mean] are [None]. *)
Theorem column_info_numeric df info c s :
  get_column_info pd df = Ok info →
  (c, s) ∈ columns df →
  is_numeric_dtype s = true →
  ∃ entry, info !! c = Some entry
    ∧ Info.type entry = "numeric"
    ∧ if isna_all s then Info.more entry = Info.Numeric None None None
      else ∃ lo hi m,
        Info.more entry = Info.Numeric (Some lo) (Some hi) m
        ∧ lo ∈ observed_values s ∧ hi ∈ observed_values s
        ∧ (∀ x, x ∈ observed_values s → (lo ≤ x)%Qc ∧ (x ≤ hi)%Qc).
Proof.
  intros Hinfo Hin Hnum. destruct (get_column_info_ok df info Hinfo) as (_ & Hentry & _).
  exists (column_entry pd df s). split; [by apply Hentry|].
  unfold column_entry, Utils.detect_column_type. rewrite Hnum. simpl.
  split; [done|]. unfold statistic.
  destruct (isna_all s) eqn:Hall; [done|].
  pose proof (observed_values_nonempty s Hnum Hall) as Hne.
  destruct (observed_values s) as [|x xs] eqn:Hobs; [done|].
  destruct (list_min_spec x xs) as [Hmin_in Hmin], (list_max_spec x xs) as [Hmax_in Hmax].
  eexists _, _, _. split; [done|]. split; [done|]. split; [done|].
  intros y Hy. split; [by apply Hmin|by apply Hmax].
Qed.

(** X9.  The share of missing values.  On a frame with rows whose columns
    have one value per row, the entry of a column counts its missing values,
    at most as many as there are rows, and reports them as a percentage
    between 0 and 100, the one that [validate_dataset] of [validation.py]
    compares with 90. *)
Theorem column_info_missing df info c s :
  get_column_info pd df = Ok info →
  frame_wf df → index_len df ≠ 0%nat →
  (c, s) ∈ columns df →
  ∃ entry, info !! c = Some entry
    ∧ Info.missing_count entry = isna_sum s
    ∧ (Info.missing_count entry ≤ index_len df)%nat
    ∧ Info.missing_percentage entry = Some (missing_pct df s)
    ∧ (Zf 0 ≤ missing_pct df s)%Qc ∧ (missing_pct df s ≤ Zf 100)%Qc
    ∧ (missing_pct df s = Zf 0 ↔ isna_any s = false).
Proof.
  intros Hinfo Hwf Hrows Hin. destruct (get_column_info_ok df info Hinfo) as (_ & Hentry & _).
  exists (column_entry pd df s). split; [by apply Hentry|].
  unfold column_entry. simpl. split; [done|].
  pose proof (isna_sum_le s) as Hle. rewrite (Hwf c s Hin) in Hle.
  split; [done|]. rewrite (proj2 (Nat.eqb_neq _ 0) Hrows). split; [done|].
  assert (Zf 0 < natf (index_len df))%Qc as Hpos by (apply natf_pos; lia).
  assert (Zf 100 = natf 100) as H100 by (apply Qc_is_canon; reflexivity).
  unfold missing_pct. rewrite H100.
  assert (natf (isna_sum s) / natf (index_len df) * natf 100
          = natf (isna_sum s * 100) / natf (index_len df))%Qc as ->.
  { rewrite <- natf_mult. unfold Qcdiv.
    rewrite <- !Qcmult_assoc. f_equal. apply Qcmult_comm. }
  split; [|split].
  - apply Qcdiv_le_r; [done|]. rewrite Qcmult_0_l. apply (natf_le 0). lia.
  - apply Qcdiv_le_l; [done|]. rewrite natf_mult. apply natf_le. lia.
  - rewrite isna_any_false. split.
    + intros H0. assert (natf (isna_sum s * 100) = Zf 0) as Hz.
      { rewrite <- (test_field (natf (isna_sum s * 100)) (natf (index_len df)))
          by by apply Qc_pos_nonzero.
        rewrite H0. apply Qcmult_0_l. }
      destruct (isna_sum s) as [|k]; [done|]. exfalso.
      by apply (natf_nonzero (S k * 100)) in Hz.
    + intros ->. simpl. unfold Qcdiv. apply Qcmult_0_l.
Qed.

End column_info_properties.

(** The numeric column [age] of the sample frame with gaps. *)
Lemma column_info_numeric_witness :
  ∃ info entry,
    get_column_info Sample.pd Sample.with_gaps = Ok info
    ∧ info !! "age" = Some entry
    ∧ Info.type entry = "numeric"
    ∧ ∃ lo hi m,
        Info.more entry = Info.Numeric (Some lo) (Some hi) m
        ∧ (lo ≤ Zf 20)%Qc ∧ (Zf 60 ≤ hi)%Qc.
Proof.
  assert (∃ info, get_column_info Sample.pd Sample.with_gaps = Ok info) as [info Hinfo].
  { eexists. vm_compute. reflexivity. }
  destruct (column_info_numeric Sample.pd Sample.with_gaps info "age" _ Hinfo
              ltac:(left) eq_refl) as (entry & Hentry & Htype & Hmore).
  exists info, entry. split; [exact Hinfo|]. split; [exact Hentry|].
  split; [exact Htype|].
  simpl in Hmore. destruct Hmore as (lo & hi & m & Hm & _ & _ & Hbounds).
  exists lo, hi, m. split; [exact Hm|]. split.
  - apply (Hbounds (Zf 20)). left.
  - apply (Hbounds (Zf 60)). do 5 right. left.
Defined.

(** The share of missing values in the column [city] of the sample frame. *)
Lemma column_info_missing_witness :
  ∃ info entry,
    get_column_info Sample.pd Sample.with_gaps = Ok info
    ∧ info !! "city" = Some entry
    ∧ Info.missing_count entry = 2%nat
    ∧ Info.missing_percentage entry = Some (Zf 20).
Proof.
  assert (∃ info, get_column_info Sample.pd Sample.with_gaps = Ok info) as [info Hinfo].
  { eexists. vm_compute. reflexivity. }
  edestruct (column_info_missing Sample.pd Sample.with_gaps info "city")
    as (entry & Hentry & Hcount & _ & Hpct & _); [exact Hinfo| | | |].
  - intros c s Hin. simpl in Hin.
    repeat (apply elem_of_cons in Hin as [[= -> ->]|Hin]; [reflexivity|]).
    by apply elem_of_nil in Hin.
  - done.
  - right; left.
  - exists info, entry. split; [exact Hinfo|]. split; [exact Hentry|].
    split; [exact Hcount|]. rewrite Hpct. f_equal. apply Qc_is_canon. reflexivity.
Defined.

(* ===================================================================== *)
(** * Properties of the conversion for JSON                                *)
(* ===================================================================== *)

Section json.
Import Json.

(** Induction over arrays and over values, through their lists. *)
Lemma ndarray_induction (P : ndarray → Prop) :
  (∀ v, P (Item v)) →
  (∀ items, Forall P items → P (Axis items)) →
  ∀ a, P a.
Proof.
  intros HItem HAxis. fix IH 1. intros [v|items].
  - apply HItem.
  - apply HAxis. induction items as [|a items IHitems]; constructor.
    + apply IH.
    + exact IHitems.
Qed.

Lemma pyobj_induction (P : pyobj → Prop) :
  P PyNone → (∀ v, P (Py v)) → (∀ z, P (NpInteger z)) → (∀ x, P (NpFloating x)) →
  (∀ b, P (NpBool b)) → (∀ a, P (NdArray a)) → (∀ s, P (PdSeries s)) →
  (∀ items, Forall (λ kv, P kv.2) items → P (PyDict items)) →
  (∀ items, Forall P items → P (PyList items)) →
  (∀ items, Forall P items → P (PyTuple items)) →
  ∀ obj, P obj.
Proof.
  intros HNone HPy HInt HFloat HBool HArr HSer HDict HList HTuple. fix IH 1.
  intros [|v|z|x|b|a|s|items|items|items];
    [exact HNone|apply HPy|apply HInt|apply HFloat|apply HBool|apply HArr|apply HSer| | |].
  - apply HDict. induction items as [|[k v] items IHitems]; constructor.
    + apply IH.
    + exact IHitems.
  - apply HList. induction items as [|v items IHitems]; constructor.
    + apply IH.
    + exact IHitems.
  - apply HTuple. induction items as [|v items IHitems]; constructor.
    + apply IH.
    + exact IHitems.
Qed.

(** The list of an array holds Python values only. *)
Lemma tolist_native a :
  safe_convert_to_serializable (tolist a) = tolist a ∧ json_native (tolist a) = true.
Proof.
  induction a as [v|items IH] using ndarray_induction; [done|]. simpl. split.
  - f_equal. rewrite map_map. apply map_ext_in. intros a Ha%list_elem_of_In.
    rewrite Forall_forall in IH. by apply IH.
  - apply forallb_forall. intros o (a & <- & Ha%list_elem_of_In)%in_map_iff.
    rewrite Forall_forall in IH. by apply IH.
Qed.

Lemma series_tolist_native s :
  safe_convert_to_serializable (series_tolist s) = series_tolist s
  ∧ json_native (series_tolist s) = true.
Proof.
  unfold series_tolist. destruct s as [xs|xs|xs]; simpl; split.
  - f_equal. rewrite map_map. by apply map_ext.
  - apply forallb_forall. by intros o (z & <- & _)%in_map_iff.
  - f_equal. rewrite map_map. by apply map_ext.
  - apply forallb_forall. by intros o (z & <- & _)%in_map_iff.
  - f_equal. rewrite map_map. apply map_ext. by intros [v|].
  - apply forallb_forall. by intros o ([v|] & <- & _)%in_map_iff.
Qed.

Lemma forallb_ext_in {A} (f g : A → bool) l :
  (∀ x, x ∈ l → f x = g x) → forallb f l = forallb g l.
Proof.
  induction l as [|x l IH]; intros Hfg; simpl; [done|].
  rewrite (Hfg x) by left. f_equal. apply IH. intros y Hy. apply Hfg. by right.
Qed.

Lemma forallb_fmap {A B} (f : B → bool) (g : A → B) l :
  forallb f (map g l) = forallb (λ x, f (g x)) l.
Proof. induction l as [|x l IH]; simpl; [done|]. by rewrite IH. Qed.

(** X10.  Converting twice is converting once: what
    [safe_convert_to_serializable] answers, it leaves as it is. *)
Theorem safe_convert_idempotent obj :
  safe_convert_to_serializable (safe_convert_to_serializable obj)
  = safe_convert_to_serializable obj.
Proof.
  induction obj as [|v|z|x|b|a|s|items IH|items IH|items IH] using pyobj_induction;
    try done.
  - apply tolist_native.
  - apply series_tolist_native.
  - simpl. f_equal. rewrite map_map. apply map_ext_in. intros [k v] Hkv%list_elem_of_In.
    simpl. f_equal. rewrite Forall_forall in IH. by apply (IH (k, v)).
  - simpl. f_equal. rewrite map_map. apply map_ext_in. intros v Hv%list_elem_of_In.
    rewrite Forall_forall in IH. by apply IH.
Qed.

(** X11.  What the conversion achieves.  Its answer is made of [None], Python
    scalars, lists, tuples and dictionaries alone exactly when the argument is
    built from such values and from numpy integers, numpy floats, arrays and
    Series, nested in lists and in the values of dictionaries.  A numpy value
    inside a tuple, and a numpy boolean anywhere, comes out unconverted. *)
Theorem safe_convert_native obj :
  json_native (safe_convert_to_serializable obj) = convertible obj.
Proof.
  induction obj as [|v|z|x|b|a|s|items IH|items IH|items IH] using pyobj_induction;
    try done.
  - apply tolist_native.
  - apply series_tolist_native.
  - simpl. rewrite forallb_fmap. apply forallb_ext_in. intros [k v] Hkv.
    rewrite Forall_forall in IH. by apply (IH (k, v)).
  - simpl. rewrite forallb_fmap. apply forallb_ext_in. intros v Hv.
    rewrite Forall_forall in IH. by apply IH.
Qed.

End json.

(* ===================================================================== *)
(** * Further properties of preprocessing                                  *)
(* ===================================================================== *)

Section encoding.
Import MLPipeline.
Context (lib : library).

Lemma with_column_labels fr col v : labels (with_column fr col v) = labels fr.
Proof.
  unfold labels, with_column. simpl. rewrite <- list_fmap_compose.
  apply map_ext. intros p. simpl. case_decide; by subst.
Qed.

Lemma encode_column_run X col w w' fr :
  heap w !! X = Some fr →
  encode_column X col w = (Ok (), w') →
  ∃ s, getitem fr col = [s]
    ∧ heap w' = <[X := with_column fr col (encoded s)]> (heap w)
    ∧ self w' = match s with
                | ObjectSeries xs =>
                    set_label_encoder col (classes_ (astype_str xs)) (self w)
                | _ => self w
                end.
Proof.
  intros HX. unfold encode_column. rewrite run_deref.
  rewrite (list_lookup_total_correct _ _ _ HX).
  destruct (getitem fr col) as [|s [|? ?]] eqn:Hget; [done| |done].
  intros H. exists s. split; [done|].
  destruct s as [xs|xs|xs].
  - injection H as <-. simpl encoded.
    by rewrite with_column_same, list_insert_id.
  - injection H as <-. simpl encoded.
    by rewrite with_column_same, list_insert_id.
  - apply bind_ok in H as ([] & w1 & Hset & H).
    eapply setitem_ok in Hset as [_ Hw1]; [|done]. subst w1.
    injection H as <-. done.
Qed.

Lemma same_but_encoders_refl p : same_but_encoders p p.
Proof. by repeat split. Qed.

Lemma same_but_encoders_set p p' c le :
  same_but_encoders p p' → same_but_encoders p (set_label_encoder c le p').
Proof. intros H. exact H. Qed.

(** The encoding loop, run to its end over the columns of [X]: every
    column is the encoded original, and the encoder of every column of texts
    is kept under the label of the column. *)
Lemma encode_loop_run X w w' sel :
  heap w !! X = Some sel →
  for_each (labels sel) (encode_column X) w = (Ok (), w') →
  ∃ fr, heap w' = <[X := fr]> (heap w)
    ∧ index_len fr = index_len sel
    ∧ Forall2 (λ p q, q.1 = p.1 ∧ q.2 = encoded p.2) (columns sel) (columns fr)
    ∧ (∀ c xs, (c, ObjectSeries xs) ∈ columns sel →
         label_encoders (self w') !! c = Some (classes_ (astype_str xs)))
    ∧ (∀ c, c ∉ labels sel → label_encoders (self w') !! c = label_encoders (self w) !! c)
    ∧ same_but_encoders (self w) (self w').
Proof.
  intros HX Hrun.
  pose proof (lookup_lt_Some _ _ _ HX) as HXlt.
  set (R := λ (done : list string) (p q : string * series),
         q.1 = p.1 ∧ if decide (p.1 ∈ done) then q.2 = encoded p.2 else q = p).
  set (I := λ (done : list string) (w1 : world),
         ∃ fr, heap w1 = <[X := fr]> (heap w) ∧ index_len fr = index_len sel
               ∧ Forall2 (R done) (columns sel) (columns fr)
               ∧ (∀ c xs, c ∈ done → (c, ObjectSeries xs) ∈ columns sel →
                    label_encoders (self w1) !! c = Some (classes_ (astype_str xs)))
               ∧ (∀ c, c ∉ done →
                    label_encoders (self w1) !! c = label_encoders (self w) !! c)
               ∧ same_but_encoders (self w) (self w1)).
  assert (I ([] ++ labels sel) w') as (fr & Hheap & Hlen & Hcols & Henc & Hrest & Hsame).
  { eapply (for_each_ok I); [| |exact Hrun].
    - clear Hrun w'. intros col done w1 w2 (fr & Hheap & Hlen & Hcols & Henc & Hrest & Hsame) Hstep.
      eapply (encode_column_run _ _ _ _ fr) in Hstep as (s & Hget & Hheap2 & Hself2).
      2:{ rewrite Hheap. by apply list_lookup_insert_eq. }
      exists (with_column fr col (encoded s)).
      split; [by rewrite Hheap2, Hheap, list_insert_insert_eq|].
      split; [done|].
      (* the column under [col], in the frame and in the selection *)
      assert (∀ p q, p ∈ columns sel → q ∈ columns fr → R done p q → p.1 = col →
                q = (col, s)
                ∧ if decide (col ∈ done) then s = encoded p.2 else p = (col, s)) as Hcol.
      { intros p q Hp Hq [Hq1 HR] Hp1.
        pose proof (getitem_singleton _ _ _ _ Hget Hq ltac:(congruence)) as Hqs.
        split; [done|]. rewrite Hp1 in HR. destruct (decide (col ∈ done)).
        - rewrite Hqs in HR. done.
        - congruence. }
      split; [|split; [|split]].
      + simpl. apply Forall2_fmap_r. eapply Forall2_impl_in; [exact Hcols|].
        intros p q Hp Hq HRpq. pose proof HRpq as [Hq1 HR]. subst R. cbv beta in *.
        unfold compose. cbv beta.
        destruct (decide (q.1 = col)) as [Hqcol|Hqcol]; simpl.
        * split; [congruence|].
          rewrite decide_True by (apply elem_of_app; right; rewrite <- Hqcol, Hq1; left).
          destruct (Hcol p q Hp Hq HRpq ltac:(congruence)) as [_ Hs].
          destruct (decide (col ∈ done)).
          -- rewrite Hs. by destruct (p.2).
          -- rewrite Hs. done.
        * split; [done|]. destruct (decide (p.1 ∈ done)) as [Hdone|Hdone].
          -- rewrite decide_True by (apply elem_of_app; by left). done.
          -- rewrite decide_False; [done|].
             intros [?|Hin]%elem_of_app; [done|].
             apply list_elem_of_singleton in Hin. congruence.
      + intros c xs Hc Hin.
        destruct (decide (c = col)) as [->|Hne].
        * (* the column just encoded *)
          apply list_elem_of_lookup in Hin as [i Hi].
          destruct (Forall2_lookup_l _ _ _ _ _ Hcols Hi) as (q & Hqi & HRq).
          destruct (Hcol (col, ObjectSeries xs) q) as [_ Hs];
            [by eapply list_elem_of_lookup_2|by eapply list_elem_of_lookup_2|done|done|].
          destruct (decide (col ∈ done)) as [Hdone|Hdone].
          -- simpl in Hs. subst s. rewrite Hself2.
             apply (Henc col xs Hdone). by eapply list_elem_of_lookup_2.
          -- injection Hs as <-. rewrite Hself2. simpl. apply lookup_insert_eq.
        * apply elem_of_app in Hc as [Hc|Hc%list_elem_of_singleton]; [|done].
          rewrite Hself2. destruct s; simpl; rewrite ?lookup_insert_ne by done;
            by apply Henc.
      + intros c Hc. rewrite Hself2.
        assert ((c ∉ done) ∧ c ≠ col) as [Hc1 Hc2].
        { split; intros ?; apply Hc, elem_of_app; [by left|right]. by apply list_elem_of_singleton. }
        destruct s; simpl; rewrite ?lookup_insert_ne by done; by apply Hrest.
      + rewrite Hself2. by destruct s.
    - exists sel. split; [by rewrite list_insert_id|]. split; [done|].
      split; [|split; [|split]].
      + apply Forall_Forall2_diag, Forall_forall. intros p _. subst R. cbv beta.
        split; [done|].
        destruct (decide (p.1 ∈ [])) as [Hin|]; [by apply elem_of_nil in Hin|done].
      + by intros c xs ?%elem_of_nil.
      + done.
      + apply same_but_encoders_refl. }
  exists fr. split; [done|]. split; [done|]. split; [|split; [|split]].
  - eapply Forall2_impl_in; [exact Hcols|].
    intros p q Hp _ [Hq1 Hq]. split; [done|].
    rewrite decide_True in Hq; [done|].
    simpl. unfold labels. apply list_elem_of_fmap. by exists p.
  - intros c xs Hin. apply Henc; [|done]. simpl. apply list_elem_of_fmap. by exists (c, ObjectSeries xs).
  - intros c Hc. by apply Hrest.
  - done.
Qed.

End encoding.

Section shape.
Import MLPipeline.
Context (lib : library).

Lemma filter_label_NoDup df f :
  NoDup (labels df) → f ∈ labels df →
  ∃ s, filter (λ p, p.1 = f) (columns df) = [(f, s)].
Proof.
  unfold labels. induction (columns df) as [|[c s] l IH]; simpl.
  - by intros _ ?%elem_of_nil.
  - intros [Hc Hnd]%NoDup_cons Hin. rewrite filter_cons. simpl.
    case_decide as Hcf.
    + subst c. exists s. f_equal.
      destruct (filter _ l) as [|[c' s'] l'] eqn:Hf; [done|]. exfalso.
      assert ((c', s') ∈ filter (λ p, p.1 = f) l) as Hin' by (rewrite Hf; left).
      apply list_elem_of_filter in Hin' as [Heq Hin']. simpl in Heq. subst c'.
      apply Hc. apply list_elem_of_fmap. by exists (f, s').
    + apply elem_of_cons in Hin as [?|Hin]; [done|]. by apply IH.
Qed.

(** [df[input_features]]: the rows of [df], columns of [df], and under
    distinct labels exactly the columns asked for, in the order asked. *)
Lemma select_ok df input_features selected :
  select df input_features = Ok selected →
  index_len selected = index_len df
  ∧ (∀ p, p ∈ columns selected → p ∈ columns df)
  ∧ (∀ f, f ∈ input_features → f ∈ labels df)
  ∧ (NoDup (labels df) → labels selected = input_features).
Proof.
  unfold select. destruct (filter _ input_features) as [|m ms] eqn:Hmiss; [|done].
  intros [= <-]. simpl. split; [done|].
  pose proof (proj1 (missing_features_nil df input_features) Hmiss) as Hall.
  split; [|split; [done|]].
  - intros p (f & Hp & Hf)%list_elem_of_bind. by apply list_elem_of_filter in Hp as [_ Hp].
  - intros Hnd. unfold labels at 1. simpl. clear Hmiss.
    induction input_features as [|f fs IH]; [done|]. simpl.
    destruct (filter_label_NoDup df f Hnd) as (s & ->); [apply Hall; left|].
    simpl. f_equal. apply IH. intros f' Hf'. apply Hall. by right.
Qed.

Lemma series_len_encoded s : series_len (encoded s) = series_len s.
Proof.
  destruct s as [xs|xs|xs]; try done. simpl. unfold label_encode, astype_str.
  by rewrite !length_map.
Qed.

Lemma with_column_wf fr col v :
  frame_wf fr → series_len v = index_len fr → frame_wf (with_column fr col v).
Proof.
  intros Hwf Hlen c s Hin. unfold with_column in Hin. simpl in *.
  apply list_elem_of_fmap in Hin as (p & Heq & Hp).
  case_decide; [by injection Heq as -> ->|]. subst p. by eapply Hwf.
Qed.

(** The imputation loop keeps one value per row in every column: a
    result of another length is refused by the assignment. *)
Lemma impute_loop_wf X strategy cols w w' fr :
  heap w !! X = Some fr → frame_wf fr →
  for_each cols (impute_column X strategy) w = (Ok (), w') →
  ∃ fr', heap w' !! X = Some fr' ∧ frame_wf fr'.
Proof.
  intros HX Hwf Hrun.
  eapply (for_each_ok (λ _ w1, ∃ fr', heap w1 !! X = Some fr' ∧ frame_wf fr') _ cols []);
    [| |exact Hrun]; [|by exists fr].
  clear. intros col _ w1 w2 (fr1 & HX1 & Hwf1) Hstep. simpl.
  unfold impute_column in Hstep. rewrite run_deref in Hstep.
  rewrite (list_lookup_total_correct _ _ _ HX1) in Hstep.
  assert (∀ values, setitem X col values w1 = (Ok (), w2) →
            ∃ fr', heap w2 !! X = Some fr' ∧ frame_wf fr') as Hset.
  { intros values Hs. eapply setitem_ok in Hs as [Hlen ->]; [|done].
    eexists. split; [apply heap_with_frame; by eapply lookup_lt_Some|].
    by apply with_column_wf. }
  destruct (getitem fr1 col) as [|s [|? ?]]; [done| |done].
  destruct (isna_any s); [|injection Hstep as <-; by exists fr1].
  destruct (is_numeric_dtype s).
  - destruct (simple_imputer strategy s); [|done]. rewrite run_lift_ok in Hstep. by eapply Hset.
  - destruct (simple_imputer "most_frequent" s); [|done].
    rewrite run_lift_ok in Hstep. by eapply Hset.
Qed.

Lemma column_floats_length s xs : column_floats s = Ok xs → length xs = series_len s.
Proof.
  destruct s as [zs|ys|ys]; simpl.
  - intros [= <-]. by rewrite length_map.
  - by intros [= <-].
  - destruct (omap id ys); [|done]. intros [= <-]. by rewrite length_map.
Qed.

Lemma frame_floats_shape cols m :
  frame_floats cols = Ok m →
  Forall2 (λ p xs, length xs = series_len p.2) cols m.
Proof.
  revert m. induction cols as [|[c s] cols IH]; intros m; simpl.
  - intros [= <-]. constructor.
  - destruct (column_floats s) as [xs|] eqn:Hs; simpl; [|done].
    destruct (frame_floats cols) as [rest|]; simpl; [|done].
    intros [= <-]. constructor; [by apply column_floats_length|by apply IH].
Qed.

Lemma affine_length c s xs : length (affine c s xs) = length xs.
Proof. unfold affine. destruct c, s; by rewrite length_map. Qed.

(** A frame made of the scaled columns has the rows and the labels of the
    frame that was scaled. *)
Lemma as_frame_shape fr m (f : list (option float) → list (option float)) :
  frame_wf fr → check_array fr = Ok m →
  (∀ xs, length (f xs) = length xs) →
  frame_wf (as_frame (labels fr) (index_len fr) (map f m))
  ∧ labels (as_frame (labels fr) (index_len fr) (map f m)) = labels fr.
Proof.
  intros Hwf Hm Hf. unfold check_array in Hm.
  destruct (frame_floats (columns fr)) as [m'|] eqn:Hfloats; simpl in Hm; [|done].
  assert (m' = m) as -> by (repeat destruct (_ =? _)%nat; congruence). clear Hm.
  apply frame_floats_shape in Hfloats.
  split.
  - intros c s Hin. unfold as_frame in *. simpl in *.
    apply elem_of_zip_r in Hin.
    apply list_elem_of_fmap in Hin as (ys & -> & Hys).
    apply list_elem_of_fmap in Hys as (xs & -> & Hxs).
    simpl. rewrite Hf.
    apply list_elem_of_lookup in Hxs as [i Hi].
    destruct (Forall2_lookup_r _ _ _ _ _ Hfloats Hi) as ([c' s'] & Hp & Hlen).
    rewrite Hlen. simpl. apply (Hwf c'). by eapply list_elem_of_lookup_2.
  - unfold labels, as_frame. simpl. apply fst_zip.
    rewrite !length_map. by rewrite (Forall2_length _ _ _ Hfloats).
Qed.

Lemma scale_stage_shape X config w X' w' fr :
  heap w !! X = Some fr → frame_wf fr →
  scale_stage lib X config w = (Ok X', w') →
  ∃ fr', heap w' !! X' = Some fr' ∧ frame_wf fr'
         ∧ index_len fr' = index_len fr ∧ labels fr' = labels fr.
Proof.
  intros HX Hwf. unfold scale_stage.
  assert (∀ unfitted ft (f : list (option float) → list (option float)),
    (∀ xs, length (f xs) = length xs) →
    (∀ out, ft fr = Ok out → ∃ m, check_array fr = Ok m ∧ out.2 = map f m) →
    scale X unfitted ft w = (Ok X', w') →
    ∃ fr', heap w' !! X' = Some fr' ∧ frame_wf fr'
           ∧ index_len fr' = index_len fr ∧ labels fr' = labels fr) as Hscale.
  { intros unfitted ft f Hf Hft (out & Hout & -> & Hheap & _)%scale_ok.
    rewrite (list_lookup_total_correct _ _ _ HX) in Hout, Hheap.
    destruct (Hft out Hout) as (m & Hm & Hout2). rewrite Hout2 in Hheap.
    destruct (as_frame_shape fr m f Hwf Hm Hf) as [Hwf' Hlabels].
    eexists. rewrite Hheap. split; [by rewrite lookup_app_r, Nat.sub_diag|]. done. }
  destruct (default false (standardization config)).
  { apply (Hscale _ _ (standardize_column lib)).
    - intros xs. apply affine_length.
    - intros out. unfold standard_fit_transform.
      destruct (check_array fr) as [m|]; simpl; [|done]. intros [= <-]. by exists m. }
  destruct (default false (normalization config)).
  { apply (Hscale _ _ minmax_column).
    - intros xs. apply affine_length.
    - intros out. unfold minmax_fit_transform.
      destruct (check_array fr) as [m|]; simpl; [|done]. intros [= <-]. by exists m. }
  intros [= <- <-]. by exists fr.
Qed.

Lemma Forall2_labels (R : string * series → string * series → Prop) cols cols' :
  Forall2 R cols cols' → (∀ p q, R p q → q.1 = p.1) → cols'.*1 = cols.*1.
Proof.
  intros H HR. induction H as [|p q l k Hpq _ IH]; [done|].
  rewrite !fmap_cons. f_equal; [by apply HR|done].
Qed.

Lemma getitem_elem df c s : s ∈ getitem df c → (c, s) ∈ columns df.
Proof.
  unfold getitem. intros ([c' s'] & -> & Hin)%list_elem_of_fmap.
  apply list_elem_of_filter in Hin as [Hc Hin]. simpl in *. by subst.
Qed.

Lemma encode_target_len y target_variable w t w' :
  encode_target y target_variable w = (Ok t, w') →
  ∃ s, y = [s] ∧ target_len t = series_len s.
Proof.
  unfold encode_target.
  destruct y as [|[ys|ys|ys] [|? ?]]; try done; intros H.
  - injection H as <- <-. by eexists.
  - injection H as <- <-. by eexists.
  - rewrite run_update_self in H. injection H as <- <-. eexists. split; [done|].
    simpl. unfold label_encode, astype_str. by rewrite !length_map.
Qed.

(** The stages of a successful call, frame by frame. *)
Lemma preprocess_data_frames df input_features target_variable config w X y w' :
  preprocess_data lib df input_features target_variable config w = (Ok (X, y), w') →
  ∃ selected fr1 fr2 w3 w4,
    let X0 := S (S (length (heap w))) in
    select (heap w !!! df) input_features = Ok selected
    ∧ index_len fr1 = index_len selected
    ∧ Forall2 (λ p q, q.1 = p.1 ∧ prepared config p.2 = Ok q.2)
              (columns selected) (columns fr1)
    ∧ (frame_wf selected → frame_wf fr1)
    ∧ index_len fr2 = index_len fr1
    ∧ (if default false (encode_categories config) then
         Forall2 (λ p q, q.1 = p.1 ∧ q.2 = encoded p.2) (columns fr1) (columns fr2)
         ∧ (∀ c xs, (c, ObjectSeries xs) ∈ columns fr1 →
              label_encoders (self w3) !! c = Some (classes_ (astype_str xs)))
       else fr2 = fr1)
    ∧ heap w3 !! X0 = Some fr2
    ∧ encode_target (getitem (heap w !!! df) target_variable) target_variable w3
      = (Ok y, w4)
    ∧ heap w4 = heap w3
    ∧ scale_stage lib X0 config w4 = (Ok X, w').
Proof.
  intros (selected & w2 & w3 & w4 & Hsel & _ & Himp & Henc & Htgt & Hscale)
    %preprocess_data_ok.
  cbv zeta in *. set (X0 := S (S (length (heap w)))) in *.
  pose proof (after_prologue_X w df selected input_features target_variable) as HX0.
  fold X0 in HX0.
  set (w1 := after_prologue w df selected input_features target_variable) in *.
  assert (∃ fr1, heap w2 !! X0 = Some fr1
            ∧ index_len fr1 = index_len selected
            ∧ Forall2 (λ p q, q.1 = p.1 ∧ prepared config p.2 = Ok q.2)
                      (columns selected) (columns fr1)
            ∧ (frame_wf selected → frame_wf fr1))
    as (fr1 & Hfr1 & Hlen1 & Hcols1 & Hwf1).
  { unfold impute_stage in Himp. unfold prepared.
    destruct (default false (handle_missing config)).
    - pose proof Himp as Himp'.
      eapply impute_loop_ok in Himp as (fr & -> & Hlen & Hcols); [|exact HX0].
      exists fr. split; [apply heap_with_frame; by eapply lookup_lt_Some|].
      split; [done|]. split; [done|].
      intros Hwf. eapply impute_loop_wf in Himp' as (fr' & Hfr' & Hwf'); [|exact HX0|done].
      rewrite heap_with_frame in Hfr' by by eapply lookup_lt_Some. by injection Hfr' as <-.
    - injection Himp as <-. exists selected. split; [done|]. split; [done|]. split; [|done].
      apply Forall_Forall2_diag, Forall_forall. done. }
  assert (labels fr1 = labels selected) as Hlabels1
    by (eapply Forall2_labels; [exact Hcols1|by intros p q [? _]]).
  assert (∃ fr2, heap w3 !! X0 = Some fr2 ∧ index_len fr2 = index_len fr1
            ∧ if default false (encode_categories config) then
                Forall2 (λ p q, q.1 = p.1 ∧ q.2 = encoded p.2) (columns fr1) (columns fr2)
                ∧ (∀ c xs, (c, ObjectSeries xs) ∈ columns fr1 →
                     label_encoders (self w3) !! c = Some (classes_ (astype_str xs)))
              else fr2 = fr1) as (fr2 & Hfr2 & Hlen2 & Hcols2).
  { unfold encode_stage in Henc. destruct (default false (encode_categories config)).
    - rewrite <- Hlabels1 in Henc.
      eapply encode_loop_run in Henc as (fr2 & Hheap & Hlen & Hcols & Hencs & _); [|exact Hfr1].
      exists fr2. split; [|done]. rewrite Hheap. apply list_lookup_insert_eq.
      by eapply lookup_lt_Some.
    - injection Henc as <-. by exists fr1. }
  exists selected, fr1, fr2, w3, w4. cbv zeta. fold X0.
  pose proof (encode_target_heap _ _ _ _ _ Htgt) as Hheap4.
  done.
Qed.

(** X12.  The shape of what [preprocess_data] returns.  From a frame with one
    value per row in every column, the feature matrix has one value per row in
    every column and as many rows as the frame, and so has the target vector:
    the split that follows never meets inputs of inconsistent lengths.  From a
    frame with distinct labels, the columns of the matrix are the features
    asked for, in the order asked. *)
Theorem preprocess_data_shape df input_features target_variable config w X y w' :
  frame_wf (heap w !!! df) →
  preprocess_data lib df input_features target_variable config w = (Ok (X, y), w') →
  ∃ fr, heap w' !! X = Some fr
    ∧ frame_wf fr
    ∧ index_len fr = index_len (heap w !!! df)
    ∧ target_len y = index_len (heap w !!! df)
    ∧ (NoDup (labels (heap w !!! df)) → labels fr = input_features).
Proof.
  intros Hwf (selected & fr1 & fr2 & w3 & w4 & H)%preprocess_data_frames.
  cbv zeta in H.
  destruct H as (Hsel & Hlen1 & Hcols1 & Hwf1 & Hlen2 & Hcols2 & Hfr2 & Htgt & Hheap4 & Hscale).
  apply select_ok in Hsel as (Hlen0 & Hsub & _ & Hlabels0).
  assert (frame_wf selected) as Hwf0.
  { intros c s Hin. rewrite Hlen0. apply (Hwf c). by apply Hsub. }
  specialize (Hwf1 Hwf0).
  assert (frame_wf fr2 ∧ labels fr2 = labels fr1) as [Hwf2 Hlabels2].
  { destruct (default false (encode_categories config)); [|by subst].
    destruct Hcols2 as [Hcols2 _]. split; [|eapply Forall2_labels; [exact Hcols2|by intros p q [? _]]].
    intros c s Hin. apply list_elem_of_lookup in Hin as [i Hi].
    destruct (Forall2_lookup_r _ _ _ _ _ Hcols2 Hi) as ([c' s'] & Hp & _ & Hs).
    simpl in Hs. subst s. rewrite series_len_encoded, Hlen2.
    apply (Hwf1 c'). by eapply list_elem_of_lookup_2. }
  rewrite <- Hheap4 in Hfr2.
  destruct (scale_stage_shape _ _ _ _ _ _ Hfr2 Hwf2 Hscale) as (fr & Hfr & Hwf3 & Hlen3 & Hlabels3).
  exists fr. split; [done|]. split; [done|].
  split; [congruence|]. split.
  - apply encode_target_len in Htgt as (s & Hy & ->).
    apply (Hwf target_variable). apply getitem_elem. rewrite Hy. left.
  - intros Hnd. rewrite Hlabels3, Hlabels2.
    unfold labels at 1.
    rewrite (Forall2_labels _ _ _ Hcols1) by (by intros p q [? _]). by apply Hlabels0.
Qed.

(** X13.  The encoding of the features.  With [encode_categories] set, the
    feature matrix that [preprocess_data] returns has no column of texts.
    Without scaling its columns are the selected ones, imputed when that is
    asked for, with every column of texts replaced by the integer codes of a
    label encoder fitted on it; that encoder is kept under the label of the
    column (unless the target, encoded last, has the same label), and its
    codes index the sorted distinct texts of the column. *)
Theorem preprocess_data_encodes_features
    df input_features target_variable config w X y w' :
  encode_categories config = Some true →
  preprocess_data lib df input_features target_variable config w = (Ok (X, y), w') →
  ∃ selected fr1 fr,
    select (heap w !!! df) input_features = Ok selected
    ∧ Forall2 (λ p q, q.1 = p.1 ∧ prepared config p.2 = Ok q.2)
              (columns selected) (columns fr1)
    ∧ heap w' !! X = Some fr
    ∧ (∀ c s, (c, s) ∈ columns fr → is_numeric_dtype s = true)
    ∧ (default false (standardization config) = false →
       default false (normalization config) = false →
       Forall2 (λ p q, q.1 = p.1 ∧ q.2 = encoded p.2) (columns fr1) (columns fr))
    ∧ (∀ c xs, (c, ObjectSeries xs) ∈ columns fr1 → c ≠ target_variable →
         label_encoders (self w') !! c = Some (classes_ (astype_str xs))
         ∧ ∀ i v, astype_str xs !! i = Some v →
             ∃ k, label_encode (astype_str xs) !! i = Some (Z.of_nat k)
                  ∧ classes_ (astype_str xs) !! k = Some v).
Proof.
  intros Hflag (selected & fr1 & fr2 & w3 & w4 & H)%preprocess_data_frames.
  cbv zeta in H.
  destruct H as (Hsel & Hlen1 & Hcols1 & _ & Hlen2 & Hcols2 & Hfr2 & Htgt & Hheap4 & Hscale).
  rewrite Hflag in Hcols2. simpl in Hcols2. destruct Hcols2 as [Hcols2 Hencs].
  assert (∀ c s, (c, s) ∈ columns fr2 → is_numeric_dtype s = true) as Hnum2.
  { intros c s Hin. apply list_elem_of_lookup in Hin as [i Hi].
    destruct (Forall2_lookup_r _ _ _ _ _ Hcols2 Hi) as ([c' s'] & _ & _ & Hs).
    simpl in Hs. subst s. by destruct s'. }
  assert (∃ fr, heap w' !! X = Some fr
            ∧ (∀ c s, (c, s) ∈ columns fr → is_numeric_dtype s = true)
            ∧ (default false (standardization config) = false →
               default false (normalization config) = false → fr = fr2))
    as (fr & Hfr & Hnum & Hplain).
  { rewrite <- Hheap4 in Hfr2. unfold scale_stage in Hscale.
    assert (∀ unfitted ft, scale (S (S (length (heap w)))) unfitted ft w4 = (Ok X, w') →
              ∃ fr, heap w' !! X = Some fr
                ∧ (∀ c s, (c, s) ∈ columns fr → is_numeric_dtype s = true)) as Hscaled.
    { intros unfitted ft (out & _ & -> & Hheap & _)%scale_ok.
      eexists. rewrite Hheap. split; [by rewrite lookup_app_r, Nat.sub_diag|].
      intros c s Hin. unfold as_frame in Hin. simpl in Hin.
      apply elem_of_zip_r in Hin. by apply list_elem_of_fmap in Hin as (xs & -> & _). }
    destruct (default false (standardization config)).
    { destruct (Hscaled _ _ Hscale) as (fr & ? & ?). by exists fr. }
    destruct (default false (normalization config)).
    { destruct (Hscaled _ _ Hscale) as (fr & ? & ?). by exists fr. }
    injection Hscale as <- <-. by exists fr2. }
  exists selected, fr1, fr. split; [done|]. split; [done|]. split; [done|].
  split; [done|]. split.
  { intros Hstd Hnorm. by rewrite (Hplain Hstd Hnorm). }
  intros c xs Hin Hne. split; [|intros i v; apply label_encode_decodes].
  rewrite (scale_stage_label_encoders _ _ _ _ _ _ Hscale).
  unfold encode_target in Htgt.
  destruct (getitem _ target_variable) as [|[ys|ys|ys] [|? ?]]; try done.
  - injection Htgt as _ <-. by apply Hencs.
  - injection Htgt as _ <-. by apply Hencs.
  - rewrite run_update_self in Htgt. injection Htgt as _ <-. simpl.
    rewrite lookup_insert_ne by done. by apply Hencs.
Qed.

End shape.

(** The sample frame with gaps, imputed and nothing else. *)
Lemma preprocess_data_shape_witness :
  ∃ fr,
    MLPipeline.heap
      (MLPipeline.preprocess_data Sample.lib 0 ["age"; "city"] "label"
         Sample.config_impute_only (Sample.uploaded Sample.with_gaps)).2 !! 3%nat = Some fr
    ∧ frame_wf fr
    ∧ index_len fr = 10%nat
    ∧ labels fr = ["age"; "city"].
Proof.
  edestruct (preprocess_data_shape Sample.lib 0 ["age"; "city"] "label"
               Sample.config_impute_only (Sample.uploaded Sample.with_gaps) 3
               (IntTarget [1; 0; 1; 0; 1; 0; 1; 0; 1; 0]))
    as (fr & Hfr & Hwf & Hlen & _ & Hlabels).
  - intros c s Hin. simpl in Hin.
    repeat (apply elem_of_cons in Hin as [[= -> ->]|Hin]; [reflexivity|]).
    by apply elem_of_nil in Hin.
  - vm_compute. reflexivity.
  - exists fr. split; [exact Hfr|]. split; [exact Hwf|]. split; [exact Hlen|].
    apply Hlabels. simpl. repeat constructor; set_solver.
Defined.

(** The sample frame with gaps, imputed, encoded and normalized: the label
    encoder of [city]. *)
Lemma preprocess_data_encodes_features_witness :
  ∃ fr,
    MLPipeline.heap
      (MLPipeline.preprocess_data Sample.lib 0 ["age"; "city"] "label"
         Sample.config_all (Sample.uploaded Sample.with_gaps)).2 !! 4%nat = Some fr
    ∧ (∀ c s, (c, s) ∈ columns fr → is_numeric_dtype s = true)
    ∧ MLPipeline.label_encoders
        (MLPipeline.self
           (MLPipeline.preprocess_data Sample.lib 0 ["age"; "city"] "label"
              Sample.config_all (Sample.uploaded Sample.with_gaps)).2) !! "city"
      = Some ["Lima"; "Oslo"; "Rome"].
Proof.
  destruct (preprocess_data_encodes_features Sample.lib 0 ["age"; "city"] "label"
              Sample.config_all (Sample.uploaded Sample.with_gaps) 4
              (IntTarget [1; 0; 1; 0; 1; 0; 1; 0; 1; 0]) _ eq_refl
              ltac:(vm_compute; reflexivity))
    as (selected & fr1 & fr & _ & _ & Hfr & Hnum & _).
  exists fr. split; [exact Hfr|]. split; [exact Hnum|]. by vm_compute.
Defined.

(* ===================================================================== *)
(** * Properties of scaling                                                *)
(* ===================================================================== *)

Section scaling.
Import MLPipeline.
Context (lib : library).

Lemma scaled_columns X unfitted ft (f : list (option float) → list (option float)) w X' w' :
  (∀ out, ft (heap w !!! X) = Ok out → ∃ m, out.2 = map f m) →
  scale X unfitted ft w = (Ok X', w') →
  ∃ fr out, heap w' !! X' = Some fr
    ∧ scaler (self w') = Some out.1
    ∧ ft (heap w !!! X) = Ok out
    ∧ ∀ c s, (c, s) ∈ columns fr → ∃ xs, s = FloatSeries (f xs).
Proof.
  intros Hft (out & Hout & -> & Hheap & Hself)%scale_ok.
  destruct (Hft out Hout) as (m & Hm).
  eexists _, out. rewrite Hheap. split; [by rewrite lookup_app_r, Nat.sub_diag|].
  split; [by rewrite Hself|]. split; [done|].
  intros c s Hin. unfold as_frame in Hin. simpl in Hin. rewrite Hm in Hin.
  apply elem_of_zip_r in Hin.
  apply list_elem_of_fmap in Hin as (ys & -> & Hys).
  apply list_elem_of_fmap in Hys as (xs & -> & _). by exists xs.
Qed.

(** X15.  The scaler.  With [standardization] set, whatever
    [normalization] says, [preprocess_data] keeps a fitted [StandardScaler]
    in [self.scaler]; with [normalization] set and [standardization] not, a
    fitted [MinMaxScaler].  Either way every column of the feature matrix it
    returns is a column of floats. *)
Theorem preprocess_data_standardizes df input_features target_variable config w X y w' :
  default false (standardization config) || default false (normalization config) = true →
  preprocess_data lib df input_features target_variable config w = (Ok (X, y), w') →
  ∃ fr stats,
    heap w' !! X = Some fr
    ∧ scaler (self w')
      = Some (if default false (standardization config)
              then StandardScaler (Some stats) else MinMaxScaler (Some stats))
    ∧ ∀ c s, (c, s) ∈ columns fr → ∃ xs, s = FloatSeries xs.
Proof.
  intros Hany (selected & w2 & w3 & w4 & _ & _ & _ & _ & _ & Hscale)%preprocess_data_ok.
  cbv zeta in Hscale. unfold scale_stage in Hscale.
  destruct (default false (standardization config)) eqn:Hstd.
  - eapply (scaled_columns _ _ _ (standardize_column lib)) in Hscale
      as (fr & out & Hfr & Hsc & Hout & Hcols).
    2:{ intros out. unfold standard_fit_transform.
        destruct (check_array _) as [m|]; simpl; [|done]. intros [= <-]. by exists m. }
    unfold standard_fit_transform in Hout.
    destruct (check_array _) as [m|]; simpl in Hout; [|done]. injection Hout as <-.
    eexists fr, _. split; [done|]. split; [exact Hsc|].
    intros c s Hin. destruct (Hcols c s Hin) as (xs & ->). by eexists.
  - simpl in Hany. rewrite Hany in Hscale.
    eapply (scaled_columns _ _ _ minmax_column) in Hscale
      as (fr & out & Hfr & Hsc & Hout & Hcols).
    2:{ intros out. unfold minmax_fit_transform.
        destruct (check_array _) as [m|]; simpl; [|done]. intros [= <-]. by exists m. }
    unfold minmax_fit_transform in Hout.
    destruct (check_array _) as [m|]; simpl in Hout; [|done]. injection Hout as <-.
    eexists fr, _. split; [done|]. split; [exact Hsc|].
    intros c s Hin. destruct (Hcols c s Hin) as (xs & ->). by eexists.
Qed.

End scaling.

(** Both scalers asked for at once: the sample frame is standardized. *)
Lemma preprocess_data_standardizes_witness :
  ∃ fr stats,
    MLPipeline.heap
      (MLPipeline.preprocess_data Sample.lib 0 ["age"] "label"
         Sample.config_standardize (Sample.uploaded Sample.with_gaps)).2 !! 4%nat = Some fr
    ∧ MLPipeline.scaler
        (MLPipeline.self
           (MLPipeline.preprocess_data Sample.lib 0 ["age"] "label"
              Sample.config_standardize (Sample.uploaded Sample.with_gaps)).2)
      = Some (StandardScaler (Some stats))
    ∧ ∀ c s, (c, s) ∈ columns fr → ∃ xs, s = FloatSeries xs.
Proof.
  destruct (preprocess_data_standardizes Sample.lib 0 ["age"] "label"
              Sample.config_standardize (Sample.uploaded Sample.with_gaps) 4
              (IntTarget [1; 0; 1; 0; 1; 0; 1; 0; 1; 0]) _ eq_refl
              ltac:(vm_compute; reflexivity))
    as (fr & stats & Hfr & Hsc & Hcols).
  exists fr, stats. split; [exact Hfr|]. split; [exact Hsc|exact Hcols].
Defined.

(* ===================================================================== *)
(** * Further properties of the split                                      *)
(* ===================================================================== *)

Section partition.
Import MLPipeline.
Context (lib : library).

Lemma take_rows_length {A} (idx : list nat) (xs : list A) :
  (∀ i, i ∈ idx → (i < length xs)%nat) → length (take_rows idx xs) = length idx.
Proof.
  unfold take_rows. induction idx as [|i idx IH]; intros Hidx; csimpl; [done|].
  destruct (lookup_lt_is_Some_2 xs i) as [x Hx]; [apply Hidx; left|].
  rewrite Hx. csimpl. f_equal. apply IH. intros j Hj. apply Hidx. by right.
Qed.

Lemma target_rows_length idx y :
  (∀ i, i ∈ idx → (i < target_len y)%nat) → target_len (target_rows idx y) = length idx.
Proof. destruct y; simpl; apply take_rows_length. Qed.

(** X16.  The unstratified split loses no row and uses none twice.  When
    [split_data] does not stratify and the permutation the library draws for
    the seed is one of the rows, a split that succeeds assigns every row to
    exactly one of the two partitions: the test partition gets
    [ceil(test_size * n)] rows, the product rounded as floats are, the train
    partition the others, at least one; features and target are cut along the
    same rows. *)
Theorem split_data_partition X y test_size random_state w w' :
  stratify_param y = Ok None →
  Lib.rng_permutation lib random_state (target_len y) ≡ₚ seq 0 (target_len y) →
  split_data lib X y test_size random_state w = (Ok (), w') →
  ∃ sp train test,
    train_test (self w') = Some sp
    ∧ test ++ train ≡ₚ seq 0 (target_len y)
    ∧ length test
      = Z.to_nat (ceil (float_mul test_size (float_of_nat (target_len y))))
    ∧ (0 < length train)%nat
    ∧ X_train sp = frame_rows train (heap w !!! X)
    ∧ X_test sp = frame_rows test (heap w !!! X)
    ∧ y_train sp = target_rows train y
    ∧ y_test sp = target_rows test y
    ∧ (target_len (y_train sp) + target_len (y_test sp))%nat = target_len y.
Proof.
  intros Hs Hperm. rewrite (split_data_unfold _ _ _ _ _ _ _ Hs).
  unfold train_test_split. case_decide as Hts; [done|].
  destruct (index_len (heap w !!! X) =? target_len y)%nat eqn:Hrows; simpl; [|done].
  apply Nat.eqb_eq in Hrows. rewrite Hrows.
  unfold validate_shuffle_split.
  set (n := target_len y) in *.
  set (n_test := Z.to_nat (ceil (float_mul test_size (float_of_nat n)))).
  destruct (n - n_test =? 0)%nat eqn:Htrain; simpl; [done|].
  apply Nat.eqb_neq in Htrain. intros [= <-].
  set (train := take (n - n_test) (drop n_test (Lib.rng_permutation lib random_state n))).
  set (test := take n_test (Lib.rng_permutation lib random_state n)).
  assert (test ++ train ≡ₚ seq 0 n) as Hpart.
  { apply (shuffle_split_partition lib random_state n (n - n_test) n_test Hperm). lia. }
  assert (length test = n_test) as Htest.
  { subst test. rewrite length_take, (Permutation_length Hperm), length_seq. lia. }
  assert (length train = (n - n_test)%nat) as Htrain'.
  { apply Permutation_length in Hpart. rewrite length_app, length_seq in Hpart. lia. }
  assert (∀ i, i ∈ test ++ train → (i < n)%nat) as Hrange.
  { intros i Hi. rewrite Hpart in Hi. apply elem_of_seq in Hi. lia. }
  eexists _, train, test.
  cbn [train_test self set_train_test y_train y_test X_train X_test snd].
  split; [done|]. split; [done|]. split; [done|].
  split; [lia|]. do 4 (split; [done|]).
  cbn [y_train y_test]. rewrite !target_rows_length; [lia| |].
  - intros i Hi. apply Hrange, elem_of_app. by left.
  - intros i Hi. apply Hrange, elem_of_app. by right.
Qed.

End partition.

(** Ten rows with a lone class, split 70 to 30 by the sample library. *)
Lemma split_data_partition_witness :
  ∃ sp,
    MLPipeline.train_test
      (MLPipeline.self
         (MLPipeline.split_data Sample.lib 0
            (IntTarget [0; 0; 0; 1; 0; 0; 0; 0; 0; 0]) (Q2Qc (3 # 10)) 42
            (Sample.uploaded Sample.well_formed)).2) = Some sp
    ∧ target_len (MLPipeline.y_train sp) = 7%nat
    ∧ target_len (MLPipeline.y_test sp) = 3%nat.
Proof.
  edestruct (split_data_partition Sample.lib 0
               (IntTarget [0; 0; 0; 1; 0; 0; 0; 0; 0; 0]) (Q2Qc (3 # 10)) 42
               (Sample.uploaded Sample.well_formed))
    as (sp & train & test & Hsp & _ & Htest & _ & _ & _ & Htr & Hte & Hsum).
  - by vm_compute.
  - apply reverse_Permutation.
  - vm_compute. reflexivity.
  - exists sp. split; [exact Hsp|].
    assert (target_len (MLPipeline.y_test sp) = 3%nat) as H3.
    { clear -Hsp. vm_compute in Hsp. injection Hsp as <-. reflexivity. }
    split; [|exact H3]. rewrite H3 in Hsum. simpl in Hsum. lia.
Defined.

(* ===================================================================== *)
(** * Further properties of training                                       *)
(* ===================================================================== *)

Section training_more.
Import MLPipeline.
Context (lib : library).

Lemma get_insert_ne hp key value k fallback :
  key ≠ k → get (<[key := value]> hp) k fallback = get hp k fallback.
Proof. intros Hne. unfold get. by rewrite lookup_insert_ne. Qed.

Lemma make_model_insert key value model_type cls hp :
  key ∉ hyperparameters_read model_type →
  make_model model_type cls (<[key := value]> hp) = make_model model_type cls hp.
Proof.
  unfold make_model, hyperparameters_read. intros Hkey.
  repeat (case_decide;
          [rewrite !get_insert_ne; [done|intros ->; apply Hkey; set_solver..]|]).
  done.
Qed.

(** X17.  The hyperparameters that count.  [train_model] looks up one or two
    keys of [hyperparameters], which ones depends on the model type; any other
    key (a [random_state], a [max_depth] for [knn]) has no effect on the call:
    the estimator, the result and the pipeline are the same with and without
    it.  The seed is always 42. *)
Theorem train_model_ignores_hyperparameter key value model_type hp w :
  key ∉ hyperparameters_read model_type →
  train_model lib model_type (Some (<[key := value]> hp)) w
  = train_model lib model_type (Some hp) w.
Proof.
  intros Hkey. unfold train_model. simpl.
  rewrite !run_get_self. destruct (train_test (self w)) as [sp|]; [|done].
  by rewrite make_model_insert.
Qed.

(** ** The fields of a result *)

Lemma fit_and_predict_model est cls sp w preds w1 :
  fit_and_predict lib est cls sp w = (Ok preds, w1) →
  ∃ st, st ≠ Unfitted ∧ w1 = {| heap := heap w; self := set_model (est, st) (self w) |}
    ∧ model_importance (feature_names (self w)) (Some (est, st))
      = match st with
        | FittedClassifier f => importance (feature_names (self w)) f
        | FittedRegressor f => importance (feature_names (self w)) f
        | Unfitted => None
        end.
Proof.
  unfold fit_and_predict. destruct cls.
  - destruct (y_train sp) as [ys|ys]; [|done].
    intros H.
    apply bind_ok in H as (f & w2 & Hfit & H). injection Hfit as Hfit <-.
    rewrite run_update_self in H.
    apply bind_ok in H as (tr & w2 & Htr & H). injection Htr as Htr <-.
    apply bind_ok in H as (te & w2 & Hte & H). injection Hte as Hte <-.
    injection H as <- <-. by exists (FittedClassifier f).
  - intros H.
    apply bind_ok in H as (f & w2 & Hfit & H). injection Hfit as Hfit <-.
    rewrite run_update_self in H.
    apply bind_ok in H as (tr & w2 & Htr & H). injection Htr as Htr <-.
    apply bind_ok in H as (te & w2 & Hte & H). injection Hte as Hte <-.
    injection H as <- <-. by exists (FittedRegressor f).
Qed.

Lemma calculate_metrics_fields y_train_pred y_test_pred cls w r w' :
  _calculate_metrics lib y_train_pred y_test_pred cls w = (Ok r, w') →
  w' = w
  ∧ ∃ sp, train_test (self w) = Some sp
    ∧ Results.feature_importance r
      = model_importance (feature_names (self w)) (model (self w))
    ∧ Results.n_train_samples r = target_len (y_train sp)
    ∧ Results.n_test_samples r = target_len (y_test sp)
    ∧ Results.n_features r = length (feature_names (self w))
    ∧ Results.feature_names r = feature_names (self w)
    ∧ Results.target_name r = target_name (self w).
Proof.
  unfold _calculate_metrics. rewrite run_get_self.
  destruct (train_test (self w)) as [sp|]; [|done].
  intros H. apply bind_ok in H as ([[[tm ta] cm] reg] & w1 & Hscores & H).
  injection H as <- <-.
  assert (w1 = w) as ->.
  { destruct cls.
    - destruct (y_train sp), (y_test sp), y_train_pred, y_test_pred; try done.
      apply bind_ok in Hscores as (m & w2 & Hm & Hscores).
      injection Hm as _ <-. by injection Hscores as _ _ <-.
    - apply bind_ok in Hscores as (m & w2 & Hm & Hscores).
      injection Hm as _ <-. by injection Hscores as _ _ <-. }
  split; [done|]. by exists sp.
Qed.

(** What a successful call of [train_model] leaves in the result and in
    the pipeline. *)
Lemma train_model_fields model_type hp w r w' :
  train_model lib model_type hp w = (Ok r, w') →
  ∃ sp est st,
    train_test (self w) = Some sp
    ∧ make_model model_type (is_classification sp) (default ∅ hp) = Some est
    ∧ st ≠ Unfitted
    ∧ model (self w') = Some (est, st)
    ∧ heap w' = heap w
    ∧ feature_names (self w') = feature_names (self w)
    ∧ target_name (self w') = target_name (self w)
    ∧ train_test (self w') = Some sp
    ∧ y_test_actual (self w') = Some (y_test sp)
    ∧ Results.feature_importance r
      = model_importance (feature_names (self w)) (Some (est, st))
    ∧ Results.n_train_samples r = target_len (y_train sp)
    ∧ Results.n_test_samples r = target_len (y_test sp)
    ∧ Results.n_features r = length (feature_names (self w))
    ∧ Results.feature_names r = feature_names (self w)
    ∧ Results.target_name r = target_name (self w).
Proof.
  unfold train_model. rewrite run_get_self.
  destruct (train_test (self w)) as [sp|] eqn:Hsp; [|done].
  fold (is_classification sp).
  destruct (make_model _ _ _) as [est|] eqn:Hest; [|done].
  rewrite run_update_self. intros H.
  apply bind_ok in H as (preds & w1 & Hfit & H).
  apply fit_and_predict_model in Hfit as (st & Hst & -> & _).
  rewrite run_update_self in H.
  apply bind_ok in H as (r0 & w2 & Hcalc & H). injection H as <- <-.
  apply calculate_metrics_fields in Hcalc as (-> & sp' & Hsp' & Hfields).
  simpl in *. assert (sp' = sp) as -> by congruence.
  exists sp, est, st. done.
Qed.

(** ** The importance of the features *)

Lemma to_dict_lookup names values k v :
  to_dict names values !! k = Some v → (k, v) ∈ zip names values.
Proof.
  unfold to_dict.
  assert (∀ l (acc : gmap string float),
            foldl (λ m p, <[p.1 := p.2]> m) acc l !! k = Some v →
            (k, v) ∈ l ∨ acc !! k = Some v) as Hgen.
  { induction l as [|[k' v'] l IH]; intros acc; simpl; [by right|].
    intros [Hin|Hacc]%IH; [left; by right|].
    destruct (decide (k' = k)) as [->|Hne].
    - rewrite lookup_insert_eq in Hacc. injection Hacc as ->. left. left.
    - rewrite lookup_insert_ne in Hacc by done. by right. }
  intros [?|Hempty]%Hgen; [done|]. by rewrite lookup_empty in Hempty.
Qed.

Lemma fabs_nonneg x : (Zf 0 ≤ fabs x)%Qc.
Proof.
  unfold fabs. case_decide as Hx.
  - apply Qclt_le_weak in Hx. apply Qcopp_le_compat in Hx. exact Hx.
  - by apply Qcnot_lt_le.
Qed.

Lemma importance_spec {P} names (f : fitted P) m k v :
  importance names f = Some m → m !! k = Some v →
  k ∈ names ∧ (feature_importances_ f = None → (Zf 0 ≤ v)%Qc).
Proof.
  unfold importance. intros Hm Hk.
  destruct (feature_importances_ f) as [values|].
  - injection Hm as <-. apply to_dict_lookup in Hk. split; [|done].
    by eapply elem_of_zip_l.
  - destruct (coef_ f) as [[row|row0 rows]|]; [| |done]; injection Hm as <-;
      apply to_dict_lookup in Hk; (split; [by eapply elem_of_zip_l|]); intros _;
      apply elem_of_zip_r, list_elem_of_fmap in Hk as (c & -> & _); apply fabs_nonneg.
Qed.

(** X18.  The importance of the features.  When the result of a training
    carries [feature_importance], its keys are names of features of the
    result, and the fitted model is kept in the pipeline; when that model has
    no [feature_importances_], so that the values are read off its
    coefficients, no value is negative. *)
Theorem feature_importance_of_features model_type hp w r w' m :
  train_model lib model_type hp w = (Ok r, w') →
  Results.feature_importance r = Some m →
  (∀ k v, m !! k = Some v → k ∈ Results.feature_names r)
  ∧ ∃ est st,
      model (self w') = Some (est, st)
      ∧ match st with
        | FittedClassifier f =>
            feature_importances_ f = None → ∀ k v, m !! k = Some v → (Zf 0 ≤ v)%Qc
        | FittedRegressor f =>
            feature_importances_ f = None → ∀ k v, m !! k = Some v → (Zf 0 ≤ v)%Qc
        | Unfitted => False
        end.
Proof.
  intros (sp & est & st & _ & _ & Hst & Hmodel & _ & _ & _ & _ & _ & Himp & _ & _ & _ & Hnames & _)
    %train_model_fields Hm.
  rewrite Himp in Hm. rewrite Hnames.
  destruct st as [|f|f]; [done| |]; simpl in Hm.
  - split; [intros k v Hk; by eapply (importance_spec _ f)|].
    exists est, (FittedClassifier f). split; [done|].
    intros Hnone k v Hk. by eapply (importance_spec _ f).
  - split; [intros k v Hk; by eapply (importance_spec _ f)|].
    exists est, (FittedRegressor f). split; [done|].
    intros Hnone k v Hk. by eapply (importance_spec _ f).
Qed.

End training_more.

(** ** Accuracy and the confusion matrix *)

Section accuracy.
Import MLPipeline.
Context (lib : library).

(** Every value of [xs] is counted under its own label. *)
Lemma sum_occurrences (labels xs : list Z) :
  NoDup labels → (∀ x, x ∈ xs → x ∈ labels) →
  sum_list (map (λ t, occurrences t xs) labels) = length xs.
Proof.
  intros Hnd. induction xs as [|x xs IH]; intros Hin.
  - simpl. apply Forall_forall_sum_0. done.
  - transitivity
      (sum_list (map (λ t, (if decide (x = t) then 1 else 0) + occurrences t xs)%nat labels)).
    { f_equal. apply map_ext. intros t. apply occurrences_cons. }
    rewrite sum_list_map_plus, IH by (intros y Hy; apply Hin; by right).
    rewrite (sum_indicator x labels Hnd) by (apply Hin; left). done.
Qed.

(** The diagonal counts the pairs of equal labels. *)
Lemma diagonal_sum (labels : list Z) (pairs : list (Z * Z)) :
  NoDup labels → (∀ ab, ab ∈ pairs → ab.1 ∈ labels) →
  sum_list (map (λ t, occurrences (t, t) pairs) labels)
  = length (filter (λ p, p.1 = p.2) pairs).
Proof.
  intros Hnd. induction pairs as [|[a b] pairs IH]; intros Hin.
  - simpl. apply Forall_forall_sum_0. done.
  - transitivity
      (sum_list (map (λ t, (if decide ((a, b) = (t, t)) then 1 else 0)
                           + occurrences (t, t) pairs)%nat labels)).
    { f_equal. apply map_ext. intros t. apply occurrences_cons. }
    rewrite sum_list_map_plus, IH by (intros ab Hab; apply Hin; by right).
    rewrite filter_cons. simpl. destruct (decide (a = b)) as [->|Hab].
    + assert (sum_list (map (λ t, if decide ((b, b) = (t, t)) then 1 else 0)%nat labels)
              = 1%nat) as ->; [|done].
      etransitivity; [|apply (sum_indicator b labels Hnd), (Hin (b, b)); left].
      f_equal. apply map_ext. intros t.
      destruct (decide ((b, b) = (t, t))) as [Heq|Hne], (decide (b = t)) as [Hb|Hb];
        try done; [by injection Heq|by subst].
    + assert (sum_list (map (λ t, if decide ((a, b) = (t, t)) then 1 else 0)%nat labels)
              = 0%nat) as ->; [|done].
      apply Forall_forall_sum_0. intros t _.
      destruct (decide ((a, b) = (t, t))) as [Heq|Hne]; [|done].
      injection Heq as -> ->. done.
Qed.

Lemma confusion_matrix_trace y_true y_pred :
  length y_true = length y_pred →
  trace (Metrics.confusion_matrix y_true y_pred) = Metrics.count_matches y_true y_pred.
Proof.
  intros Hlen. unfold trace, Metrics.confusion_matrix, Metrics.count_matches.
  set (labels := Metrics.unique_labels y_true y_pred).
  rewrite imap_fmap.
  rewrite (imap_ext _ (const (λ t, occurrences (t, t) (zip y_true y_pred)))).
  2:{ intros i t Hi. unfold compose. simpl. by rewrite list_lookup_fmap, Hi. }
  rewrite imap_const.
  apply diagonal_sum; [apply NoDup_np_unique|].
  intros [a b] Hab. apply unique_labels_elem. left. by eapply elem_of_zip_l.
Qed.

Lemma confusion_matrix_total y_true y_pred :
  length y_true = length y_pred →
  total (Metrics.confusion_matrix y_true y_pred) = length y_true.
Proof.
  intros Hlen. unfold total, Metrics.confusion_matrix.
  set (labels := Metrics.unique_labels y_true y_pred).
  rewrite map_map.
  rewrite (map_ext _ (λ t, occurrences t y_true)).
  2:{ intros t. rewrite row_sum.
      - by rewrite fst_zip by lia.
      - apply NoDup_np_unique.
      - intros [a b] Hab. apply unique_labels_elem. right. by eapply elem_of_zip_r. }
  apply sum_occurrences; [apply NoDup_np_unique|].
  intros x Hx. apply unique_labels_elem. by left.
Qed.

Lemma count_matches_le y_true y_pred :
  length y_true = length y_pred →
  (Metrics.count_matches y_true y_pred ≤ length y_true)%nat.
Proof.
  intros Hlen. unfold Metrics.count_matches.
  etransitivity; [apply length_filter|]. rewrite length_zip. lia.
Qed.

Lemma classification_metrics_accuracy y_train y_test y_train_pred y_test_pred m :
  classification_metrics lib y_train y_test y_train_pred y_test_pred = Ok m →
  length y_test = length y_test_pred
  ∧ length y_test ≠ 0%nat
  ∧ Results.accuracy m.1.1
    = Some (natf (Metrics.count_matches y_test y_test_pred) / natf (length y_test))%Qc.
Proof.
  unfold classification_metrics.
  destruct (Metrics.accuracy_score y_test _) as [acc|] eqn:Hacc; simpl; [|done].
  repeat match goal with
         | |- context [result_bind ?x _] => destruct x; simpl; [|done]
         end.
  intros [= <-]. simpl.
  unfold Metrics.accuracy_score, Metrics.check_targets in Hacc.
  destruct (length y_test =? length y_test_pred)%nat eqn:Hlen; [|done].
  destruct (length y_test =? 0)%nat eqn:H0; [done|]. simpl in Hacc.
  injection Hacc as <-. apply Nat.eqb_eq in Hlen. apply Nat.eqb_neq in H0. done.
Qed.

(** X19.  Accuracy and the confusion matrix agree.  In a classification
    result the entries of the confusion matrix add up to the number of test
    samples, which is not zero, and the reported test accuracy is the sum of
    the diagonal divided by that number: a value between 0 and 1. *)
Theorem accuracy_is_the_diagonal model_type hp w r w' :
  train_model lib model_type hp w = (Ok r, w') →
  Results.regression_metrics r = None →
  let cm := Results.confusion_matrix r in
  total cm = Results.n_test_samples r
  ∧ (0 < Results.n_test_samples r)%nat
  ∧ (trace cm ≤ total cm)%nat
  ∧ ∃ a, Results.accuracy (Results.test_metrics r) = Some a
         ∧ a = (natf (trace cm) / natf (total cm))%Qc
         ∧ (Zf 0 ≤ a)%Qc ∧ (a ≤ Zf 1)%Qc.
Proof.
  intros Hrun Hreg. pose proof Hrun as (sp & Hsp & H)%train_model_ok.
  apply train_model_fields in Hrun
    as (sp' & est & st & Hsp' & _ & _ & _ & _ & _ & _ & _ & _ & _ & _ & Hn & _).
  assert (sp' = sp) as -> by congruence.
  destruct (is_classification sp).
  2:{ destruct H as (? & ? & ? & _ & _ & _ & _ & Hsome). congruence. }
  destruct H as (train & test & tr & te & m & _ & Htest & _ & Hm & Htm & Hcm & _).
  pose proof (classification_metrics_ok _ _ _ _ _ _ Hm) as [_ Hcm'].
  apply classification_metrics_accuracy in Hm as (Hlen & Hne & Hacc).
  cbv zeta. rewrite Hcm, Hcm', Hn, Htest, Htm, Hacc. simpl.
  rewrite confusion_matrix_total, confusion_matrix_trace by done.
  pose proof (count_matches_le test te Hlen) as Hle.
  split; [done|]. split; [lia|]. split; [done|].
  eexists. split; [done|]. split; [done|].
  assert (Zf 0 < natf (length test))%Qc as Hpos by (apply natf_pos; lia).
  split.
  - apply Qcdiv_le_r; [done|]. rewrite Qcmult_0_l. apply (natf_le 0). lia.
  - apply Qcdiv_le_l; [done|]. rewrite Qcmult_1_l. by apply natf_le.
Qed.

End accuracy.

(** A classification on the sample split: one of three test samples is
    predicted right. *)
Lemma accuracy_is_the_diagonal_witness :
  ∃ r w',
    MLPipeline.train_model Sample.lib "knn" None
      (Sample.split_world (IntTarget [1; 0; 1; 1; 0]) (IntTarget [1; 0; 0])) = (Ok r, w')
    ∧ trace (MLPipeline.Results.confusion_matrix r) = 1%nat
    ∧ total (MLPipeline.Results.confusion_matrix r) = 3%nat
    ∧ ∃ a, MLPipeline.Results.accuracy (MLPipeline.Results.test_metrics r) = Some a
           ∧ a = (natf (trace (MLPipeline.Results.confusion_matrix r))
                  / natf (total (MLPipeline.Results.confusion_matrix r)))%Qc.
Proof.
  eexists _, _.
  split; [vm_compute; reflexivity|].
  split; [reflexivity|]. split; [reflexivity|].
  match goal with
  | |- context [MLPipeline.Results.test_metrics ?r] =>
      pose proof (accuracy_is_the_diagonal Sample.lib "knn" None
        (Sample.split_world (IntTarget [1; 0; 1; 1; 0]) (IntTarget [1; 0; 0]))
        r _ ltac:(vm_compute; reflexivity) eq_refl)
        as (_ & _ & _ & a & Ha & Heq & _)
  end.
  exists a. exact (conj Ha Heq).
Defined.

(** A key that [knn] does not read. *)
Lemma train_model_ignores_hyperparameter_witness :
  MLPipeline.train_model Sample.lib "knn" (Some (<["max_depth" := HInt 3]> ∅))
    (Sample.split_world (IntTarget [1; 0; 1; 1; 0]) (IntTarget [1; 0; 0]))
  = MLPipeline.train_model Sample.lib "knn" (Some ∅)
      (Sample.split_world (IntTarget [1; 0; 1; 1; 0]) (IntTarget [1; 0; 0])).
Proof.
  apply train_model_ignores_hyperparameter.
  vm_compute. intros H. repeat (apply elem_of_cons in H as [H|H]; [discriminate H|]).
  by apply elem_of_nil in H.
Defined.

(** The coefficient -2 of the sample regressor, reported as 2. *)
Lemma feature_importance_of_features_witness :
  ∃ r w' m,
    MLPipeline.train_model Sample.lib_linear "linear" None Sample.regression_world
    = (Ok r, w')
    ∧ MLPipeline.Results.feature_importance r = Some m
    ∧ m !! "x" = Some (Zf 2)
    ∧ ∀ k v, m !! k = Some v → k ∈ MLPipeline.Results.feature_names r.
Proof.
  eexists _, _, _.
  split; [vm_compute; reflexivity|].
  split; [reflexivity|].
  split; [by vm_compute|].
  match goal with
  | |- context [MLPipeline.Results.feature_names ?r] =>
      pose proof (feature_importance_of_features Sample.lib_linear "linear" None
        Sample.regression_world r _ _ ltac:(vm_compute; reflexivity) eq_refl) as [H _]
  end.
  exact H.
Defined.

(** ** A training that fails *)

Section failures.
Import MLPipeline.
Context (lib : library).


End failures.


(** ** The scores of a regression *)

Section regression.
Import MLPipeline.
Context (lib : library).

Lemma Qcsquare_nonneg (x : Qc) : (Zf 0 ≤ x * x)%Qc.
Proof.
  destruct (Qclt_le_dec x (Zf 0)) as [Hneg|Hpos].
  - replace (x * x)%Qc with ((- x) * (- x))%Qc by ring.
    assert (Zf 0 ≤ - x)%Qc as H.
    { apply Qclt_le_weak in Hneg. by apply Qcopp_le_compat in Hneg. }
    by apply Qcmult_nonneg_nonneg.
  - by apply Qcmult_nonneg_nonneg.
Qed.

Lemma sumf_nonneg xs : (∀ x, x ∈ xs → (Zf 0 ≤ x)%Qc) → (Zf 0 ≤ sumf xs)%Qc.
Proof.
  induction xs as [|x xs IH]; intros Hxs; simpl; [apply Qcle_refl|].
  apply Qcplus_nonneg_nonneg; [apply Hxs; left|]. apply IH. intros y Hy. apply Hxs. by right.
Qed.

Lemma mean_nonneg xs : (∀ x, x ∈ xs → (Zf 0 ≤ x)%Qc) → (Zf 0 ≤ mean xs)%Qc.
Proof.
  intros Hxs. unfold mean. destruct xs as [|x xs].
  - simpl. unfold Qcdiv. rewrite Qcmult_0_l. apply Qcle_refl.
  - apply Qcdiv_le_r; [apply natf_pos; simpl; lia|].
    rewrite Qcmult_0_l. by apply sumf_nonneg.
Qed.

Lemma squared_errors_nonneg y_true y_pred x :
  x ∈ Metrics.squared_errors y_true y_pred → (Zf 0 ≤ x)%Qc.
Proof.
  unfold Metrics.squared_errors. intros (a & b & -> & _)%elem_of_zip_with.
  apply Qcsquare_nonneg.
Qed.

Lemma r2_score_le_1 y_true y_pred v :
  Metrics.r2_score y_true y_pred = Ok (Some v) → (v ≤ Zf 1)%Qc.
Proof.
  unfold Metrics.r2_score. destruct (Metrics.check_targets _ _); simpl; [|done].
  destruct (_ <? _)%nat; [done|]. intros [= <-].
  case_decide as Hnum; [apply Qcle_refl|].
  case_decide as Hden; [done|].
  set (num := sumf (Metrics.squared_errors y_true y_pred)) in *.
  set (den := sumf (map _ y_true)) in *.
  assert (Zf 0 ≤ num)%Qc as Hn.
  { apply sumf_nonneg. intros x. apply squared_errors_nonneg. }
  assert (Zf 0 < den)%Qc as Hd.
  { assert (Zf 0 ≤ den)%Qc as Hd0.
    { apply sumf_nonneg. intros x (z & -> & _)%list_elem_of_fmap. apply Qcsquare_nonneg. }
    apply Qcle_lt_or_eq in Hd0 as [?|?]; [done|congruence]. }
  assert (Zf 0 ≤ num / den)%Qc as Hq.
  { apply Qcdiv_le_r; [done|]. by rewrite Qcmult_0_l. }
  apply Qcle_minus_iff. replace (Zf 1 + - (Zf 1 - num / den))%Qc with (num / den)%Qc; [done|].
  change (Zf 1) with 1%Qc. ring.
Qed.

Lemma regression_metrics_scores y_train y_test y_train_pred y_test_pred m :
  regression_metrics lib y_train y_test y_train_pred y_test_pred = Ok m →
  ∃ test,
    Metrics.mean_squared_error test y_test_pred = Ok (Results.mse m.2)
    ∧ Metrics.mean_absolute_error test y_test_pred = Ok (Results.mae m.2)
    ∧ Metrics.r2_score test y_test_pred = Ok (Results.r2_score m.2)
    ∧ Results.rmse m.2 = Lib.np_sqrt lib (Results.mse m.2)
    ∧ Results.accuracy m.1.1.1 = max0 (Results.r2_score m.2).
Proof.
  unfold regression_metrics.
  destruct (Metrics.as_floats y_test) as [test|]; simpl; [|done].
  destruct (Metrics.mean_squared_error test _) as [mse|] eqn:Hmse; simpl; [|done].
  destruct (Metrics.mean_absolute_error test _) as [mae|] eqn:Hmae; simpl; [|done].
  destruct (Metrics.r2_score test _) as [r2|] eqn:Hr2; simpl; [|done].
  destruct (Metrics.as_floats y_train) as [train|]; simpl; [|done].
  destruct (Metrics.mean_squared_error train _) as [train_mse|]; simpl; [|done].
  destruct (Metrics.r2_score train _) as [train_r2|]; simpl; [|done].
  intros [= <-]. by exists test.
Qed.

(** X21.  The range of the regression scores.  In a regression result MSE
    and MAE are not negative, RMSE is the square root the library takes of
    MSE, R² is at most 1 where it is a number, and the accuracy shown in its
    place lies between 0 and 1. *)
Theorem regression_scores_bounded model_type hp w r w' rm :
  train_model lib model_type hp w = (Ok r, w') →
  Results.regression_metrics r = Some rm →
  (Zf 0 ≤ Results.mse rm)%Qc
  ∧ (Zf 0 ≤ Results.mae rm)%Qc
  ∧ Results.rmse rm = Lib.np_sqrt lib (Results.mse rm)
  ∧ (∀ v, Results.r2_score rm = Some v → (v ≤ Zf 1)%Qc)
  ∧ ∃ a, Results.accuracy (Results.test_metrics r) = Some a
         ∧ (Zf 0 ≤ a)%Qc ∧ (a ≤ Zf 1)%Qc.
Proof.
  intros (sp & Hsp & H)%train_model_ok Hrm.
  destruct (is_classification sp).
  { destruct H as (? & ? & ? & ? & ? & _ & _ & _ & _ & _ & _ & Hnone). congruence. }
  destruct H as (tr & te & m & _ & Hm & Htm & _ & Hreg).
  assert (rm = m.2) as -> by congruence.
  apply regression_metrics_scores in Hm as (test & Hmse & Hmae & Hr2 & Hrmse & Hacc).
  assert (∀ v, Results.r2_score m.2 = Some v → (v ≤ Zf 1)%Qc) as Hle.
  { intros v Hv. rewrite Hv in Hr2. by eapply r2_score_le_1. }
  split; [|split; [|split; [done|split; [done|]]]].
  - unfold Metrics.mean_squared_error in Hmse.
    destruct (Metrics.check_targets _ _); simpl in Hmse; [|done].
    injection Hmse as <-. apply mean_nonneg. intros x. apply squared_errors_nonneg.
  - unfold Metrics.mean_absolute_error in Hmae.
    destruct (Metrics.check_targets _ _); simpl in Hmae; [|done].
    injection Hmae as <-. apply mean_nonneg.
    intros x (z1 & z2 & -> & _)%elem_of_zip_with. apply fabs_nonneg.
  - rewrite Htm, Hacc. destruct (Results.r2_score m.2) as [v|]; simpl.
    + case_decide.
      * exists v. split; [done|]. split; [by apply Qclt_le_weak|by apply Hle].
      * exists (Zf 0). split; [done|]. split; [apply Qcle_refl|done].
    + exists (Zf 0). split; [done|]. split; [apply Qcle_refl|done].
Qed.

End regression.

(** The regression on the sample split. *)
Lemma regression_scores_bounded_witness :
  ∃ r rm w',
    MLPipeline.train_model Sample.lib "linear" None
      (Sample.split_world (FloatTarget [Some (Zf 1); Some (Zf 2); Some (Zf 3); Some (Zf 10)])
                          (FloatTarget [Some (Zf 2); Some (Zf 4)])) = (Ok r, w')
    ∧ MLPipeline.Results.regression_metrics r = Some rm
    ∧ (Zf 0 ≤ MLPipeline.Results.mse rm)%Qc
    ∧ (Zf 0 ≤ MLPipeline.Results.mae rm)%Qc.
Proof.
  eexists _, _, _.
  split; [vm_compute; reflexivity|].
  split; [reflexivity|].
  match goal with
  | |- context [MLPipeline.Results.mse ?rm] =>
      pose proof (regression_scores_bounded Sample.lib "linear" None
        (Sample.split_world (FloatTarget [Some (Zf 1); Some (Zf 2); Some (Zf 3); Some (Zf 10)])
                            (FloatTarget [Some (Zf 2); Some (Zf 4)]))
        _ _ rm ltac:(vm_compute; reflexivity) eq_refl) as (H1 & H2 & _)
  end.
  exact (conj H1 H2).
Defined.

(* ===================================================================== *)
(** * Properties of the routes                                             *)
(* ===================================================================== *)

Section names.
Import MLPipeline.
Context (lib : library).

Lemma names_kept_ret {A} (a : A) : names_kept (ret a).
Proof. by intros w r w' [= <- <-]. Qed.

Lemma names_kept_raise {A} e : names_kept (raise (A:=A) e).
Proof. by intros w r w' [= <- <-]. Qed.

Lemma names_kept_lift {A} (x : result A) : names_kept (lift x).
Proof. by intros w r w' [= <- <-]. Qed.

Lemma names_kept_deref l : names_kept (deref l).
Proof. by intros w r w' [= <- <-]. Qed.

Lemma names_kept_get_self : names_kept get_self.
Proof. by intros w r w' [= <- <-]. Qed.

Lemma names_kept_alloc df : names_kept (alloc df).
Proof. by intros w r w' [= <- <-]. Qed.

Lemma names_kept_store l df : names_kept (store l df).
Proof. by intros w r w' [= <- <-]. Qed.

Lemma names_kept_update_self f :
  (∀ p, feature_names (f p) = feature_names p ∧ target_name (f p) = target_name p) →
  names_kept (update_self f).
Proof. intros Hf w r w' [= <- <-]. apply Hf. Qed.

Lemma names_kept_bind {A B} (m : M A) (k : A → M B) :
  names_kept m → (∀ a, names_kept (k a)) → names_kept (bind m k).
Proof.
  intros Hm Hk w r w' [(e & Hrun & ->)|(a & w1 & Hrun & Hrest)]%bind_inv.
  - by eapply Hm.
  - destruct (Hm _ _ _ Hrun) as [H1 H2], (Hk a _ _ _ Hrest) as [H3 H4]. split; congruence.
Qed.

Lemma names_kept_for_each {A} (xs : list A) body :
  (∀ x, names_kept (body x)) → names_kept (for_each xs body).
Proof.
  intros Hbody. induction xs as [|x xs IH]; simpl.
  - apply names_kept_ret.
  - apply names_kept_bind; [apply Hbody|]. intros _. exact IH.
Qed.

Ltac names_step :=
  first
    [ apply names_kept_ret | apply names_kept_raise | apply names_kept_lift
    | apply names_kept_get_self | apply names_kept_deref | apply names_kept_alloc
    | apply names_kept_store
    | apply names_kept_update_self; intros []; split; reflexivity
    | apply names_kept_bind; [|intros ?] ].

Ltac names_auto :=
  repeat first
    [ names_step
    | match goal with
      | |- names_kept (match ?x with _ => _ end) => destruct x
      | |- names_kept (if ?x then _ else _) => destruct x
      | |- names_kept (let '(_, _) := ?x in _) => destruct x
      end ].

Lemma names_kept_setitem X col values : names_kept (setitem X col values).
Proof. unfold setitem. names_auto. Qed.

Lemma names_kept_impute_column X strategy col : names_kept (impute_column X strategy col).
Proof.
  unfold impute_column. names_step; [names_step|].
  destruct (getitem _ col) as [|s [|? ?]]; [names_step| |names_step].
  destruct (isna_any s); [|names_step].
  destruct (is_numeric_dtype s); (names_step; [names_step|apply names_kept_setitem]).
Qed.

Lemma names_kept_encode_column X col : names_kept (encode_column X col).
Proof.
  unfold encode_column. names_step; [names_step|].
  destruct (getitem _ col) as [|s [|? ?]]; [names_step| |names_step].
  destruct s; [names_step|names_step|].
  names_step; [apply names_kept_setitem|names_step].
Qed.

Lemma names_kept_stages X cols y target_variable config :
  names_kept
    (bind (impute_stage X cols config) (λ _,
     bind (encode_stage X cols config) (λ _,
     bind (encode_target y target_variable) (λ y,
     bind (scale_stage lib X config) (λ X, ret (X, y)))))).
Proof.
  names_step.
  { unfold impute_stage. destruct (default false _); [|names_step].
    apply names_kept_for_each. intros col. apply names_kept_impute_column. }
  names_step.
  { unfold encode_stage. destruct (default false _); [|names_step].
    apply names_kept_for_each. intros col. apply names_kept_encode_column. }
  names_step.
  { unfold encode_target. destruct y as [|[ys|ys|ys] [|? ?]]; names_auto. }
  names_step; [|names_step].
  unfold scale_stage, scale. names_auto.
Qed.

(** [preprocess_data] notes the selection in the pipeline, and the stages
    leave the note alone. *)
Lemma preprocess_data_names df input_features target_variable config w Xy w' :
  preprocess_data lib df input_features target_variable config w = (Ok Xy, w') →
  feature_names (self w') = input_features
  ∧ target_name (self w') = Some target_variable.
Proof.
  rewrite preprocess_data_unfold. cbv zeta.
  destruct (select _ input_features) as [selected|e]; [|done].
  destruct (getitem _ target_variable) as [|s ys] eqn:Hy; [done|].
  intros Hrun. by apply names_kept_stages in Hrun.
Qed.

Lemma names_kept_split_data X y test_size random_state :
  names_kept (split_data lib X y test_size random_state).
Proof.
  unfold split_data. repeat names_step.
  match goal with a : (_ * _ * _ * _)%type |- _ => destruct a as [[[? ?] ?] ?] end.
  names_step.
Qed.

End names.

Section routes_more.
Import MLPipeline.
Context (lib : library) (pd : Pandas.library).

(** X22.  The response of a training names the selection it was asked for.
    When the training route answers with results, the status is 200, the
    results list the features and the target of the request, in the order of
    the request, with their number, and the session keeps a fitted model
    together with these names. *)
Theorem train_response_echoes_selection data srv r status srv' :
  App.train_model lib data srv = ((App.Trained r, status), srv') →
  status = 200%nat
  ∧ ∃ sid fs t p',
      App.session_id data = Some sid
      ∧ App.input_features data = Some fs
      ∧ App.target_variable data = Some t
      ∧ Results.feature_names r = fs
      ∧ Results.target_name r = Some t
      ∧ Results.n_features r = length fs
      ∧ App.pipelines srv' !! sid = Some p'
      ∧ feature_names p' = fs
      ∧ target_name p' = Some t
      ∧ ∃ est st, model p' = Some (est, st) ∧ st ≠ Unfitted.
Proof.
  unfold App.train_model.
  destruct (App.missing_field data); [done|].
  destruct (App.session_id data) as [sid|]; [|done].
  destruct (App.input_features data) as [fs|]; [|done].
  destruct (App.target_variable data) as [t|]; [|done].
  destruct (App.model_type data) as [model_type|]; [|done].
  destruct (App.pipelines srv !! sid) as [p0|]; [|done].
  destruct (original_df p0) as [df|]; [|done].
  destruct (Utils.validate_feature_target_selection _ _ _) as [is_valid error_msg].
  destruct (negb is_valid); [done|].
  destruct (App.run_training _ _ _ _ _ _ _) as [[r'|e] w'] eqn:Hrun; [|done].
  intros [= <- <- <-]. split; [done|].
  unfold App.run_training in Hrun.
  apply bind_ok in Hrun as ([X y] & w1 & Hpre & Hrun).
  apply bind_ok in Hrun as ([] & w2 & Hsplit & Hrun).
  apply preprocess_data_names in Hpre as [Hfs Ht].
  apply names_kept_split_data in Hsplit as [Hfs2 Ht2].
  apply train_model_fields in Hrun
    as (sp & est & st & _ & _ & Hst & Hmodel & _ & Hfs3 & Ht3 & _ & _ & _ & _ & _ & Hn & Hrfs & Hrt).
  exists sid, fs, t, (self w'). simpl.
  rewrite lookup_insert_eq.
  repeat split; try congruence. by exists est, st.
Qed.

End routes_more.

(** A training on the sample session. *)
Lemma train_response_echoes_selection_witness :
  ∃ r srv',
    App.train_model Sample.lib (Sample.train_request ["age"; "city"] "label" "knn")
      (Sample.server_with Sample.with_gaps) = ((App.Trained r, 200%nat), srv')
    ∧ MLPipeline.Results.feature_names r = ["age"; "city"]
    ∧ MLPipeline.Results.target_name r = Some "label"
    ∧ MLPipeline.Results.n_features r = 2%nat.
Proof.
  assert (∃ r srv',
    App.train_model Sample.lib (Sample.train_request ["age"; "city"] "label" "knn")
      (Sample.server_with Sample.with_gaps) = ((App.Trained r, 200%nat), srv'))
    as (r & srv' & Hrun).
  { eexists _, _. vm_compute. reflexivity. }
  exists r, srv'. split; [exact Hrun|].
  destruct (train_response_echoes_selection Sample.lib _ _ _ _ _ Hrun)
    as (_ & sid & fs & t & p' & _ & [= <-] & [= <-] & Hfs & Ht & Hn & _).
  exact (conj Hfs (conj Ht Hn)).
Defined.

Section sessions.
Import MLPipeline.
Context (lib : library) (pd : Pandas.library).

Lemma to_records_length df : length (App.to_records df) = index_len df.
Proof. unfold App.to_records. by rewrite length_map, length_seq. Qed.

Lemma head_index_len n df : index_len (App.head n df) = (n `min` index_len df)%nat.
Proof. unfold App.head, frame_rows. simpl. by rewrite length_seq. Qed.

Lemma utils_validate_dataset_true df :
  (Utils.validate_dataset df).1 = true → Utils.validate_dataset df = (true, "").
Proof.
  unfold Utils.validate_dataset.
  destruct (df_empty df); [done|].
  destruct (index_len df <? 10)%nat; [done|].
  by destruct (length (columns df) <? 2)%nat.
Qed.

(** The state after an upload that got as far as the session. *)
Lemma upload_dataset_inv files srv :
  let out := App.upload_dataset pd files srv in
  ((∃ msg, out.1.1 = App.Upload.Error msg)
   ∧ (out.1.2 = 400%nat ∨ out.1.2 = 500%nat) ∧ out.2 = srv
   ∧ ¬ ∃ file df,
         files = Some file ∧ App.Upload.filename file ≠ ""
         ∧ App.read_file pd file = Some (Ok df)
         ∧ (10 ≤ index_len df)%nat ∧ (2 ≤ length (columns df))%nat
         ∧ NoDup (labels df))
  ∨ (∃ file df column_info,
       files = Some file
       ∧ App.Upload.filename file ≠ ""
       ∧ App.read_file pd file = Some (Ok df)
       ∧ Utils.validate_dataset df = (true, "")
       ∧ get_column_info pd df = Ok column_info
       ∧ out.2 = {| App.heap := App.heap srv ++ [df];
                    App.pipelines :=
                      <["session_" +:+ str_nat (size (App.pipelines srv))
                        := set_original_df (length (App.heap srv)) __init__]>
                        (App.pipelines srv) |}
       ∧ out.1
         = match Pandas.jsonify_error pd df with
           | Some e =>
               (App.Upload.Error ("Failed to process file: " +:+ exn_str e), 500%nat)
           | None =>
               (App.Upload.Uploaded
                  {| App.Upload.session_id :=
                       "session_" +:+ str_nat (size (App.pipelines srv));
                     App.Upload.file_name := App.Upload.filename file;
                     App.Upload.rows := index_len df;
                     App.Upload.columns := labels df;
                     App.Upload.column_info := column_info;
                     App.Upload.preview := App.to_records (App.head 10 df) |}, 200%nat)
           end).
Proof.
  cbv zeta. unfold App.upload_dataset.
  destruct files as [file|].
  2:{ left. split; [by eexists|]. split; [by left|]. split; [done|].
      by intros (? & ? & ? & _). }
  case_decide as Hname.
  { left. split; [by eexists|]. split; [by left|]. split; [done|].
    intros (? & ? & [= <-] & ? & _). done. }
  destruct (App.read_file pd file) as [[df|e]|] eqn:Hread.
  2:{ left. split; [by eexists|]. split; [by right|]. split; [done|].
      intros (? & ? & [= <-] & _ & ? & _). congruence. }
  2:{ left. split; [by eexists|]. split; [by left|]. split; [done|].
      intros (? & ? & [= <-] & _ & ? & _). congruence. }
  destruct (Utils.validate_dataset df) as [is_valid error_msg] eqn:Hvalid.
  destruct is_valid; simpl.
  2:{ left. split; [by eexists|]. split; [by left|]. split; [done|].
      intros (? & df' & [= <-] & _ & Hread' & Hrows & Hcols & _).
      assert (df' = df) as -> by congruence.
      assert ((Utils.validate_dataset df).1 = true) as Hacc
        by by apply utils_validate_dataset_accepts.
      rewrite Hvalid in Hacc. done. }
  assert (error_msg = "") as ->.
  { pose proof (utils_validate_dataset_true df) as Hv. rewrite Hvalid in Hv.
    by injection (Hv eq_refl). }
  destruct (get_column_info pd df) as [column_info|e] eqn:Hinfo.
  2:{ left. split; [by eexists|]. split; [by right|]. split; [done|].
      intros (? & df' & [= <-] & _ & Hread' & _ & _ & Hnd).
      assert (df' = df) as -> by congruence.
      destruct (get_column_info_NoDup pd df Hnd) as (info & Hinfo' & _). congruence. }
  right. exists file, df, column_info. do 5 (split; [done|]).
  by destruct (Pandas.jsonify_error pd df).
Qed.

(** X23.  What an upload is answered.  The upload route stores a session
    exactly when a file is sent whose name is not empty and ends in [.csv] or
    [.xlsx], the file parses, and the frame has at least 10 rows, at least 2
    columns and distinct labels (a repeated label passes the validator and
    fails in [get_column_info]): the state then has one frame and one session
    more, the session pointing to that frame.  The answer is the session,
    with status 200, the rows, the labels, the description of every column and
    a preview of 10 records, when in addition the response serialises; when
    [jsonify] raises, the answer is status 500 although the session has been
    stored.  Any other upload is answered 400 or 500 and leaves the state as
    it was; status 400 always does. *)
Theorem upload_dataset_outcome files srv :
  let out := App.upload_dataset pd files srv in
  let accepts file df :=
    files = Some file
    ∧ App.Upload.filename file ≠ ""
    ∧ App.read_file pd file = Some (Ok df)
    ∧ (10 ≤ index_len df)%nat ∧ (2 ≤ length (columns df))%nat
    ∧ NoDup (labels df) in
  let stored df :=
    {| App.heap := App.heap srv ++ [df];
       App.pipelines :=
         <["session_" +:+ str_nat (size (App.pipelines srv))
           := set_original_df (length (App.heap srv)) __init__]> (App.pipelines srv) |} in
  match out.1.1 with
  | App.Upload.Uploaded r =>
      out.1.2 = 200%nat
      ∧ ∃ file df,
          accepts file df
          ∧ Pandas.jsonify_error pd df = None
          ∧ App.Upload.session_id r = "session_" +:+ str_nat (size (App.pipelines srv))
          ∧ App.Upload.rows r = index_len df
          ∧ App.Upload.columns r = labels df
          ∧ (∀ c s, (c, s) ∈ columns df →
               App.Upload.column_info r !! c = Some (column_entry pd df s))
          ∧ length (App.Upload.preview r) = 10%nat
          ∧ out.2 = stored df
  | App.Upload.Error msg =>
      (out.1.2 = 400%nat ∨ out.1.2 = 500%nat)
      ∧ (out.1.2 = 400%nat → out.2 = srv)
      ∧ ((out.2 = srv ∧ ¬ ∃ file df, accepts file df)
         ∨ ∃ file df e,
             accepts file df
             ∧ Pandas.jsonify_error pd df = Some e
             ∧ msg = "Failed to process file: " +:+ exn_str e
             ∧ out.1.2 = 500%nat
             ∧ out.2 = stored df)
  end.
Proof.
  cbv zeta.
  destruct (upload_dataset_inv files srv)
    as [((msg & Hmsg) & Hstatus & Hsrv & Hno)
       |(file & df & column_info & -> & Hname & Hread & Hvalid & Hinfo & Hstate & Hout)];
    cbv zeta in *.
  - rewrite Hmsg. split; [done|]. split; [done|]. by left.
  - assert ((Utils.validate_dataset df).1 = true) as Hacc by by rewrite Hvalid.
    apply utils_validate_dataset_accepts in Hacc as [Hrows Hcols].
    apply get_column_info_ok in Hinfo as (Hnd & Hentries & _).
    assert (length (App.to_records (App.head 10 df)) = 10%nat) as Hpreview.
    { rewrite to_records_length, head_index_len. lia. }
    destruct (App.upload_dataset pd (Some file) srv) as [[body status] srv'].
    simpl in Hstate, Hout. subst srv'.
    destruct (Pandas.jsonify_error pd df) as [e|] eqn:Hjson;
      injection Hout as -> ->; simpl.
    + split; [by right|]. split; [done|]. right. by exists file, df, e.
    + split; [done|]. exists file, df. do 5 (split; [done|]).
      split; [exact Hentries|]. split; [exact Hpreview|done].
Qed.

(** ** The sessions *)

Lemma train_model_sessions data srv :
  let srv' := (App.train_model lib data srv).2 in
  srv' = srv
  ∨ ∃ sid p0 df w',
      App.pipelines srv !! sid = Some p0
      ∧ original_df p0 = Some df
      ∧ (length (App.heap srv) ≤ length (heap w'))%nat
      ∧ (∀ l, (l < length (App.heap srv))%nat → heap w' !! l = App.heap srv !! l)
      ∧ original_df (self w') = original_df p0
      ∧ srv' = App.commit sid w' srv.
Proof.
  cbv zeta. unfold App.train_model.
  destruct (App.missing_field data); [by left|].
  destruct (App.session_id data) as [sid|]; [|by left].
  destruct (App.input_features data) as [fs|]; [|by left].
  destruct (App.target_variable data) as [t|]; [|by left].
  destruct (App.model_type data) as [model_type|]; [|by left].
  destruct (App.pipelines srv !! sid) as [p0|] eqn:Hp0; [|by left].
  destruct (original_df p0) as [df|] eqn:Hdf; [|by left].
  destruct (Utils.validate_feature_target_selection _ _ _) as [is_valid error_msg].
  destruct (negb is_valid); [by left|].
  destruct (App.run_training _ _ _ _ _ _ _) as [r w'] eqn:Hrun.
  eapply (keeps_run_training lib (length (App.heap srv))) in Hrun
    as (Hlen & Hheap & Horig); [|done].
  simpl in *. right. exists sid, p0, df, w'.
  destruct r; done.
Qed.

Lemma predict_state data srv : (App.predict lib data srv).2 = srv.
Proof.
  unfold App.predict.
  repeat match goal with
         | |- context [match ?x with _ => _ end] => destruct x; try done
         end.
Qed.

Lemma session_id_inj i j : "session_" +:+ str_nat i = "session_" +:+ str_nat j → i = j.
Proof. intros H. apply String.app_inj in H. by apply pretty_nat_inj in H. Qed.

Lemma sessions_numbered_handle c srv :
  sessions_numbered srv → sessions_numbered (handle lib pd c srv).2.
Proof.
  intros Hnum. destruct c as [|files|data|data]; simpl.
  - done.
  - destruct (upload_dataset_inv files srv)
      as [(_ & _ & -> & _)|(file & df & info & _ & _ & _ & _ & _ & -> & _)]; [done|].
    cbv zeta. simpl. set (n := size (App.pipelines srv)).
    assert (App.pipelines srv !! ("session_" +:+ str_nat n) = None) as Hfresh.
    { destruct (App.pipelines srv !! _) as [p|] eqn:Hp; [|done]. exfalso.
      destruct (proj1 (Hnum _) (mk_is_Some _ _ Hp)) as (i & Hi & Heq).
      apply session_id_inj in Heq. subst n. lia. }
    intros sid. simpl. rewrite map_size_insert_None by done. fold n.
    destruct (decide (sid = "session_" +:+ str_nat n)) as [->|Hne].
    + rewrite lookup_insert_eq. split; [|by eexists]. intros _. exists n. split; [lia|done].
    + rewrite lookup_insert_ne by done. rewrite (Hnum sid). split.
      * intros (i & Hi & ->). exists i. split; [lia|done].
      * intros (i & Hi & ->). exists i. split; [|done].
        destruct (decide (i = n)) as [->|?]; [done|lia].
  - destruct (train_model_sessions data srv)
      as [->|(sid & p0 & df & w' & Hp0 & _ & _ & _ & _ & ->)]; [done|].
    intros sid'. unfold App.commit. simpl.
    rewrite map_size_insert_Some by by eexists.
    rewrite <- (Hnum sid').
    destruct (decide (sid = sid')) as [->|Hne].
    + rewrite lookup_insert_eq, Hp0. split; by eexists.
    + by rewrite lookup_insert_ne.
  - by rewrite predict_state.
Qed.

Lemma sessions_valid_handle c srv :
  sessions_valid srv → sessions_valid (handle lib pd c srv).2.
Proof.
  intros Hvalid. destruct c as [|files|data|data]; simpl.
  - done.
  - destruct (upload_dataset_inv files srv)
      as [(_ & _ & -> & _)|(file & df & info & _ & _ & _ & Hv & Hinfo & -> & _)]; [done|].
    cbv zeta. simpl. intros sid p. simpl.
    destruct (decide ("session_" +:+ str_nat (size (App.pipelines srv)) = sid)) as [->|Hne].
    + rewrite lookup_insert_eq. intros [= <-]. exists (length (App.heap srv)), df.
      split; [done|]. split; [by rewrite lookup_app_r, Nat.sub_diag|].
      assert ((Utils.validate_dataset df).1 = true) as Hacc by by rewrite Hv.
      apply utils_validate_dataset_accepts in Hacc as [Hrows Hcols].
      by apply get_column_info_ok in Hinfo as (Hnd & _).
    + rewrite lookup_insert_ne by done. intros Hp.
      destruct (Hvalid sid p Hp) as (l & df' & Hl & Hdf' & Hrest).
      exists l, df'. split; [done|]. split; [|done].
      rewrite lookup_app_l; [done|]. by eapply lookup_lt_Some.
  - destruct (train_model_sessions data srv)
      as [->|(sid & p0 & df & w' & Hp0 & Hdf & Hlen & Hheap & Horig & ->)]; [done|].
    intros sid' p. unfold App.commit. simpl.
    destruct (decide (sid = sid')) as [->|Hne].
    + rewrite lookup_insert_eq. intros [= <-].
      destruct (Hvalid sid' p0 Hp0) as (l & df' & Hl & Hdf' & Hrest).
      exists l, df'. split; [congruence|]. split; [|done].
      rewrite Hheap; [done|]. by eapply lookup_lt_Some.
    + rewrite lookup_insert_ne by done. intros Hp.
      destruct (Hvalid sid' p Hp) as (l & df' & Hl & Hdf' & Hrest).
      exists l, df'. split; [done|]. split; [|done].
      rewrite Hheap; [done|]. by eapply lookup_lt_Some.
  - by rewrite predict_state.
Qed.

Lemma serve_snoc calls c :
  serve lib pd (calls ++ [c]) = (handle lib pd c (serve lib pd calls)).2.
Proof. unfold serve. by rewrite foldl_app. Qed.

(** X24.  The identifiers of the sessions.  After any sequence of calls the
    sessions are [session_0], [session_1], ... up to their number, so the
    identifier an upload makes up is new: an upload never replaces a session,
    and no call ever drops one. *)
Theorem session_ids_are_new calls :
  let srv := serve lib pd calls in
  sessions_numbered srv
  ∧ (∀ files sid p,
       App.pipelines srv !! sid = Some p →
       App.pipelines (App.upload_dataset pd files srv).2 !! sid = Some p)
  ∧ (∀ c sid,
       is_Some (App.pipelines srv !! sid) →
       is_Some (App.pipelines (handle lib pd c srv).2 !! sid)).
Proof.
  cbv zeta.
  assert (sessions_numbered (serve lib pd calls)) as Hnum.
  { induction calls as [|c calls IH] using rev_ind.
    - intros sid. unfold serve. simpl. rewrite lookup_empty. split.
      + by intros [? ?].
      + intros (i & Hi & _). rewrite map_size_empty in Hi. lia.
    - rewrite serve_snoc. by apply sessions_numbered_handle. }
  split; [done|]. set (srv := serve lib pd calls) in *.
  assert (∀ files sid p,
            App.pipelines srv !! sid = Some p →
            App.pipelines (App.upload_dataset pd files srv).2 !! sid = Some p) as Hup.
  { intros files sid p Hp.
    destruct (upload_dataset_inv files srv)
      as [(_ & _ & -> & _)|(file & df & info & _ & _ & _ & _ & _ & -> & _)]; [done|].
    simpl. rewrite lookup_insert_ne; [done|]. intros <-.
    destruct (proj1 (Hnum _) (mk_is_Some _ _ Hp)) as (i & Hi & Heq).
    apply session_id_inj in Heq. lia. }
  split; [done|].
  intros c sid [p Hp]. destruct c as [|files|data|data]; simpl.
  - by exists p.
  - exists p. by apply Hup.
  - destruct (train_model_sessions data srv)
      as [->|(sid0 & p0 & df & w' & Hp0 & _ & _ & _ & _ & ->)]; [by exists p|].
    unfold App.commit. simpl.
    destruct (decide (sid0 = sid)) as [->|Hne].
    + rewrite lookup_insert_eq. by eexists.
    + rewrite lookup_insert_ne by done. by exists p.
  - rewrite predict_state. by exists p.
Qed.

(** X25.  The frames of the sessions.  After any sequence of calls every
    session points to a frame in memory that has at least 10 rows, at least 2
    columns and distinct labels: the frame that was uploaded, which no
    training has replaced or changed in these respects. *)
Theorem session_frames_stay_valid calls : sessions_valid (serve lib pd calls).
Proof.
  induction calls as [|c calls IH] using rev_ind.
  - intros sid p. unfold serve. simpl. by rewrite lookup_empty.
  - rewrite serve_snoc. by apply sessions_valid_handle.
Qed.

End sessions.

Lemma sample_upload_accepted (pd : Pandas.library) :
  Pandas.read_csv pd = Sample.named →
  let file := {| App.Upload.filename := "data.csv"; App.Upload.content := "with_gaps" |} in
  Some file = Some file
  ∧ App.Upload.filename file ≠ ""
  ∧ App.read_file pd file = Some (Ok Sample.with_gaps)
  ∧ (10 ≤ index_len Sample.with_gaps)%nat
  ∧ (2 ≤ length (columns Sample.with_gaps))%nat
  ∧ NoDup (labels Sample.with_gaps).
Proof.
  intros Hcsv. cbv zeta. split; [done|]. split; [discriminate|].
  split; [unfold App.read_file; simpl; by rewrite Hcsv|].
  split; [simpl; lia|]. split; [simpl; lia|].
  apply (bool_decide_unpack (NoDup (labels Sample.with_gaps))). reflexivity.
Qed.

(** The sample file with gaps is accepted as the first session, with a
    preview of ten records; when the response does not serialise, the answer
    is status 500 and the session is there all the same. *)
Lemma upload_dataset_outcome_witness :
  let file := {| App.Upload.filename := "data.csv"; App.Upload.content := "with_gaps" |} in
  (let out := App.upload_dataset Sample.pd (Some file) App.initial in
   ∃ r, out.1.1 = App.Upload.Uploaded r
        ∧ out.1.2 = 200%nat
        ∧ App.Upload.session_id r = "session_0"
        ∧ App.Upload.columns r = ["age"; "city"; "label"]
        ∧ length (App.Upload.preview r) = 10%nat)
  ∧ (let out := App.upload_dataset Sample.pd_mixed_keys (Some file) App.initial in
     out.1.2 = 500%nat ∧ is_Some (App.pipelines out.2 !! "session_0")).
Proof.
  intros file. split.
  - intros out.
    pose proof (upload_dataset_outcome Sample.pd (Some file) App.initial) as H.
    cbv zeta in H. fold out in H.
    destruct (out.1.1) as [msg|r].
    + exfalso. destruct H as (_ & _ & [[_ Hno]|(f & df & e & _ & He & _)]).
      * apply Hno. exists file, Sample.with_gaps.
        by apply (sample_upload_accepted Sample.pd).
      * discriminate He.
    + destruct H as (Hstatus & f & df & (Hfile & _ & Hread & _) & _
                     & Hsid & _ & Hcols & _ & Hprev & _).
      injection Hfile as <-.
      destruct (sample_upload_accepted Sample.pd eq_refl) as (_ & _ & Hfile & _).
      assert (Some (Ok df) = Some (Ok Sample.with_gaps)) as [= ->]
        by (rewrite <- Hread; exact Hfile).
      exists r. split; [reflexivity|]. split; [exact Hstatus|].
      split; [exact Hsid|]. split; [exact Hcols|exact Hprev].
  - intros out.
    pose proof (upload_dataset_outcome Sample.pd_mixed_keys (Some file) App.initial) as H.
    cbv zeta in H. fold out in H.
    destruct (out.1.1) as [msg|r].
    + destruct H as (_ & _ & [[_ Hno]|(f & df & e & _ & _ & _ & Hstatus & Hstate)]).
      * exfalso. apply Hno. exists file, Sample.with_gaps.
        by apply (sample_upload_accepted Sample.pd_mixed_keys).
      * split; [exact Hstatus|]. rewrite Hstate. simpl.
        rewrite lookup_insert_eq. by eexists.
    + destruct H as (_ & f & df & _ & He & _). discriminate He.
Defined.

(** Two uploads, a training and a prediction: the second session is
    [session_1], and the first is still there. *)
Lemma session_ids_are_new_witness :
  let file := {| App.Upload.filename := "data.csv"; App.Upload.content := "with_gaps" |} in
  let srv := serve Sample.lib Sample.pd
               [Upload (Some file);
                Train (Sample.train_request ["age"; "city"] "label" "knn")] in
  is_Some (App.pipelines srv !! "session_0")
  ∧ is_Some (App.pipelines (handle Sample.lib Sample.pd (Upload (Some file)) srv).2
             !! "session_0")
  ∧ size (App.pipelines srv) = 1%nat.
Proof.
  cbv zeta.
  pose proof (session_ids_are_new Sample.lib Sample.pd
    [Upload (Some {| App.Upload.filename := "data.csv"; App.Upload.content := "with_gaps" |});
     Train (Sample.train_request ["age"; "city"] "label" "knn")]) as H.
  cbv zeta in H. destruct H as (Hnum & _ & Hkept).
  assert (is_Some (App.pipelines
            (serve Sample.lib Sample.pd
               [Upload (Some {| App.Upload.filename := "data.csv";
                                App.Upload.content := "with_gaps" |});
                Train (Sample.train_request ["age"; "city"] "label" "knn")])
            !! "session_0")) as Hsome.
  { apply Hnum. exists 0%nat. split; [vm_compute; lia|reflexivity]. }
  split; [exact Hsome|]. split; [by apply Hkept|]. by vm_compute.
Defined.

(** After an upload and a training the session still points to the
    uploaded frame of ten rows. *)
Lemma session_frames_stay_valid_witness :
  ∃ p l df,
    let srv := serve Sample.lib Sample.pd
                 [Upload (Some {| App.Upload.filename := "data.csv";
                                  App.Upload.content := "with_gaps" |});
                  Train (Sample.train_request ["age"; "city"] "label" "knn")] in
    App.pipelines srv !! "session_0" = Some p
    ∧ MLPipeline.original_df p = Some l
    ∧ App.heap srv !! l = Some df
    ∧ (10 ≤ index_len df)%nat.
Proof.
  pose proof (session_frames_stay_valid Sample.lib Sample.pd
    [Upload (Some {| App.Upload.filename := "data.csv"; App.Upload.content := "with_gaps" |});
     Train (Sample.train_request ["age"; "city"] "label" "knn")]) as H.
  set (srv := serve _ _ _) in *.
  destruct (App.pipelines srv !! "session_0") as [p|] eqn:Hp;
    [|vm_compute in Hp; discriminate Hp].
  destruct (H "session_0" p Hp) as (l & df & Hl & Hdf & Hrows & _).
  exists p, l, df. exact (conj Hp (conj Hl (conj Hdf Hrows))).
Defined.

(** ** Predictions *)

Section predictions.
Import MLPipeline.
Context (lib : library).


End predictions.

